(** * Smart Parking Lot System: spot allocation, fee engine, entry and exit

    A shallow embedding of the core of the repository:
    - [utils/spotAllocator.js]   (best-fit spot selection, statistics),
    - [utils/feeCalculator.js]   (fee computation),
    - the Mongoose models and the repositories the services use,
    - [services/spotAllocationService.js], [services/feeCalculationService.js],
      [services/entryService.js] and [services/exitService.js].

    Conventions of the embedding.
    - JavaScript strings are [string]; the enumerations of the schemas
      (vehicle type, spot type, status) stay strings, as in the source, so
      that the fall-through cases of the code ([|| 999], [default:]) exist.
    - Integral JavaScript numbers (floor and spot numbers, minutes,
      milliseconds since the epoch for a [Date], counters) are [Z].
    - A JavaScript number that is not integral (a rate, a fee, a ratio) is
      a double; it is represented by the rational [Q] it is exactly. A
      product or a quotient of the code is the exact one rounded to the
      nearest double by [fl]; a number read back from [toFixed(2)] is
      represented by the decimal it was parsed from. Infinities and NaN are
      outside the embedding.
    - An [ObjectId] is a [Z]; a collection is the list of its documents in
      natural (insertion) order.
    - A thrown exception is a value of [exn]; code that can throw returns an
      [outcome]; code that also reads or writes the database runs in the
      monad [M], where a throw keeps the writes made before it (the source
      has no transaction and no rollback). *)

From Stdlib Require Import ZArith QArith Qround Qabs Qpower List String Ascii Bool Lia Lqa.
From Stdlib Require Import Sorted Permutation.
From Stdlib Require Import DecimalString.
Import ListNotations.
Local Open Scope string_scope.
Local Open Scope Z_scope.

Set Implicit Arguments.

(** ** Exceptions and outcomes *)

(** [new Error(msg)], [new AppError(message, statusCode, errorCode)] and the
    [ValidationError] Mongoose raises when a document does not satisfy its
    schema. *)
Inductive exn : Type :=
| Error (message : string)
| AppError (message : string) (statusCode : Z) (errorCode : string)
| MongooseValidationError (path : string).

Inductive outcome (A : Type) : Type :=
| Return (a : A)
| Throw (e : exn).
Arguments Return {A} a.
Arguments Throw {A} e.

(** [error.errorCode], [undefined] for an exception that is not an [AppError]. *)
Definition errorCode_of (e : exn) : option string :=
  match e with
  | AppError _ _ c => Some c
  | _ => None
  end.

Definition ObjectId := Z.

(** [arr.includes(x)] on an array of strings. *)
Definition includes (arr : list string) (x : string) : bool :=
  existsb (String.eqb x) arr.

(** The names of the members an object literal inherits from
    [Object.prototype]: [literal[key]] finds a member under each of them,
    although the literal lists none. The lookups of utils/spotAllocator.js
    ([spotTypeMap[vehicleType]], [priorityMap[spotType]]) are modelled for
    the keys that are not among them. *)
Definition Object_prototype_keys : list string :=
  ["constructor"; "hasOwnProperty"; "isPrototypeOf"; "propertyIsEnumerable";
   "toLocaleString"; "toString"; "valueOf"; "__proto__";
   "__defineGetter__"; "__defineSetter__"; "__lookupGetter__"; "__lookupSetter__"].

(** ** Array.prototype.sort

    ECMAScript requires [sort] to be stable; for a comparator that is a
    consistent total preorder the sorted array is then determined by the
    input, whatever algorithm the engine runs. The model is the stable
    insertion sort: [comparefn a b <= 0] keeps [a] before [b]. *)
Section ArraySort.
Variable A : Type.
Variable comparefn : A -> A -> Z.

Fixpoint sort_insert (x : A) (l : list A) : list A :=
  match l with
  | [] => [x]
  | y :: t => if comparefn x y <=? 0 then x :: y :: t else y :: sort_insert x t
  end.

Definition Array_sort (l : list A) : list A :=
  fold_right sort_insert [] l.
End ArraySort.

(** ** models/ParkingSpot.js *)
Module ParkingSpot.
Record t : Type := mk {
  _id : ObjectId;
  floor_number : Z;
  spot_number : Z;
  spot_type : string;
  status : string;
  current_vehicle_id : option ObjectId   (* [None] is [null] *)
}.

Definition statusEnum : list string := ["AVAILABLE"; "OCCUPIED"; "MAINTENANCE"].
End ParkingSpot.

(** ** utils/spotAllocator.js *)
Module SpotAllocator.
Import ParkingSpot.

(** [spotTypeMap[vehicleType]], throwing when the key is absent; for a
    [vehicleType] outside [Object_prototype_keys]. *)
Definition getEligibleSpotTypes (vehicleType : string) : outcome (list string) :=
  if (vehicleType =? "MOTORCYCLE")%string then Return ["MOTORCYCLE"; "CAR"; "BUS"]
  else if (vehicleType =? "CAR")%string then Return ["CAR"; "BUS"]
  else if (vehicleType =? "BUS")%string then Return ["BUS"]
  else Throw (Error ("Invalid vehicle type: " ++ vehicleType)%string).

(** [priorityMap[spotType] || 999], for a [spotType] outside
    [Object_prototype_keys]. *)
Definition getSpotTypePriority (spotType : string) : Z :=
  if (spotType =? "MOTORCYCLE")%string then 1
  else if (spotType =? "CAR")%string then 2
  else if (spotType =? "BUS")%string then 3
  else 999.

(** The comparator handed to [spots.sort] in [sortSpotsByPriority]. *)
Definition compareSpots (a b : ParkingSpot.t) : Z :=
  if negb (floor_number a =? floor_number b)%Z then
    floor_number a - floor_number b
  else
    let priorityA := getSpotTypePriority (spot_type a) in
    let priorityB := getSpotTypePriority (spot_type b) in
    if negb (priorityA =? priorityB)%Z then priorityA - priorityB
    else spot_number a - spot_number b.

Definition sortSpotsByPriority (spots : list ParkingSpot.t) : list ParkingSpot.t :=
  Array_sort compareSpots spots.

(** The predicate of the [filter] call in [selectOptimalSpot]. *)
Definition matches (eligibleTypes : list string) (spot : ParkingSpot.t) : bool :=
  includes eligibleTypes (spot_type spot) && (status spot =? "AVAILABLE")%string.

(** [selectOptimalSpot(vehicleType, availableSpots)]; [Return None] is the
    [null] result. An empty [vehicleType] is falsy and throws; the array
    checks of the guard hold for every list. *)
Definition selectOptimalSpot (vehicleType : string)
    (availableSpots : list ParkingSpot.t) : outcome (option ParkingSpot.t) :=
  if (vehicleType =? "")%string then Throw (Error "Invalid parameters for spot allocation")
  else
    match availableSpots with
    | [] => Return None
    | _ =>
      match getEligibleSpotTypes vehicleType with
      | Throw e => Throw e
      | Return eligibleTypes =>
        let matchingSpots := filter (matches eligibleTypes) availableSpots in
        match matchingSpots with
        | [] => Return None
        | _ =>
          let sortedSpots := sortSpotsByPriority matchingSpots in
          Return (nth_error sortedSpots 0)
        end
      end
    end.
End SpotAllocator.

(** ** Numbers: Math.floor, Math.ceil, Math.round, division, toFixed *)

(** [a / b] on integral numbers, as the exact quotient. Where the code
    keeps the quotient, it is rounded by [fl] below; where the code hands it
    to [Math.floor], [Math.ceil] or [Math.round] (minutes by 60, milliseconds
    by 60000), rounding it to a double first leaves the integer unchanged. *)
Definition num_div (a b : Z) : Q := (inject_Z a / inject_Z b)%Q.

(** *** Doubles

    The result of an arithmetic operation on doubles is the exact result
    rounded to the nearest double (binary64: 53 significant bits, least
    exponent -1074), the one with the even significand on a tie. *)

(** [2^e] for an integer exponent. *)
Definition pow2 (e : Z) : Q := (2 ^ e)%Q.

(** [floor(log2 x)] for [0 < x]. *)
Definition ilog2 (x : Q) : Z :=
  let k := Z.log2 (Qnum x) - Z.log2 (Zpos (Qden x)) in
  if Qle_bool (pow2 k) x then k else k - 1.

(** The integer nearest to [x], the even one on a tie. *)
Definition round_half_even (x : Q) : Z :=
  let f := Qfloor x in
  match ((x - inject_Z f) ?= (1 # 2))%Q with
  | Lt => f
  | Gt => f + 1
  | Eq => if Z.even f then f else f + 1
  end.

(** The exponent of the last bit of the double nearest to [x], for [0 < x]:
    52 below that of the leading bit, and -1074 for a subnormal. *)
Definition fl_exp (x : Q) : Z := Z.max (ilog2 x - 52) (-1074).

Definition fl_pos (x : Q) : Q :=
  let e := fl_exp x in
  (inject_Z (round_half_even (x / pow2 e)) * pow2 e)%Q.

(** The double nearest to [x]. *)
Definition fl (x : Q) : Q :=
  match (x ?= 0)%Q with
  | Eq => 0%Q
  | Gt => fl_pos x
  | Lt => (- fl_pos (- x))%Q
  end.

(** [x] is a finite double. *)
Definition binary64 (x : Q) : Prop := (fl x == x)%Q /\ (Qabs x < pow2 1024)%Q.

Definition Math_floor (x : Q) : Z := Qfloor x.
Definition Math_ceil (x : Q) : Z := Qceiling x.
(** [Math.round] rounds to the nearest integer, a tie going up: floor (x + 1/2). *)
Definition Math_round (x : Q) : Z := Qfloor (x + (1 # 2))%Q.

(** [parseFloat(x.toFixed(2))] for a double [x], given by its exact value.
    [toFixed(2)] picks the integer [n] for which
    [n / 100] is closest to [x], the larger [n] on a tie, after taking the
    sign off a negative [x]; [parseFloat] reads [n / 100] back. (From 1e21 on
    [toFixed] prints the number itself; a double that large is integral, so
    this is the same value.) *)
Definition toFixed2 (x : Q) : Q :=
  if Qle_bool 0 x then (Qfloor (x * 100 + (1 # 2)) # 100)%Q
  else (- (Qfloor ((- x) * 100 + (1 # 2)) # 100))%Q.

(** [String(n)] for an integral number. *)
Definition Z_to_string (n : Z) : string :=
  DecimalString.NilZero.string_of_int (Z.to_int n).

(** ** utils/spotAllocator.js: allocation statistics *)
Module AllocationStats.
Record type_stats : Type := mk_type_stats {
  available : Z;
  occupied : Z;
  total : Z;
  occupancy_rate : Q
}.

Record t : Type := mk {
  MOTORCYCLE : type_stats;
  CAR : type_stats;
  BUS : type_stats
}.

Definition modify_type (spot_type : string) (f : type_stats -> type_stats) (stats : t) : t :=
  if (spot_type =? "MOTORCYCLE")%string then mk (f (MOTORCYCLE stats)) (CAR stats) (BUS stats)
  else if (spot_type =? "CAR")%string then mk (MOTORCYCLE stats) (f (CAR stats)) (BUS stats)
  else if (spot_type =? "BUS")%string then mk (MOTORCYCLE stats) (CAR stats) (f (BUS stats))
  else stats.

Definition incAvailable (st : type_stats) : type_stats :=
  mk_type_stats (available st + 1) (occupied st) (total st) (occupancy_rate st).
Definition incOccupied (st : type_stats) : type_stats :=
  mk_type_stats (available st) (occupied st + 1) (total st) (occupancy_rate st).

Definition finish (st : type_stats) : type_stats :=
  let total := available st + occupied st in
  mk_type_stats (available st) (occupied st) total
    (if 0 <? total then toFixed2 (fl (num_div (occupied st) total)) else 0%Q).

Definition getAllocationStats (availableSpots occupiedSpots : list ParkingSpot.t) : t :=
  let zero := mk_type_stats 0 0 0 0%Q in
  let stats := mk zero zero zero in
  let stats :=
    fold_left (fun stats spot => modify_type (ParkingSpot.spot_type spot) incAvailable stats)
              availableSpots stats in
  let stats :=
    fold_left (fun stats spot => modify_type (ParkingSpot.spot_type spot) incOccupied stats)
              occupiedSpots stats in
  mk (finish (MOTORCYCLE stats)) (finish (CAR stats)) (finish (BUS stats)).

Definition entries (stats : t) : list (string * type_stats) :=
  [("MOTORCYCLE", MOTORCYCLE stats); ("CAR", CAR stats); ("BUS", BUS stats)].

Record recommendation : Type := mk_recommendation {
  vehicleType : string;
  availableSpots : Z;
  occupancyRate : Q
}.

Definition getAllocationRecommendations (spotStats : list (string * type_stats))
    : list recommendation :=
  let recommendations :=
    fold_left
      (fun recommendations entry =>
         let '(vehicleType, stats) := entry in
         if 0 <? available stats then
           (recommendations
              ++ [mk_recommendation vehicleType (available stats) (occupancy_rate stats)])%list
         else recommendations)
      spotStats [] in
  Array_sort (fun a b => availableSpots b - availableSpots a) recommendations.
End AllocationStats.

(** ** models/RateCard.js

    The object handed to [calculateParkingFee]. [None] is [null] or
    [undefined] for [daily_max_rate] and [undefined] for the two fields the
    calculator destructures with a default. *)
Module RateCard.
Record t : Type := mk {
  vehicle_type : string;
  hourly_rate : Q;
  daily_max_rate : option Q;
  rounding_strategy : option string;
  grace_period_minutes : option Z
}.
End RateCard.

(** ** utils/feeCalculator.js *)
Module FeeCalculator.

(** The [rate_card] object of the result, defaults filled in. *)
Record rate_card_t : Type := mk_rate_card {
  hourly_rate : Q;
  daily_max_rate : option Q;
  grace_period_minutes : Z;
  rounding_strategy : string
}.

Record calculation_details_t : Type := mk_details {
  grace_period_applied : Z;
  adjusted_minutes : Z;
  hourly_units : Z;
  base_fee : Q;
  daily_cap_applied : bool;
  final_fee : Q
}.

Record t : Type := mk {
  vehicle_type : string;
  entry_time : Z;
  exit_time : Z;
  duration_minutes : Z;
  duration_formatted : string;
  rate_card : rate_card_t;
  calculation_details : calculation_details_t;
  parking_fee : Q;
  currency : string
}.

(** [`${n} ${word}${n !== 1 ? 's' : ''}`] *)
Definition plural (n : Z) (word : string) : string :=
  (Z_to_string n ++ " " ++ word ++ (if negb (n =? 1)%Z then "s" else ""))%string.

Definition formatDuration (minutes : Z) : string :=
  let hours := Math_floor (num_div minutes 60) in
  let mins := Z.rem minutes 60 in
  if hours =? 0 then plural mins "minute"
  else if mins =? 0 then plural hours "hour"
  else (plural hours "hour" ++ " " ++ plural mins "minute")%string.

(** The [switch (rounding_strategy)] of step 3. *)
Definition hourlyUnits (rounding_strategy : string) (adjustedMinutes : Z) : Z :=
  if (rounding_strategy =? "CEILING")%string then Math_ceil (num_div adjustedMinutes 60)
  else if (rounding_strategy =? "FLOOR")%string then Math_floor (num_div adjustedMinutes 60)
  else if (rounding_strategy =? "ROUND")%string then Math_round (num_div adjustedMinutes 60)
  else Math_ceil (num_div adjustedMinutes 60).

(** Step 5: [finalFee] and [dailyCapApplied]. The cap applies when
    [daily_max_rate] is neither [null] nor [undefined] and
    [baseFee > daily_max_rate], a comparison of two doubles, each given by
    its exact value. *)
Definition applyDailyCap (daily_max_rate : option Q) (baseFee : Q) : Q * bool :=
  match daily_max_rate with
  | Some cap => if negb (Qle_bool baseFee cap) then (cap, true) else (baseFee, false)
  | None => (baseFee, false)
  end.

(** The destructuring of [rateCard], with its two defaults:
    [grace_period_minutes = 15] and [rounding_strategy = 'CEILING']. *)
Definition grace_of (rateCard : RateCard.t) : Z :=
  match RateCard.grace_period_minutes rateCard with
  | Some g => g
  | None => 15
  end.

Definition rounding_of (rateCard : RateCard.t) : string :=
  match RateCard.rounding_strategy rateCard with
  | Some r => r
  | None => "CEILING"
  end.

(** Step 1: [Math.floor((exitTime - entryTime) / (1000 * 60))], the two
    [Date]s in milliseconds since the epoch. *)
Definition durationMinutes (entryTime exitTime : Z) : Z :=
  let durationMs := exitTime - entryTime in
  Math_floor (num_div durationMs (1000 * 60)).

(** [calculateParkingFee(vehicleType, entryTime, exitTime, rateCard)]. An
    empty [vehicleType] is falsy; a [Date] and a rate card object are not.
    Step 4 multiplies two doubles: [baseFee] is the exact product rounded to
    the nearest double. *)
Definition calculateParkingFee (vehicleType : string) (entryTime exitTime : Z)
    (rateCard : RateCard.t) : outcome t :=
  if (vehicleType =? "")%string then
    Throw (Error "Missing required parameters for fee calculation")
  else if exitTime <=? entryTime then
    Throw (Error "Exit time must be after entry time")
  else
    let hourly_rate := RateCard.hourly_rate rateCard in
    let daily_max_rate := RateCard.daily_max_rate rateCard in
    let grace_period_minutes := grace_of rateCard in
    let rounding_strategy := rounding_of rateCard in
    let durationMinutes := durationMinutes entryTime exitTime in
    let echo := mk_rate_card hourly_rate daily_max_rate grace_period_minutes rounding_strategy in
    if durationMinutes <=? grace_period_minutes then
      Return (mk vehicleType entryTime exitTime durationMinutes
                 (formatDuration durationMinutes) echo
                 (mk_details durationMinutes 0 0 0%Q false 0%Q)
                 0%Q "USD")
    else
      let gracePeriodApplied := grace_period_minutes in
      let adjustedMinutes := durationMinutes - grace_period_minutes in
      let hourlyUnits := hourlyUnits rounding_strategy adjustedMinutes in
      let baseFee := fl (inject_Z hourlyUnits * hourly_rate) in
      let '(finalFee, dailyCapApplied) := applyDailyCap daily_max_rate baseFee in
      let finalFee := toFixed2 finalFee in
      Return (mk vehicleType entryTime exitTime durationMinutes
                 (formatDuration durationMinutes) echo
                 (mk_details gracePeriodApplied adjustedMinutes hourlyUnits
                             (toFixed2 baseFee) dailyCapApplied finalFee)
                 finalFee "USD").
End FeeCalculator.

(** ** Strings: toUpperCase, toLowerCase (ASCII letters) *)

Definition toUpperCase_ascii (c : ascii) : ascii :=
  let n := N_of_ascii c in
  if ((97 <=? n) && (n <=? 122))%N then ascii_of_N (n - 32) else c.

Definition toLowerCase_ascii (c : ascii) : ascii :=
  let n := N_of_ascii c in
  if ((65 <=? n) && (n <=? 90))%N then ascii_of_N (n + 32) else c.

Fixpoint string_map (f : ascii -> ascii) (s : string) : string :=
  match s with
  | EmptyString => EmptyString
  | String c t => String (f c) (string_map f t)
  end.

Definition toUpperCase : string -> string := string_map toUpperCase_ascii.
Definition toLowerCase : string -> string := string_map toLowerCase_ascii.

(** ** models/Vehicle.js *)
Module Vehicle.
Record t : Type := mk {
  _id : ObjectId;
  license_plate : string;
  vehicle_type : string;
  owner_name : option string;
  registration_number : option string;
  is_currently_parked : bool
}.

Definition vehicleTypeEnum : list string := ["MOTORCYCLE"; "CAR"; "BUS"].

Definition too_long (limit : nat) (s : option string) : bool :=
  match s with
  | Some s => (limit <? String.length s)%nat
  | None => false
  end.

(** The validators of the schema, run by [save]: the first failing path.
    (The [trim] setters are not modelled: [validateEntryRequest] hands the
    service strings that are already trimmed.) *)
Definition validate (v : t) : option string :=
  if (license_plate v =? "")%string then Some "license_plate"
  else if (20 <? String.length (license_plate v))%nat then Some "license_plate"
  else if negb (includes vehicleTypeEnum (vehicle_type v)) then Some "vehicle_type"
  else if too_long 100 (owner_name v) then Some "owner_name"
  else if too_long 50 (registration_number v) then Some "registration_number"
  else None.
End Vehicle.

(** ** models/ParkingTransaction.js *)
Module ParkingTransaction.
Record t : Type := mk {
  _id : ObjectId;
  vehicle_id : ObjectId;
  spot_id : ObjectId;
  entry_time : Z;
  exit_time : option Z;            (* [None] while the transaction is open *)
  duration_minutes : option Z;
  parking_fee : option Q;
  payment_status : string;
  payment_method : option string
}.

(** The transaction is open: [exit_time] is [null]. *)
Definition is_open (tr : t) : bool :=
  match exit_time tr with
  | None => true
  | Some _ => false
  end.
End ParkingTransaction.

(** ** models/ParkingLot.js *)
Module ParkingLot.
Record t : Type := mk {
  _id : ObjectId;
  name : string;
  total_floors : Z;
  total_spots : Z;
  available_motorcycle_spots : Z;
  available_car_spots : Z;
  available_bus_spots : Z;
  occupied_motorcycle_spots : Z;
  occupied_car_spots : Z;
  occupied_bus_spots : Z
}.
End ParkingLot.

(** ** The database and the monad of the services *)

Record Store : Type := mkStore {
  vehicles : list Vehicle.t;
  parkingSpots : list ParkingSpot.t;
  parkingTransactions : list ParkingTransaction.t;
  rateCards : list RateCard.t;
  parkingLots : list ParkingLot.t;
  nextObjectId : ObjectId          (* the next [ObjectId] Mongoose generates *)
}.

(** An operation on the database: a result or a throw, and the database as
    the operation leaves it. *)
Definition M (A : Type) : Type := Store -> outcome A * Store.

Definition ret {A} (a : A) : M A := fun s => (Return a, s).
Definition throw {A} (e : exn) : M A := fun s => (Throw e, s).
Definition bind {A B} (c : M A) (k : A -> M B) : M B :=
  fun s =>
    match c s with
    | (Return a, s') => k a s'
    | (Throw e, s') => (Throw e, s')
    end.
Definition gets {A} (f : Store -> A) : M A := fun s => (Return (f s), s).
Definition modify (f : Store -> Store) : M unit := fun s => (Return tt, f s).
Definition lift {A} (o : outcome A) : M A := fun s => (o, s).

Declare Scope db_scope.
Delimit Scope db_scope with db.
Notation "x <- c ;; k" := (bind c (fun x => k))
  (at level 61, c at next level, right associativity) : db_scope.
Notation "c ;;; k" := (bind c (fun _ => k))
  (at level 61, right associativity) : db_scope.
Local Open Scope db_scope.

(** [new ObjectId()] *)
Definition newObjectId : M ObjectId :=
  fun s => (Return (nextObjectId s),
            mkStore (vehicles s) (parkingSpots s) (parkingTransactions s)
                    (rateCards s) (parkingLots s) (nextObjectId s + 1)).

(** [Model.findByIdAndUpdate(id, update, { new: true })] on a collection:
    the first document that satisfies [p] is replaced by its image. *)
Fixpoint updateFirst {A} (p : A -> bool) (f : A -> A) (l : list A) : list A :=
  match l with
  | [] => []
  | x :: t => if p x then f x :: t else x :: updateFirst p f t
  end.

Definition set_vehicles (f : list Vehicle.t -> list Vehicle.t) (s : Store) : Store :=
  mkStore (f (vehicles s)) (parkingSpots s) (parkingTransactions s)
          (rateCards s) (parkingLots s) (nextObjectId s).
Definition set_parkingSpots (f : list ParkingSpot.t -> list ParkingSpot.t) (s : Store) : Store :=
  mkStore (vehicles s) (f (parkingSpots s)) (parkingTransactions s)
          (rateCards s) (parkingLots s) (nextObjectId s).
Definition set_parkingTransactions
    (f : list ParkingTransaction.t -> list ParkingTransaction.t) (s : Store) : Store :=
  mkStore (vehicles s) (parkingSpots s) (f (parkingTransactions s))
          (rateCards s) (parkingLots s) (nextObjectId s).
Definition set_parkingLots (f : list ParkingLot.t -> list ParkingLot.t) (s : Store) : Store :=
  mkStore (vehicles s) (parkingSpots s) (parkingTransactions s)
          (rateCards s) (f (parkingLots s)) (nextObjectId s).

(** ** repositories/vehicleRepository.js *)
Module VehicleRepository.

Definition findByLicensePlate (licensePlate : string) : M (option Vehicle.t) :=
  gets (fun s =>
    find (fun v => (Vehicle.license_plate v =? toUpperCase licensePlate)%string) (vehicles s)).

(** [create(vehicleData)]: a new document with a fresh [_id], validated and
    appended by [save]. *)
Definition create (license_plate vehicle_type : string)
    (owner_name registration_number : option string) (is_currently_parked : bool)
    : M Vehicle.t :=
  id <- newObjectId ;;
  let vehicle :=
    Vehicle.mk id license_plate vehicle_type owner_name registration_number
               is_currently_parked in
  match Vehicle.validate vehicle with
  | Some path => throw (MongooseValidationError path)
  | None => modify (set_vehicles (fun l => (l ++ [vehicle])%list)) ;;; ret vehicle
  end.

Definition setParked (isParked : bool) (v : Vehicle.t) : Vehicle.t :=
  Vehicle.mk (Vehicle._id v) (Vehicle.license_plate v) (Vehicle.vehicle_type v)
             (Vehicle.owner_name v) (Vehicle.registration_number v) isParked.

Definition updateParkingStatus (vehicleId : ObjectId) (isParked : bool)
    : M (option Vehicle.t) :=
  let p := fun v => Vehicle._id v =? vehicleId in
  found <- gets (fun s => find p (vehicles s)) ;;
  modify (set_vehicles (updateFirst p (setParked isParked))) ;;;
  ret (option_map (setParked isParked) found).
End VehicleRepository.

(** ** repositories/parkingSpotRepository.js *)
Module ParkingSpotRepository.

Definition comparison_to_Z (c : comparison) : Z :=
  match c with
  | Lt => -1
  | Eq => 0
  | Gt => 1
  end.

(** The order of [.sort({ floor_number: 1, spot_type: 1, spot_number: 1 })]:
    the database compares [spot_type] as a string. *)
Definition compareBySortKey (a b : ParkingSpot.t) : Z :=
  if negb (ParkingSpot.floor_number a =? ParkingSpot.floor_number b) then
    ParkingSpot.floor_number a - ParkingSpot.floor_number b
  else
    match String.compare (ParkingSpot.spot_type a) (ParkingSpot.spot_type b) with
    | Eq => ParkingSpot.spot_number a - ParkingSpot.spot_number b
    | c => comparison_to_Z c
    end.

Definition findAvailableByTypes (spotTypes : list string) : M (list ParkingSpot.t) :=
  gets (fun s =>
    Array_sort compareBySortKey
      (filter (fun spot => includes spotTypes (ParkingSpot.spot_type spot)
                           && (ParkingSpot.status spot =? "AVAILABLE")%string)
              (parkingSpots s))).

Definition findById (spotId : ObjectId) : M (option ParkingSpot.t) :=
  gets (fun s => find (fun spot => ParkingSpot._id spot =? spotId) (parkingSpots s)).

(** The update document [updateData] of [updateStatus] applied to a spot:
    [status] is always set; [current_vehicle_id] is set only when the
    [vehicleId] argument is not [null]. *)
Definition applyUpdate (status : string) (vehicleId : option ObjectId)
    (spot : ParkingSpot.t) : ParkingSpot.t :=
  ParkingSpot.mk (ParkingSpot._id spot) (ParkingSpot.floor_number spot)
    (ParkingSpot.spot_number spot) (ParkingSpot.spot_type spot) status
    (match vehicleId with
     | Some v => Some v
     | None => ParkingSpot.current_vehicle_id spot
     end).

(** [updateStatus(spotId, status, vehicleId = null)]; [runValidators]
    checks [status] against the enumeration of the schema. The result is the
    updated document, [None] ([null]) when no spot has this id. *)
Definition updateStatus (spotId : ObjectId) (status : string)
    (vehicleId : option ObjectId) : M (option ParkingSpot.t) :=
  if negb (includes ParkingSpot.statusEnum status) then
    throw (MongooseValidationError "status")
  else
    let p := fun spot => ParkingSpot._id spot =? spotId in
    found <- gets (fun s => find p (parkingSpots s)) ;;
    modify (set_parkingSpots (updateFirst p (applyUpdate status vehicleId))) ;;;
    ret (option_map (applyUpdate status vehicleId) found).
End ParkingSpotRepository.

(** ** repositories/transactionRepository.js *)
Module TransactionRepository.

(** [create({ vehicle_id, spot_id, entry_time })]: the other fields take the
    defaults of the schema. *)
Definition create (vehicle_id spot_id : ObjectId) (entry_time : Z)
    : M ParkingTransaction.t :=
  id <- newObjectId ;;
  let transaction :=
    ParkingTransaction.mk id vehicle_id spot_id entry_time None None None "PENDING" None in
  modify (set_parkingTransactions (fun l => (l ++ [transaction])%list)) ;;;
  ret transaction.

(** [findActiveByVehicleId(vehicleId)]: the first transaction of the vehicle
    whose [exit_time] is [null], with [spot_id] populated: the second
    component is the spot document, [None] when the spot does not exist. *)
Definition findActiveByVehicleId (vehicleId : ObjectId)
    : M (option (ParkingTransaction.t * option ParkingSpot.t)) :=
  gets (fun s =>
    match find (fun tr => (ParkingTransaction.vehicle_id tr =? vehicleId)
                          && ParkingTransaction.is_open tr)
               (parkingTransactions s) with
    | None => None
    | Some tr =>
      Some (tr, find (fun spot => ParkingSpot._id spot =? ParkingTransaction.spot_id tr)
                     (parkingSpots s))
    end).

Definition applyExit (exit_time duration_minutes : Z) (parking_fee : Q)
    (payment_status : string) (tr : ParkingTransaction.t) : ParkingTransaction.t :=
  ParkingTransaction.mk (ParkingTransaction._id tr) (ParkingTransaction.vehicle_id tr)
    (ParkingTransaction.spot_id tr) (ParkingTransaction.entry_time tr)
    (Some exit_time) (Some duration_minutes) (Some parking_fee) payment_status
    (ParkingTransaction.payment_method tr).

Definition paymentStatusEnum : list string := ["PENDING"; "PAID"; "CANCELLED"].

(** [updateExit(transactionId, exitData)], with the validators of the
    updated paths ([min: 0] on the duration and on the fee, the enumeration
    of [payment_status]). *)
Definition updateExit (transactionId : ObjectId) (exit_time duration_minutes : Z)
    (parking_fee : Q) (payment_status : string) : M (option ParkingTransaction.t) :=
  if duration_minutes <? 0 then throw (MongooseValidationError "duration_minutes")
  else if negb (Qle_bool 0 parking_fee) then throw (MongooseValidationError "parking_fee")
  else if negb (includes paymentStatusEnum payment_status) then
    throw (MongooseValidationError "payment_status")
  else
    let p := fun tr => ParkingTransaction._id tr =? transactionId in
    let f := applyExit exit_time duration_minutes parking_fee payment_status in
    found <- gets (fun s => find p (parkingTransactions s)) ;;
    modify (set_parkingTransactions (updateFirst p f)) ;;;
    ret (option_map f found).
End TransactionRepository.

(** ** repositories/parkingLotRepository.js, repositories/rateCardRepository.js *)
Module ParkingLotRepository.

Definition findDefault : M (option ParkingLot.t) :=
  gets (fun s => hd_error (parkingLots s)).

(** [$inc: { [`occupied_${type}_spots`]: d, [`available_${type}_spots`]: -d }]
    with [type = vehicleType.toLowerCase()]; a path the schema does not have
    is dropped from the update. [$inc] runs no validator. *)
Definition incOccupied (vehicleType : string) (d : Z) (lot : ParkingLot.t) : ParkingLot.t :=
  let ty := toLowerCase vehicleType in
  let '(ParkingLot.mk id name floors total am ac ab om oc ob) := lot in
  if (ty =? "motorcycle")%string then
    ParkingLot.mk id name floors total (am - d) ac ab (om + d) oc ob
  else if (ty =? "car")%string then
    ParkingLot.mk id name floors total am (ac - d) ab om (oc + d) ob
  else if (ty =? "bus")%string then
    ParkingLot.mk id name floors total am ac (ab - d) om oc (ob + d)
  else lot.

Definition incrementOccupiedSpots (lotId : ObjectId) (vehicleType : string) : M unit :=
  modify (set_parkingLots
            (updateFirst (fun lot => ParkingLot._id lot =? lotId) (incOccupied vehicleType 1))).

Definition decrementOccupiedSpots (lotId : ObjectId) (vehicleType : string) : M unit :=
  modify (set_parkingLots
            (updateFirst (fun lot => ParkingLot._id lot =? lotId) (incOccupied vehicleType (-1)))).
End ParkingLotRepository.

Module RateCardRepository.
Definition findByVehicleType (vehicleType : string) : M (option RateCard.t) :=
  gets (fun s =>
    find (fun rc => (RateCard.vehicle_type rc =? vehicleType)%string) (rateCards s)).
End RateCardRepository.

(** ** services/spotAllocationService.js *)
Module SpotAllocationService.

(** [allocateSpot(vehicleType)], for a [vehicleType] outside
    [Object_prototype_keys]. (Under 'toString', 'valueOf' and
    'toLocaleString' [getEligibleSpotTypes] finds a function whose [length]
    is 0, and the guard on the length throws INVALID_VEHICLE_TYPE.) *)
Definition allocateSpot (vehicleType : string) : M (option ParkingSpot.t) :=
  eligibleTypes <- lift (SpotAllocator.getEligibleSpotTypes vehicleType) ;;
  if (List.length eligibleTypes =? 0)%nat then
    throw (AppError ("Invalid vehicle type: " ++ vehicleType) 400 "INVALID_VEHICLE_TYPE")
  else
    availableSpots <- ParkingSpotRepository.findAvailableByTypes eligibleTypes ;;
    if (List.length availableSpots =? 0)%nat then ret None
    else
      optimalSpot <- lift (SpotAllocator.selectOptimalSpot vehicleType availableSpots) ;;
      ret optimalSpot.

(** [isSpotAvailable(spotId)]: [spot && spot.status === 'AVAILABLE'], which
    is [null] ([None]) when no spot has this id. *)
Definition isSpotAvailable (spotId : ObjectId) : M (option bool) :=
  spot <- ParkingSpotRepository.findById spotId ;;
  ret (match spot with
       | None => None
       | Some spot => Some (ParkingSpot.status spot =? "AVAILABLE")%string
       end).
End SpotAllocationService.

(** ** services/feeCalculationService.js *)
Module FeeCalculationService.

Definition calculateFee (vehicleType : string) (entryTime exitTime : Z)
    (rateCard : RateCard.t) : outcome FeeCalculator.t :=
  if (vehicleType =? "")%string then
    Throw (AppError "Missing required parameters for fee calculation" 400 "BAD_REQUEST")
  else FeeCalculator.calculateParkingFee vehicleType entryTime exitTime rateCard.

Definition rate_card_not_found (vehicleType : string) : exn :=
  AppError ("Rate card not found for vehicle type " ++ vehicleType) 404 "NOT_FOUND".

(** [estimateFee(vehicleType, entryTime)]; [now] is the value of
    [new Date()]. *)
Definition estimateFee (vehicleType : string) (entryTime now : Z) : M FeeCalculator.t :=
  rateCard <- RateCardRepository.findByVehicleType vehicleType ;;
  match rateCard with
  | None => throw (rate_card_not_found vehicleType)
  | Some rateCard =>
    let currentTime := now in
    lift (calculateFee vehicleType entryTime currentTime rateCard)
  end.

(** [new Date(t)] for a number [t]: the instant, or [None] for the Invalid
    Date that [TimeClip] makes of a time value beyond 8.64e15 ms on either
    side of the epoch. *)
Definition new_Date (t : Z) : option Z :=
  if Z.abs t <=? 8640000000000000 then Some t else None.

(** What [calculateFeeForDuration] returns: a fee breakdown, or the breakdown
    of an entry that is an Invalid Date, whose durations, units and fees are
    all NaN. *)
Inductive duration_fee : Type :=
| Breakdown (feeDetails : FeeCalculator.t)
| NaN_breakdown.

(** [calculateFeeForDuration(vehicleType, durationMinutes)]: the fee of a
    stay that ends [now] and began [durationMinutes] minutes before. An
    Invalid Date is an object and a [Date], so it passes the guards on the
    parameters; its time value is NaN, for which [exitTime <= entryTime] and
    [durationMinutes <= grace_period_minutes] are both false, so that
    [calculateParkingFee] returns, with NaN for every number it computes. *)
Definition calculateFeeForDuration (vehicleType : string) (durationMinutes now : Z)
    : M duration_fee :=
  rateCard <- RateCardRepository.findByVehicleType vehicleType ;;
  match rateCard with
  | None => throw (rate_card_not_found vehicleType)
  | Some rateCard =>
    match new_Date (now - durationMinutes * 60 * 1000) with
    | Some entryTime =>
      feeDetails <- lift (calculateFee vehicleType entryTime now rateCard) ;;
      ret (Breakdown feeDetails)
    | None =>
      if (vehicleType =? "")%string then
        throw (AppError "Missing required parameters for fee calculation" 400 "BAD_REQUEST")
      else ret NaN_breakdown
    end
  end.

Definition getRateCard (vehicleType : string) : M RateCard.t :=
  rateCard <- RateCardRepository.findByVehicleType vehicleType ;;
  match rateCard with
  | None => throw (rate_card_not_found vehicleType)
  | Some rateCard => ret rateCard
  end.
End FeeCalculationService.

(** ** services/entryService.js *)
Module EntryService.

Record entryData_t : Type := mk_entryData {
  license_plate : string;
  vehicle_type : string;
  owner_name : option string;
  registration_number : option string
}.

Record spot_details_t : Type := mk_spot_details {
  floor_number : Z;
  spot_number : Z;
  spot_type : string
}.

Record t : Type := mk {
  transaction_id : ObjectId;
  vehicle_id : ObjectId;
  spot_id : ObjectId;
  spot_details : spot_details_t;
  entry_time : Z;
  message : string
}.

(** [processEntry(entryData)]; [now] is the value of [new Date()] at step 4. *)
Definition processEntry (entryData : entryData_t) (now : Z) : M t :=
  let license_plate := license_plate entryData in
  let vehicle_type := vehicle_type entryData in
  (* Step 1: check if vehicle already parked *)
  existingVehicle <- VehicleRepository.findByLicensePlate license_plate ;;
  (match existingVehicle with
   | Some v =>
     if Vehicle.is_currently_parked v then
       throw (AppError ("Vehicle " ++ license_plate ++ " is already parked in the lot")
                       409 "VEHICLE_ALREADY_PARKED")
     else ret tt
   | None => ret tt
   end) ;;;
  (* Step 2: create or update vehicle record *)
  vehicle <- match existingVehicle with
             | Some v => ret v
             | None =>
               VehicleRepository.create (toUpperCase license_plate) vehicle_type
                 (owner_name entryData) (registration_number entryData) false
             end ;;
  (* Step 3: allocate parking spot *)
  allocatedSpot <- SpotAllocationService.allocateSpot vehicle_type ;;
  match allocatedSpot with
  | None =>
    throw (AppError ("No available parking spots for vehicle type " ++ vehicle_type)
                    409 "NO_SPOT_AVAILABLE")
  | Some allocatedSpot =>
    (* Step 4: create parking transaction *)
    let entryTime := now in
    transaction <- TransactionRepository.create (Vehicle._id vehicle)
                     (ParkingSpot._id allocatedSpot) entryTime ;;
    (* Step 5: update spot status *)
    ParkingSpotRepository.updateStatus (ParkingSpot._id allocatedSpot) "OCCUPIED"
      (Some (Vehicle._id vehicle)) ;;;
    (* Step 6: update vehicle parking status *)
    VehicleRepository.updateParkingStatus (Vehicle._id vehicle) true ;;;
    (* Step 7: update parking lot available spots *)
    lot <- ParkingLotRepository.findDefault ;;
    (match lot with
     | Some lot => ParkingLotRepository.incrementOccupiedSpots (ParkingLot._id lot) vehicle_type
     | None => ret tt
     end) ;;;
    ret (mk (ParkingTransaction._id transaction) (Vehicle._id vehicle)
            (ParkingSpot._id allocatedSpot)
            (mk_spot_details (ParkingSpot.floor_number allocatedSpot)
                             (ParkingSpot.spot_number allocatedSpot)
                             (ParkingSpot.spot_type allocatedSpot))
            entryTime
            ("Vehicle successfully parked at Floor "
               ++ Z_to_string (ParkingSpot.floor_number allocatedSpot)
               ++ ", Spot " ++ Z_to_string (ParkingSpot.spot_number allocatedSpot)))
  end.

(** The result of [getActiveEntry]. *)
Module ActiveEntry.
Record t : Type := mk {
  transaction_id : ObjectId;
  vehicle_id : ObjectId;
  spot_id : ObjectId;
  entry_time : Z;
  parking_duration_minutes : Z
}.
End ActiveEntry.

(** [getActiveEntry(licensePlate)]; [now] is the value of [Date.now()].
    [transaction.spot_id] is the populated spot, [null] when the spot
    document does not exist. *)
Definition getActiveEntry (licensePlate : string) (now : Z) : M ActiveEntry.t :=
  vehicle <- VehicleRepository.findByLicensePlate licensePlate ;;
  match vehicle with
  | None =>
    throw (AppError ("Vehicle " ++ licensePlate ++ " not found") 404 "VEHICLE_NOT_FOUND")
  | Some vehicle =>
    if negb (Vehicle.is_currently_parked vehicle) then
      throw (AppError ("Vehicle " ++ licensePlate ++ " is not currently parked")
                      404 "VEHICLE_NOT_FOUND")
    else
      transaction <- TransactionRepository.findActiveByVehicleId (Vehicle._id vehicle) ;;
      match transaction with
      | None =>
        throw (AppError ("No active parking transaction found for vehicle " ++ licensePlate)
                        404 "TRANSACTION_NOT_FOUND")
      | Some (transaction, populated_spot) =>
        match populated_spot with
        | None => throw (Error "Cannot read properties of null (reading '_id')")
        | Some spot =>
          ret (ActiveEntry.mk (ParkingTransaction._id transaction) (Vehicle._id vehicle)
                 (ParkingSpot._id spot) (ParkingTransaction.entry_time transaction)
                 (Math_floor (num_div (now - ParkingTransaction.entry_time transaction)
                                      60000)))
        end
      end
  end.
End EntryService.

(** ** services/exitService.js *)
Module ExitService.

Record t : Type := mk {
  transaction_id : ObjectId;
  vehicle_id : ObjectId;
  spot_id : ObjectId;
  entry_time : Z;
  exit_time : Z;
  duration_minutes : Z;
  duration_formatted : string;
  parking_fee : Q;
  currency : string;
  payment_status : string;
  message : string
}.

(** Reading a property of [null]. *)
Definition TypeError_null (property : string) : exn :=
  Error ("Cannot read properties of null (reading '" ++ property ++ "')").

(** [processExit(exitData)] with [exitData = { license_plate }]; [now] is the
    value of [new Date()] at step 4. *)
Definition processExit (license_plate : string) (now : Z) : M t :=
  (* Step 1: find vehicle *)
  vehicle <- VehicleRepository.findByLicensePlate license_plate ;;
  match vehicle with
  | None =>
    throw (AppError ("Vehicle " ++ license_plate ++ " not found") 404 "VEHICLE_NOT_FOUND")
  | Some vehicle =>
    (* Step 2: check if vehicle is parked *)
    if negb (Vehicle.is_currently_parked vehicle) then
      throw (AppError ("Vehicle " ++ license_plate ++ " is not currently parked")
                      409 "ALREADY_EXITED")
    else
      (* Step 3: find active transaction *)
      transaction <- TransactionRepository.findActiveByVehicleId (Vehicle._id vehicle) ;;
      match transaction with
      | None =>
        throw (AppError ("No active parking transaction found for vehicle " ++ license_plate)
                        404 "TRANSACTION_NOT_FOUND")
      | Some (transaction, populated_spot) =>
        (* Step 4: calculate parking fee *)
        let exitTime := now in
        rateCard <- RateCardRepository.findByVehicleType (Vehicle.vehicle_type vehicle) ;;
        match rateCard with
        | None =>
          throw (AppError ("Rate card not found for vehicle type "
                             ++ Vehicle.vehicle_type vehicle) 500 "DATABASE_ERROR")
        | Some rateCard =>
          feeDetails <- lift (FeeCalculationService.calculateFee
                                (Vehicle.vehicle_type vehicle)
                                (ParkingTransaction.entry_time transaction)
                                exitTime rateCard) ;;
          (* Step 5: update transaction with exit details *)
          updatedTransaction <-
            TransactionRepository.updateExit (ParkingTransaction._id transaction)
              exitTime (FeeCalculator.duration_minutes feeDetails)
              (FeeCalculator.parking_fee feeDetails) "PENDING" ;;
          (* Step 6: release parking spot *)
          match populated_spot with
          | None => throw (TypeError_null "_id")
          | Some spot =>
            ParkingSpotRepository.updateStatus (ParkingSpot._id spot) "AVAILABLE" None ;;;
            (* Step 7: update vehicle parking status *)
            VehicleRepository.updateParkingStatus (Vehicle._id vehicle) false ;;;
            (* Step 8: update parking lot available spots *)
            lot <- ParkingLotRepository.findDefault ;;
            (match lot with
             | Some lot =>
               ParkingLotRepository.decrementOccupiedSpots (ParkingLot._id lot)
                 (Vehicle.vehicle_type vehicle)
             | None => ret tt
             end) ;;;
            match updatedTransaction with
            | None => throw (TypeError_null "_id")
            | Some updatedTransaction =>
              ret (mk (ParkingTransaction._id updatedTransaction) (Vehicle._id vehicle)
                      (ParkingSpot._id spot)
                      (ParkingTransaction.entry_time transaction) exitTime
                      (FeeCalculator.duration_minutes feeDetails)
                      (FeeCalculator.duration_formatted feeDetails)
                      (FeeCalculator.parking_fee feeDetails)
                      "USD" "PENDING" "Thank you for using our parking lot")
            end
          end
        end
      end
  end.

(** The result of [getExitEstimate]. *)
Module Estimate.
Record t : Type := mk {
  transaction_id : ObjectId;
  vehicle_id : ObjectId;
  entry_time : Z;
  current_time : Z;
  duration_minutes : Z;
  duration_formatted : string;
  estimated_fee : Q;
  currency : string
}.
End Estimate.

(** [getExitEstimate(licensePlate)]; [now] is the value of [new Date()]. *)
Definition getExitEstimate (licensePlate : string) (now : Z) : M Estimate.t :=
  vehicle <- VehicleRepository.findByLicensePlate licensePlate ;;
  match vehicle with
  | None =>
    throw (AppError ("Vehicle " ++ licensePlate ++ " not found") 404 "VEHICLE_NOT_FOUND")
  | Some vehicle =>
    if negb (Vehicle.is_currently_parked vehicle) then
      throw (AppError ("Vehicle " ++ licensePlate ++ " is not currently parked")
                      404 "VEHICLE_NOT_FOUND")
    else
      transaction <- TransactionRepository.findActiveByVehicleId (Vehicle._id vehicle) ;;
      match transaction with
      | None =>
        throw (AppError ("No active parking transaction for " ++ licensePlate)
                        404 "TRANSACTION_NOT_FOUND")
      | Some (transaction, _) =>
        rateCard <- RateCardRepository.findByVehicleType (Vehicle.vehicle_type vehicle) ;;
        match rateCard with
        | None =>
          throw (AppError ("Rate card not found for vehicle type "
                             ++ Vehicle.vehicle_type vehicle) 500 "DATABASE_ERROR")
        | Some rateCard =>
          let currentTime := now in
          feeDetails <- lift (FeeCalculationService.calculateFee
                                (Vehicle.vehicle_type vehicle)
                                (ParkingTransaction.entry_time transaction)
                                currentTime rateCard) ;;
          ret (Estimate.mk (ParkingTransaction._id transaction) (Vehicle._id vehicle)
                 (ParkingTransaction.entry_time transaction) currentTime
                 (FeeCalculator.duration_minutes feeDetails)
                 (FeeCalculator.duration_formatted feeDetails)
                 (FeeCalculator.parking_fee feeDetails) "USD")
        end
      end
  end.
End ExitService.

(** ** The request layer: a history of entry and exit requests *)

Inductive request : Type :=
| Entry (entryData : EntryService.entryData_t) (now : Z)
| Exit (license_plate : string) (now : Z).

(** The database after one request, whether it succeeds or throws. *)
Definition handle (r : request) (s : Store) : Store :=
  match r with
  | Entry entryData now => snd (EntryService.processEntry entryData now s)
  | Exit license_plate now => snd (ExitService.processExit license_plate now s)
  end.

Definition run (history : list request) (s : Store) : Store :=
  fold_left (fun s r => handle r s) history s.

(** The database before the lot opens: the spots, rate cards and lot records
    are provisioned, no vehicle and no transaction is recorded yet. *)
Definition provisioned (s : Store) : Prop :=
  vehicles s = [] /\ parkingTransactions s = [].

(** The databases the entry and exit services can produce. *)
Definition reachable (s : Store) : Prop :=
  exists s0 history, provisioned s0 /\ s = run history s0.

(** ** Vocabulary of the statements *)

(** The order of the allocation policy: ascending floor, then ascending
    size priority of the spot type, then ascending spot number. *)
Definition precedes (a b : ParkingSpot.t) : Prop :=
  ParkingSpot.floor_number a < ParkingSpot.floor_number b
  \/ (ParkingSpot.floor_number a = ParkingSpot.floor_number b
      /\ (SpotAllocator.getSpotTypePriority (ParkingSpot.spot_type a)
            < SpotAllocator.getSpotTypePriority (ParkingSpot.spot_type b)
          \/ (SpotAllocator.getSpotTypePriority (ParkingSpot.spot_type a)
                = SpotAllocator.getSpotTypePriority (ParkingSpot.spot_type b)
              /\ ParkingSpot.spot_number a <= ParkingSpot.spot_number b))).

(** A spot the policy may hand out: AVAILABLE and of an eligible type. *)
Definition candidate (eligibleTypes : list string) (spot : ParkingSpot.t) : Prop :=
  ParkingSpot.status spot = "AVAILABLE" /\ In (ParkingSpot.spot_type spot) eligibleTypes.

(** [fee] is [amount] rounded to two decimal places: a whole number of
    hundredths, at most half a hundredth away from [amount]. *)
Definition rounded_to_cents (amount fee : Q) : Prop :=
  (exists n : Z, fee == n # 100)%Q /\ (Qabs (fee - amount) <= 1 # 200)%Q.

(** The rate card satisfies the bounds of its schema that billing relies
    on: no negative hourly rate and no negative daily cap. *)
Definition nonnegative_rates (rateCard : RateCard.t) : Prop :=
  (0 <= RateCard.hourly_rate rateCard)%Q
  /\ forall cap, RateCard.daily_max_rate rateCard = Some cap -> (0 <= cap)%Q.

(** The rate card of the worked example: CAR, 8.00 an hour, 50.00 a day at
    most, 15 minutes of grace, rounding up; and the same card with another
    rounding strategy. *)
Definition car_rate_card_rounding (rounding_strategy : string) : RateCard.t :=
  RateCard.mk "CAR" 8 (Some 50%Q) (Some rounding_strategy) (Some 15).

Definition car_rate_card : RateCard.t := car_rate_card_rounding "CEILING".

(** The vehicle holds an OPEN transaction: one whose [exit_time] is [null]. *)
Definition holds_open_transaction (s : Store) (vehicle : Vehicle.t) : Prop :=
  exists tr, In tr (parkingTransactions s)
             /\ ParkingTransaction.vehicle_id tr = Vehicle._id vehicle
             /\ ParkingTransaction.exit_time tr = None.

(** The invariant of the vehicle and transaction collections: ids and
    license plates identify the documents, ids come from the generator, a
    vehicle with an open transaction is flagged as parked, and a vehicle has
    at most one open transaction. *)
Definition ledger_ok (vs : list Vehicle.t) (ts : list ParkingTransaction.t)
    (next : ObjectId) : Prop :=
  NoDup (map Vehicle._id vs)
  /\ NoDup (map Vehicle.license_plate vs)
  /\ (forall v, In v vs -> Vehicle._id v < next)
  /\ NoDup (map ParkingTransaction._id ts)
  /\ (forall tr, In tr ts ->
        ParkingTransaction._id tr < next /\ ParkingTransaction.vehicle_id tr < next)
  /\ (forall tr v, In tr ts -> In v vs ->
        ParkingTransaction.is_open tr = true ->
        ParkingTransaction.vehicle_id tr = Vehicle._id v ->
        Vehicle.is_currently_parked v = true)
  /\ (forall tr1 tr2, In tr1 ts -> In tr2 ts ->
        ParkingTransaction.is_open tr1 = true -> ParkingTransaction.is_open tr2 = true ->
        ParkingTransaction.vehicle_id tr1 = ParkingTransaction.vehicle_id tr2 ->
        tr1 = tr2).

Definition consistent (s : Store) : Prop :=
  ledger_ok (vehicles s) (parkingTransactions s) (nextObjectId s).

(** A small lot for the worked examples: one CAR spot, one BUS spot under
    maintenance, the CAR rate card. 10:00 on 22 January 2026 is
    1769076000000 ms. *)
Definition demo_store : Store :=
  mkStore []
    [ParkingSpot.mk 1 1 1 "CAR" "AVAILABLE" None;
     ParkingSpot.mk 2 1 2 "BUS" "MAINTENANCE" None]
    []
    [car_rate_card]
    [ParkingLot.mk 10 "Main" 1 2 0 1 1 0 0 0]
    100.

Definition demo_entry : EntryService.entryData_t :=
  EntryService.mk_entryData "KA01AB1234" "CAR" None None.

Definition demo_parked : Store :=
  run [Entry demo_entry 1769076000000] demo_store.

Definition demo_exited : Store :=
  run [Entry demo_entry 1769076000000; Exit "KA01AB1234" 1769085300000] demo_store.

(** Spots for the allocation example. *)
Definition demo_spots : list ParkingSpot.t :=
  [ParkingSpot.mk 1 2 1 "CAR" "AVAILABLE" None;
   ParkingSpot.mk 2 1 5 "BUS" "AVAILABLE" None;
   ParkingSpot.mk 3 1 7 "CAR" "AVAILABLE" None;
   ParkingSpot.mk 4 1 1 "MOTORCYCLE" "AVAILABLE" None;
   ParkingSpot.mk 5 1 2 "CAR" "OCCUPIED" (Some 9)].

(** ** Vocabulary of the statements about the statistics *)

(** The number of the spots of a type in a list. *)
Definition count_type (spot_type : string) (spots : list ParkingSpot.t) : Z :=
  Z.of_nat (List.length
              (filter (fun spot => (ParkingSpot.spot_type spot =? spot_type)%string) spots)).

(** [stats[spot_type]] for an own key of the statistics object. *)
Definition stats_of (stats : AllocationStats.t) (spot_type : string)
    : option AllocationStats.type_stats :=
  if (spot_type =? "MOTORCYCLE")%string then Some (AllocationStats.MOTORCYCLE stats)
  else if (spot_type =? "CAR")%string then Some (AllocationStats.CAR stats)
  else if (spot_type =? "BUS")%string then Some (AllocationStats.BUS stats)
  else None.

(** The recommendation [getAllocationRecommendations] pushes for an entry. *)
Definition recommendation_of (entry : string * AllocationStats.type_stats)
    : AllocationStats.recommendation :=
  AllocationStats.mk_recommendation (fst entry) (AllocationStats.available (snd entry))
    (AllocationStats.occupancy_rate (snd entry)).

(** ** The paths of the entry and exit services *)

(** The vehicle document [processEntry] creates at step 2. *)
Definition entry_vehicle (entryData : EntryService.entryData_t) (s : Store) : Vehicle.t :=
  Vehicle.mk (nextObjectId s) (toUpperCase (EntryService.license_plate entryData))
    (EntryService.vehicle_type entryData) (EntryService.owner_name entryData)
    (EntryService.registration_number entryData) false.

(** The database after step 2 has recorded a new vehicle. *)
Definition vehicle_recorded (entryData : EntryService.entryData_t) (s : Store) : Store :=
  mkStore (vehicles s ++ [entry_vehicle entryData s])%list (parkingSpots s)
          (parkingTransactions s) (rateCards s) (parkingLots s) (nextObjectId s + 1).

(** The database after steps 4 to 7 of [processEntry]. *)
Definition entry_committed (s : Store) (vehicleId : ObjectId) (spot : ParkingSpot.t)
    (now : Z) (vehicle_type : string) : Store :=
  mkStore
    (updateFirst (fun v => Vehicle._id v =? vehicleId) (VehicleRepository.setParked true)
                 (vehicles s))
    (updateFirst (fun sp => ParkingSpot._id sp =? ParkingSpot._id spot)
                 (ParkingSpotRepository.applyUpdate "OCCUPIED" (Some vehicleId))
                 (parkingSpots s))
    (parkingTransactions s
       ++ [ParkingTransaction.mk (nextObjectId s) vehicleId (ParkingSpot._id spot) now
             None None None "PENDING" None])%list
    (rateCards s)
    (match hd_error (parkingLots s) with
     | Some lot =>
       updateFirst (fun l => ParkingLot._id l =? ParkingLot._id lot)
                   (ParkingLotRepository.incOccupied vehicle_type 1) (parkingLots s)
     | None => parkingLots s
     end)
    (nextObjectId s + 1).

Definition entry_result (s : Store) (vehicleId : ObjectId) (spot : ParkingSpot.t) (now : Z)
    : EntryService.t :=
  EntryService.mk (nextObjectId s) vehicleId (ParkingSpot._id spot)
    (EntryService.mk_spot_details (ParkingSpot.floor_number spot)
       (ParkingSpot.spot_number spot) (ParkingSpot.spot_type spot))
    now
    ("Vehicle successfully parked at Floor "
       ++ Z_to_string (ParkingSpot.floor_number spot)
       ++ ", Spot " ++ Z_to_string (ParkingSpot.spot_number spot)).

(** What [processEntry] does from step 3 on, for the vehicle [vehicle] and
    the database [s1] step 2 leaves. *)
Definition entry_from_step3 (entryData : EntryService.entryData_t) (now : Z)
    (s s1 : Store) (vehicle : Vehicle.t) : Prop :=
  let vehicle_type := EntryService.vehicle_type entryData in
  match fst (SpotAllocationService.allocateSpot vehicle_type s1) with
  | Throw e => EntryService.processEntry entryData now s = (Throw e, s1)
  | Return None =>
    EntryService.processEntry entryData now s
    = (Throw (AppError ("No available parking spots for vehicle type " ++ vehicle_type)
                       409 "NO_SPOT_AVAILABLE"), s1)
  | Return (Some spot) =>
    EntryService.processEntry entryData now s
    = (Return (entry_result s1 (Vehicle._id vehicle) spot now),
       entry_committed s1 (Vehicle._id vehicle) spot now vehicle_type)
  end.

(** The database after steps 5 to 8 of [processExit]. *)
Definition exit_committed (s : Store) (vehicle : Vehicle.t) (tr : ParkingTransaction.t)
    (spot : ParkingSpot.t) (feeDetails : FeeCalculator.t) (now : Z) : Store :=
  mkStore
    (updateFirst (fun v => Vehicle._id v =? Vehicle._id vehicle)
                 (VehicleRepository.setParked false) (vehicles s))
    (updateFirst (fun sp => ParkingSpot._id sp =? ParkingSpot._id spot)
                 (ParkingSpotRepository.applyUpdate "AVAILABLE" None) (parkingSpots s))
    (updateFirst (fun t => ParkingTransaction._id t =? ParkingTransaction._id tr)
                 (TransactionRepository.applyExit now
                    (FeeCalculator.duration_minutes feeDetails)
                    (FeeCalculator.parking_fee feeDetails) "PENDING")
                 (parkingTransactions s))
    (rateCards s)
    (match hd_error (parkingLots s) with
     | Some lot =>
       updateFirst (fun l => ParkingLot._id l =? ParkingLot._id lot)
                   (ParkingLotRepository.incOccupied (Vehicle.vehicle_type vehicle) (-1))
                   (parkingLots s)
     | None => parkingLots s
     end)
    (nextObjectId s).

Definition exit_result (vehicle : Vehicle.t) (tr updated : ParkingTransaction.t)
    (spot : ParkingSpot.t) (feeDetails : FeeCalculator.t) (now : Z) : ExitService.t :=
  ExitService.mk (ParkingTransaction._id updated) (Vehicle._id vehicle)
    (ParkingSpot._id spot) (ParkingTransaction.entry_time tr) now
    (FeeCalculator.duration_minutes feeDetails)
    (FeeCalculator.duration_formatted feeDetails)
    (FeeCalculator.parking_fee feeDetails)
    "USD" "PENDING" "Thank you for using our parking lot".

(** What [processExit] does from step 5 on. *)
Definition exit_from_step5 (license_plate : string) (now : Z) (s : Store)
    (vehicle : Vehicle.t) (tr : ParkingTransaction.t) (feeDetails : FeeCalculator.t) : Prop :=
  if FeeCalculator.duration_minutes feeDetails <? 0 then
    ExitService.processExit license_plate now s
    = (Throw (MongooseValidationError "duration_minutes"), s)
  else if negb (Qle_bool 0 (FeeCalculator.parking_fee feeDetails)) then
    ExitService.processExit license_plate now s
    = (Throw (MongooseValidationError "parking_fee"), s)
  else
    match find (fun sp => ParkingSpot._id sp =? ParkingTransaction.spot_id tr)
               (parkingSpots s) with
    | None =>
      ExitService.processExit license_plate now s
      = (Throw (ExitService.TypeError_null "_id"),
         set_parkingTransactions
           (updateFirst (fun t => ParkingTransaction._id t =? ParkingTransaction._id tr)
                        (TransactionRepository.applyExit now
                           (FeeCalculator.duration_minutes feeDetails)
                           (FeeCalculator.parking_fee feeDetails) "PENDING")) s)
    | Some spot =>
      match find (fun t => ParkingTransaction._id t =? ParkingTransaction._id tr)
                 (parkingTransactions s) with
      | None =>
        ExitService.processExit license_plate now s
        = (Throw (ExitService.TypeError_null "_id"),
           exit_committed s vehicle tr spot feeDetails now)
      | Some found =>
        ExitService.processExit license_plate now s
        = (Return (exit_result vehicle tr found spot feeDetails now),
           exit_committed s vehicle tr spot feeDetails now)
      end
    end.
(** ** The occupancy invariant *)

(** The fields a transaction carries: an open one has neither duration nor
    fee; a closed one has an exit after its entry, the floored duration of
    that interval and a fee that is not negative. Entry and exit leave the
    payment PENDING. *)
Definition well_formed_transaction (tr : ParkingTransaction.t) : Prop :=
  ParkingTransaction.payment_status tr = "PENDING"
  /\ match ParkingTransaction.exit_time tr with
     | Some exit_time =>
       ParkingTransaction.entry_time tr < exit_time
       /\ ParkingTransaction.duration_minutes tr
          = Some ((exit_time - ParkingTransaction.entry_time tr) / 60000)
       /\ exists fee, ParkingTransaction.parking_fee tr = Some fee /\ (0 <= fee)%Q
     | None =>
       ParkingTransaction.duration_minutes tr = None
       /\ ParkingTransaction.parking_fee tr = None
     end.

(** The invariant that ties spots, vehicles and transactions together. *)
Definition occupancy_ok (vs : list Vehicle.t) (sp : list ParkingSpot.t)
    (ts : list ParkingTransaction.t) : Prop :=
  NoDup (map ParkingSpot._id sp)
  /\ (forall tr, In tr ts -> ParkingTransaction.is_open tr = true ->
        exists spot, In spot sp
                     /\ ParkingSpot._id spot = ParkingTransaction.spot_id tr
                     /\ ParkingSpot.status spot = "OCCUPIED"
                     /\ ParkingSpot.current_vehicle_id spot
                        = Some (ParkingTransaction.vehicle_id tr))
  /\ (forall tr1 tr2, In tr1 ts -> In tr2 ts ->
        ParkingTransaction.is_open tr1 = true -> ParkingTransaction.is_open tr2 = true ->
        ParkingTransaction.spot_id tr1 = ParkingTransaction.spot_id tr2 -> tr1 = tr2)
  /\ (forall v, In v vs -> Vehicle.is_currently_parked v = true ->
        exists tr, In tr ts /\ ParkingTransaction.is_open tr = true
                   /\ ParkingTransaction.vehicle_id tr = Vehicle._id v)
  /\ (forall tr, In tr ts -> exists v, In v vs /\ Vehicle._id v = ParkingTransaction.vehicle_id tr)
  /\ (forall tr, In tr ts -> well_formed_transaction tr).

Definition lot_ok (s : Store) : Prop :=
  consistent s /\ occupancy_ok (vehicles s) (parkingSpots s) (parkingTransactions s).

(** A provisioned lot whose spots have distinct ids, and the databases the
    entry and exit services produce from one. *)
Definition provisioned_lot (s : Store) : Prop :=
  provisioned s /\ NoDup (map ParkingSpot._id (parkingSpots s)).

Definition in_service (s : Store) : Prop :=
  exists s0 history, provisioned_lot s0 /\ s = run history s0.

(** ** The counters of the lot record *)

(** What a lot record accounts for, per vehicle type: the available and the
    occupied spots together. *)
Definition lot_capacity (lot : ParkingLot.t) : Z * Z * Z :=
  (ParkingLot.available_motorcycle_spots lot + ParkingLot.occupied_motorcycle_spots lot,
   ParkingLot.available_car_spots lot + ParkingLot.occupied_car_spots lot,
   ParkingLot.available_bus_spots lot + ParkingLot.occupied_bus_spots lot).

(** ** Proof automation: running the database monad symbolically *)

Ltac run_db :=
  cbn [bind ret throw gets modify lift newObjectId fst snd
    set_vehicles set_parkingSpots set_parkingTransactions set_parkingLots
    vehicles parkingSpots parkingTransactions rateCards parkingLots nextObjectId].

(** Steps 4 to 7 of [processEntry], down to the two collections of the
    ledger. *)
Ltac entry_commit :=
  unfold TransactionRepository.create, ParkingSpotRepository.updateStatus,
    VehicleRepository.updateParkingStatus, ParkingLotRepository.findDefault,
    ParkingLotRepository.incrementOccupiedSpots;
  change (includes ParkingSpot.statusEnum "OCCUPIED") with true; cbn [negb];
  unfold consistent; run_db;
  match goal with |- context [hd_error ?l] => destruct (hd_error l) end; run_db.

Ltac exit_exec :=
  unfold ExitService.processExit, VehicleRepository.findByLicensePlate,
    TransactionRepository.findActiveByVehicleId, RateCardRepository.findByVehicleType,
    TransactionRepository.updateExit, ParkingSpotRepository.updateStatus,
    VehicleRepository.updateParkingStatus, ParkingLotRepository.findDefault,
    ParkingLotRepository.decrementOccupiedSpots;
  change (includes TransactionRepository.paymentStatusEnum "PENDING") with true;
  change (includes ParkingSpot.statusEnum "AVAILABLE") with true;
  unfold bind, gets, lift, throw, ret, modify;
  repeat (cbn [negb option_map fst snd set_vehicles set_parkingSpots
               set_parkingTransactions set_parkingLots vehicles parkingSpots
               parkingTransactions rateCards parkingLots nextObjectId];
          match goal with
          | H : ?x = _ |- context [?x] => rewrite H
          end);
  cbn [option_map];
  try reflexivity.

Ltac query_exec :=
  unfold VehicleRepository.findByLicensePlate,
    TransactionRepository.findActiveByVehicleId, RateCardRepository.findByVehicleType,
    ParkingSpotRepository.findById;
  unfold bind, gets, lift, throw, ret;
  repeat (cbn [negb fst snd];
          match goal with
          | H : ?x = _ |- context [?x] => rewrite H
          end);
  cbn [negb fst snd];
  try reflexivity.

(** * Theorems *)

(** ** Array.prototype.sort: the first element of the sorted array *)
Section ArraySortHead.
Variable A : Type.
Variable comparefn : A -> A -> Z.
Hypothesis comparefn_total : forall a b, 0 < comparefn a b -> comparefn b a <= 0.
Hypothesis comparefn_refl : forall a, comparefn a a <= 0.
Hypothesis comparefn_trans :
  forall a b c, comparefn a b <= 0 -> comparefn b c <= 0 -> comparefn a c <= 0.

Lemma sort_insert_head (x : A) (l : list A) :
  hd_error (sort_insert comparefn x l) =
  match l with
  | [] => Some x
  | y :: _ => if comparefn x y <=? 0 then Some x else Some y
  end.
Proof.
  destruct l as [|y t]; simpl; [reflexivity|].
  destruct (comparefn x y <=? 0); reflexivity.
Qed.

Lemma Array_sort_head (x : A) (l : list A) :
  exists m, hd_error (Array_sort comparefn (x :: l)) = Some m
            /\ In m (x :: l)
            /\ forall y, In y (x :: l) -> comparefn m y <= 0.
Proof.
  revert x. induction l as [|z l IH]; intros x.
  - exists x. simpl. repeat split; auto.
    intros y [<-|[]]. apply comparefn_refl.
  - destruct (IH z) as (m & Hm & Hin & Hle).
    change (Array_sort comparefn (x :: z :: l))
      with (sort_insert comparefn x (Array_sort comparefn (z :: l))).
    rewrite sort_insert_head.
    destruct (Array_sort comparefn (z :: l)) as [|m' t] eqn:E; [discriminate|].
    simpl in Hm. injection Hm as ->.
    destruct (comparefn x m <=? 0) eqn:C.
    + apply Z.leb_le in C. exists x. repeat split; [left; reflexivity|].
      intros y [<-|Hy]; [apply comparefn_refl|].
      eapply comparefn_trans; [exact C|]. apply Hle, Hy.
    + apply Z.leb_gt in C. exists m. repeat split; [right; exact Hin|].
      intros y [<-|Hy]; [apply comparefn_total, C|]. apply Hle, Hy.
Qed.
End ArraySortHead.

(** ** utils/spotAllocator.js *)

Lemma compareSpots_precedes (a b : ParkingSpot.t) :
  SpotAllocator.compareSpots a b <= 0 <-> precedes a b.
Proof.
  unfold SpotAllocator.compareSpots, precedes.
  destruct (ParkingSpot.floor_number a =? ParkingSpot.floor_number b) eqn:F; simpl.
  - apply Z.eqb_eq in F.
    destruct (SpotAllocator.getSpotTypePriority (ParkingSpot.spot_type a)
              =? SpotAllocator.getSpotTypePriority (ParkingSpot.spot_type b)) eqn:P; simpl.
    + apply Z.eqb_eq in P. lia.
    + apply Z.eqb_neq in P. lia.
  - apply Z.eqb_neq in F. lia.
Qed.

Lemma precedes_total (a b : ParkingSpot.t) : precedes a b \/ precedes b a.
Proof. unfold precedes. lia. Qed.

Lemma precedes_trans (a b c : ParkingSpot.t) :
  precedes a b -> precedes b c -> precedes a c.
Proof. unfold precedes. lia. Qed.

Lemma includes_In (arr : list string) (x : string) :
  includes arr x = true <-> In x arr.
Proof.
  unfold includes. rewrite existsb_exists. split.
  - intros (y & Hy & E). apply String.eqb_eq in E. subst. exact Hy.
  - intros H. exists x. split; [exact H|apply String.eqb_refl].
Qed.

Lemma matches_candidate (eligibleTypes : list string) (spot : ParkingSpot.t) :
  SpotAllocator.matches eligibleTypes spot = true <-> candidate eligibleTypes spot.
Proof.
  unfold SpotAllocator.matches, candidate.
  rewrite andb_true_iff, includes_In, String.eqb_eq. tauto.
Qed.

Lemma sortSpotsByPriority_head (x : ParkingSpot.t) (l : list ParkingSpot.t) :
  exists m, nth_error (SpotAllocator.sortSpotsByPriority (x :: l)) 0 = Some m
            /\ In m (x :: l)
            /\ forall y, In y (x :: l) -> precedes m y.
Proof.
  destruct (@Array_sort_head _ SpotAllocator.compareSpots) with (x := x) (l := l)
    as (m & Hm & Hin & Hle).
  - intros a b H. apply compareSpots_precedes.
    destruct (precedes_total a b) as [Hab|Hba]; [|exact Hba].
    apply compareSpots_precedes in Hab. lia.
  - intros a. apply compareSpots_precedes. destruct (precedes_total a a); assumption.
  - intros a b c Hab Hbc. apply compareSpots_precedes.
    apply compareSpots_precedes in Hab, Hbc. eapply precedes_trans; eassumption.
  - exists m. unfold SpotAllocator.sortSpotsByPriority.
    destruct (Array_sort SpotAllocator.compareSpots (x :: l)); [discriminate|].
    repeat split; [exact Hm|exact Hin|].
    intros y Hy. apply compareSpots_precedes, Hle, Hy.
Qed.

(** The result of [selectOptimalSpot] for a vehicle type that is given and
    has eligible spot types. *)
Lemma selectOptimalSpot_least (vehicleType : string) (eligibleTypes : list string)
    (spots : list ParkingSpot.t) :
  vehicleType <> "" ->
  SpotAllocator.getEligibleSpotTypes vehicleType = Return eligibleTypes ->
  exists result,
    SpotAllocator.selectOptimalSpot vehicleType spots = Return result
    /\ (result = None <-> forall spot, In spot spots -> ~ candidate eligibleTypes spot)
    /\ forall best, result = Some best ->
         In best spots
         /\ candidate eligibleTypes best
         /\ forall spot, In spot spots -> candidate eligibleTypes spot ->
              precedes best spot.
Proof.
  intros Hne HE. apply String.eqb_neq in Hne.
  unfold SpotAllocator.selectOptimalSpot. rewrite Hne, HE.
  destruct spots as [|s0 spots'].
  { exists None. split; [reflexivity|]. split.
    - split; [intros _ spot []|reflexivity].
    - discriminate. }
  set (spots := s0 :: spots').
  assert (Hfilter : forall spot,
             In spot (filter (SpotAllocator.matches eligibleTypes) spots)
             <-> In spot spots /\ candidate eligibleTypes spot).
  { intros spot. rewrite filter_In, matches_candidate. tauto. }
  destruct (filter (SpotAllocator.matches eligibleTypes) spots) as [|x l] eqn:EF.
  - exists None. split; [reflexivity|]. split.
    + split; [|reflexivity].
      intros _ spot Hin Hc. apply (Hfilter spot). split; assumption.
    + discriminate.
  - destruct (sortSpotsByPriority_head x l) as (m & Hm & Hin & Hle).
    apply Hfilter in Hin.
    exists (Some m). cbv zeta. rewrite Hm. split; [reflexivity|]. split.
    + split; [discriminate|].
      intros Hnone. exfalso. exact (Hnone m (proj1 Hin) (proj2 Hin)).
    + intros best [= <-]. split; [tauto|]. split; [tauto|].
      intros spot Hs Hc. apply Hle, Hfilter. split; assumption.
Qed.

Lemma getEligibleSpotTypes_valid (vehicleType : string) :
  In vehicleType ["MOTORCYCLE"; "CAR"; "BUS"] ->
  vehicleType <> ""
  /\ exists eligibleTypes,
       SpotAllocator.getEligibleSpotTypes vehicleType = Return eligibleTypes
       /\ (vehicleType = "MOTORCYCLE" -> eligibleTypes = ["MOTORCYCLE"; "CAR"; "BUS"])
       /\ (vehicleType = "CAR" -> eligibleTypes = ["CAR"; "BUS"])
       /\ (vehicleType = "BUS" -> eligibleTypes = ["BUS"]).
Proof.
  simpl. intros [<-|[<-|[<-|[]]]]; (split; [discriminate|]);
    eexists; (split; [reflexivity|]); repeat split; intros; try reflexivity; discriminate.
Qed.

(** C1. For a vehicle type among MOTORCYCLE, CAR and BUS and any list of
    spots, [selectOptimalSpot] does not throw; the eligible spot types are
    those of the hierarchy and the size priorities are 1, 2 and 3; the result
    is [null] exactly when no spot is AVAILABLE and of an eligible type;
    otherwise the result is such a spot of the list and it precedes every
    such spot of the list in the order floor number, size priority, spot
    number, so it is never a spot of a type outside the eligible set. The
    result is a function of the two arguments, so equal inputs give the same
    spot ([selectOptimalSpot_order_independent] below: even the order of the
    list does not matter). *)
Theorem selectOptimalSpot_best_fit (vehicleType : string) (spots : list ParkingSpot.t) :
  In vehicleType ["MOTORCYCLE"; "CAR"; "BUS"] ->
  SpotAllocator.getSpotTypePriority "MOTORCYCLE" = 1
  /\ SpotAllocator.getSpotTypePriority "CAR" = 2
  /\ SpotAllocator.getSpotTypePriority "BUS" = 3
  /\ exists eligibleTypes result,
      SpotAllocator.getEligibleSpotTypes vehicleType = Return eligibleTypes
      /\ (vehicleType = "MOTORCYCLE" -> eligibleTypes = ["MOTORCYCLE"; "CAR"; "BUS"])
      /\ (vehicleType = "CAR" -> eligibleTypes = ["CAR"; "BUS"])
      /\ (vehicleType = "BUS" -> eligibleTypes = ["BUS"])
      /\ SpotAllocator.selectOptimalSpot vehicleType spots = Return result
      /\ (result = None <-> forall spot, In spot spots -> ~ candidate eligibleTypes spot)
      /\ forall best, result = Some best ->
           In best spots
           /\ candidate eligibleTypes best
           /\ forall spot, In spot spots -> candidate eligibleTypes spot ->
                precedes best spot.
Proof.
  intros Hvt.
  repeat (split; [reflexivity|]).
  destruct (getEligibleSpotTypes_valid Hvt)
    as (Hne & eligibleTypes & HE & H1 & H2 & H3).
  destruct (selectOptimalSpot_least spots Hne HE) as (result & Hsel & Hnone & Hbest).
  exists eligibleTypes, result. repeat (split; [assumption|]). exact Hbest.
Qed.

Lemma selectOptimalSpot_best_fit_witness :
  In "CAR" ["MOTORCYCLE"; "CAR"; "BUS"]
  /\ exists best,
       SpotAllocator.selectOptimalSpot "CAR" demo_spots = Return (Some best)
       /\ best = ParkingSpot.mk 3 1 7 "CAR" "AVAILABLE" None
       /\ forall spot, In spot demo_spots -> candidate ["CAR"; "BUS"] spot ->
                       precedes best spot.
Proof.
  assert (H : In "CAR" ["MOTORCYCLE"; "CAR"; "BUS"]) by (simpl; tauto).
  split; [exact H|].
  destruct (@selectOptimalSpot_best_fit "CAR" demo_spots H)
    as (_ & _ & _ & eligibleTypes & result & _ & _ & HE & _ & Hsel & _ & Hbest).
  rewrite (HE eq_refl) in Hbest.
  exists (ParkingSpot.mk 3 1 7 "CAR" "AVAILABLE" None).
  split; [reflexivity|]. split; [reflexivity|].
  apply Hbest. vm_compute in Hsel. injection Hsel as <-. reflexivity.
Defined.

Lemma precedes_antisym (a b : ParkingSpot.t) :
  precedes a b -> precedes b a ->
  ParkingSpot.floor_number a = ParkingSpot.floor_number b
  /\ ParkingSpot.spot_number a = ParkingSpot.spot_number b.
Proof. unfold precedes. lia. Qed.

(** The selection depends on the set of spots only, not on the order in which
    the database returns them, as long as floor and spot number identify a
    spot (the unique index of the schema). *)
Lemma selectOptimalSpot_order_independent (vehicleType : string)
    (spots spots' : list ParkingSpot.t) :
  In vehicleType ["MOTORCYCLE"; "CAR"; "BUS"] ->
  (forall spot, In spot spots <-> In spot spots') ->
  (forall a b, In a spots -> In b spots ->
               ParkingSpot.floor_number a = ParkingSpot.floor_number b ->
               ParkingSpot.spot_number a = ParkingSpot.spot_number b -> a = b) ->
  SpotAllocator.selectOptimalSpot vehicleType spots
  = SpotAllocator.selectOptimalSpot vehicleType spots'.
Proof.
  intros Hvt Hsame Hkey.
  destruct (getEligibleSpotTypes_valid Hvt) as (Hne & eligibleTypes & HE & _).
  destruct (selectOptimalSpot_least spots Hne HE) as (r & Hr & Hnone & Hbest).
  destruct (selectOptimalSpot_least spots' Hne HE) as (r' & Hr' & Hnone' & Hbest').
  rewrite Hr, Hr'. f_equal.
  destruct r as [b|]; destruct r' as [b'|]; [| | |reflexivity].
  - destruct (Hbest b eq_refl) as (Hin & Hc & Hle).
    destruct (Hbest' b' eq_refl) as (Hin' & Hc' & Hle').
    apply Hsame in Hin'. f_equal.
    destruct (precedes_antisym (Hle b' Hin' Hc') (Hle' b (proj1 (Hsame b) Hin) Hc)).
    apply Hkey; assumption.
  - exfalso. destruct (Hbest b eq_refl) as (Hin & Hc & _).
    apply (proj1 Hnone' eq_refl b); [apply Hsame, Hin|exact Hc].
  - exfalso. destruct (Hbest' b' eq_refl) as (Hin' & Hc' & _).
    apply (proj1 Hnone eq_refl b'); [apply Hsame, Hin'|exact Hc'].
Qed.

(** ** Doubles: rounding to the nearest double is monotone *)
Lemma pow2_pos (e : Z) : (0 < pow2 e)%Q.
Proof. apply Qpower_0_lt. reflexivity. Qed.

Lemma pow2_plus (a b : Z) : (pow2 (a + b) == pow2 a * pow2 b)%Q.
Proof. apply Qpower_plus. discriminate. Qed.

Lemma pow2_lt (a b : Z) : a < b -> (pow2 a < pow2 b)%Q.
Proof. intros H. apply Qpower_lt_compat_l; [exact H|reflexivity]. Qed.

Lemma pow2_le (a b : Z) : a <= b -> (pow2 a <= pow2 b)%Q.
Proof. intros H. apply Qpower_le_compat_l; [exact H|discriminate]. Qed.

Lemma pow2_lt_inv (a b : Z) : (pow2 a < pow2 b)%Q -> a < b.
Proof. intros H. apply (Qpower_lt_compat_l_inv _ _ _ H). reflexivity. Qed.

Lemma pow2_inject (a : Z) : 0 <= a -> (pow2 a == inject_Z (2 ^ a))%Q.
Proof. intros H. unfold pow2. rewrite Zpower_Qpower by exact H. reflexivity. Qed.

(** A positive rational lies between two consecutive powers of two. *)
Lemma ilog2_spec (x : Q) :
  (0 < x)%Q -> (pow2 (ilog2 x) <= x)%Q /\ (x < pow2 (ilog2 x + 1))%Q.
Proof.
  intros Hx. unfold ilog2. destruct x as [n d]. cbn [Qnum Qden].
  assert (Hn : 0 < n) by (unfold Qlt in Hx; simpl in Hx; lia).
  set (a := Z.log2 n). set (b := Z.log2 (Z.pos d)).
  assert (Ha : 2 ^ a <= n < 2 ^ (a + 1))
    by (unfold a; rewrite Z.add_1_r; apply Z.log2_spec, Hn).
  assert (Hb : 2 ^ b <= Z.pos d < 2 ^ (b + 1))
    by (unfold b; rewrite Z.add_1_r; apply Z.log2_spec; lia).
  assert (Ha0 : 0 <= a) by apply Z.log2_nonneg.
  assert (Hb0 : 0 <= b) by apply Z.log2_nonneg.
  assert (Q1 : (inject_Z n == (n # d) * inject_Z (Z.pos d))%Q).
  { unfold Qeq, Qmult, inject_Z. simpl. rewrite Pos.mul_1_r. ring. }
  assert (Hlow : (pow2 (a - b - 1) < n # d)%Q).
  { apply Qmult_lt_r with (z := pow2 (b + 1)); [apply pow2_pos|].
    rewrite <- pow2_plus. replace (a - b - 1 + (b + 1)) with a by ring.
    apply Qle_lt_trans with (y := inject_Z n);
      [rewrite pow2_inject by lia; rewrite <- Zle_Qle; lia|].
    rewrite Q1 at 1. apply Qmult_lt_l; [exact Hx|].
    rewrite pow2_inject by lia. rewrite <- Zlt_Qlt. lia. }
  assert (Hhigh : (n # d < pow2 (a - b + 1))%Q).
  { apply Qmult_lt_r with (z := pow2 b); [apply pow2_pos|].
    rewrite <- pow2_plus. replace (a - b + 1 + b) with (a + 1) by ring.
    apply Qle_lt_trans with (y := inject_Z n).
    - rewrite Q1. apply Qmult_le_l; [exact Hx|].
      rewrite pow2_inject by lia. rewrite <- Zle_Qle. lia.
    - rewrite pow2_inject by lia. rewrite <- Zlt_Qlt. lia. }
  destruct (Qle_bool (pow2 (a - b)) (n # d)) eqn:E.
  - apply Qle_bool_iff in E. split; assumption.
  - replace (a - b - 1 + 1) with (a - b) by ring. split; [apply Qlt_le_weak, Hlow|].
    apply Qnot_le_lt. intros C. apply Qle_bool_iff in C. congruence.
Qed.

Lemma ilog2_unique (x : Q) (k : Z) :
  (pow2 k <= x)%Q -> (x < pow2 (k + 1))%Q -> ilog2 x = k.
Proof.
  intros H1 H2.
  assert (Hx : (0 < x)%Q) by (eapply Qlt_le_trans; [apply pow2_pos|exact H1]).
  destruct (ilog2_spec Hx) as [L1 L2].
  assert (ilog2 x < k + 1) by (apply pow2_lt_inv; eapply Qle_lt_trans; eassumption).
  assert (k < ilog2 x + 1) by (apply pow2_lt_inv; eapply Qle_lt_trans; eassumption).
  lia.
Qed.

Lemma ilog2_comp (x y : Q) : (0 < x)%Q -> (x == y)%Q -> ilog2 x = ilog2 y.
Proof.
  intros Hx E. destruct (ilog2_spec Hx) as [L1 L2]. symmetry.
  apply ilog2_unique; rewrite <- E; assumption.
Qed.

Lemma ilog2_mono (x y : Q) : (0 < x)%Q -> (x <= y)%Q -> ilog2 x <= ilog2 y.
Proof.
  intros Hx Hxy.
  assert (Hy : (0 < y)%Q) by (eapply Qlt_le_trans; eassumption).
  destruct (ilog2_spec Hx) as [L1 _]. destruct (ilog2_spec Hy) as [_ M2].
  assert (ilog2 x < ilog2 y + 1); [|lia].
  apply pow2_lt_inv. eapply Qle_lt_trans; [exact L1|]. eapply Qle_lt_trans; eassumption.
Qed.

(** ** round_half_even *)

Lemma Qfloor_bounds (x : Q) : (inject_Z (Qfloor x) <= x)%Q /\ (x < inject_Z (Qfloor x) + 1)%Q.
Proof.
  split; [apply Qfloor_le|].
  pose proof (Qlt_floor x) as H. rewrite inject_Z_plus in H. exact H.
Qed.

Lemma round_half_even_cases (x : Q) :
  let f := Qfloor x in
  (round_half_even x = f /\ (x - inject_Z f <= 1 # 2)%Q
   /\ ((x - inject_Z f == 1 # 2)%Q -> Z.even f = true))
  \/ (round_half_even x = f + 1 /\ (1 # 2 <= x - inject_Z f)%Q
      /\ ((x - inject_Z f == 1 # 2)%Q -> Z.even f = false)).
Proof.
  cbv zeta. unfold round_half_even.
  destruct (Qcompare_spec (x - inject_Z (Qfloor x)) (1 # 2)) as [E|L|G].
  - destruct (Z.even (Qfloor x)) eqn:Ev.
    + left. split; [reflexivity|]. split; [rewrite E; apply Qle_refl|reflexivity].
    + right. split; [reflexivity|]. split; [rewrite E; apply Qle_refl|reflexivity].
  - left. split; [reflexivity|]. split; [apply Qlt_le_weak, L|].
    intros E. rewrite E in L. exfalso. exact (Qlt_irrefl _ L).
  - right. split; [reflexivity|]. split; [apply Qlt_le_weak, G|].
    intros E. rewrite E in G. exfalso. exact (Qlt_irrefl _ G).
Qed.

Lemma round_half_even_mono (x y : Q) :
  (x <= y)%Q -> round_half_even x <= round_half_even y.
Proof.
  intros H. pose proof (Qfloor_resp_le _ _ H) as Hf.
  destruct (round_half_even_cases x) as [(-> & X1 & X2)|(-> & X1 & X2)];
    destruct (round_half_even_cases y) as [(-> & Y1 & Y2)|(-> & Y1 & Y2)]; try lia.
  destruct (Z.eq_dec (Qfloor x) (Qfloor y)) as [E|E]; [|lia].
  exfalso. rewrite E in *.
  assert (Ex : (x - inject_Z (Qfloor y) == 1 # 2)%Q) by lra.
  assert (Ey : (y - inject_Z (Qfloor y) == 1 # 2)%Q) by lra.
  rewrite (X2 Ex) in Y2. discriminate (Y2 Ey).
Qed.

Lemma round_half_even_comp (x y : Q) : (x == y)%Q -> round_half_even x = round_half_even y.
Proof.
  intros E. apply Z.le_antisymm; apply round_half_even_mono; rewrite E; apply Qle_refl.
Qed.

Lemma round_half_even_inject (n : Z) : round_half_even (inject_Z n) = n.
Proof.
  unfold round_half_even. rewrite Qfloor_Z.
  destruct (Qcompare_spec (inject_Z n - inject_Z n) (1 # 2)) as [E|L|G];
    [exfalso; lra|reflexivity|exfalso; lra].
Qed.

Lemma round_half_even_le (x : Q) (n : Z) : (x <= inject_Z n)%Q -> round_half_even x <= n.
Proof. intros H. rewrite <- (round_half_even_inject n). apply round_half_even_mono, H. Qed.

Lemma round_half_even_ge (x : Q) (n : Z) : (inject_Z n <= x)%Q -> n <= round_half_even x.
Proof. intros H. rewrite <- (round_half_even_inject n). apply round_half_even_mono, H. Qed.

(** ** fl *)

Lemma fl_pos_eq (x : Q) :
  fl_pos x = (inject_Z (round_half_even (x / pow2 (fl_exp x))) * pow2 (fl_exp x))%Q.
Proof. reflexivity. Qed.

Lemma scaled_le (x y : Q) (e : Z) : (x <= y)%Q -> (x / pow2 e <= y / pow2 e)%Q.
Proof.
  intros H. unfold Qdiv. apply Qmult_le_compat_r; [exact H|].
  apply Qlt_le_weak, Qinv_lt_0_compat, pow2_pos.
Qed.

Lemma scaled_pow2 (a e : Z) : (pow2 a / pow2 e == pow2 (a - e))%Q.
Proof. symmetry. apply Qpower_minus. discriminate. Qed.

Lemma fl_pos_upper (x : Q) : (0 < x)%Q -> (fl_pos x <= pow2 (fl_exp x + 53))%Q.
Proof.
  intros Hx. rewrite fl_pos_eq. set (e := fl_exp x).
  destruct (ilog2_spec Hx) as [_ L2].
  assert (He : ilog2 x + 1 <= e + 53) by (unfold e, fl_exp; lia).
  rewrite pow2_plus, (Qmult_comm (pow2 e)).
  apply Qmult_le_compat_r; [|apply Qlt_le_weak, pow2_pos].
  rewrite (@pow2_inject 53) by lia. rewrite <- Zle_Qle. apply round_half_even_le.
  rewrite <- (@pow2_inject 53) by lia.
  apply Qle_trans with (y := (pow2 (e + 53) / pow2 e)%Q).
  - apply scaled_le. apply Qlt_le_weak. eapply Qlt_le_trans; [exact L2|apply pow2_le, He].
  - rewrite scaled_pow2. replace (e + 53 - e) with 53 by ring. apply Qle_refl.
Qed.

Lemma fl_pos_nonneg (x : Q) : (0 < x)%Q -> (0 <= fl_pos x)%Q.
Proof.
  intros Hx. rewrite fl_pos_eq. apply Qmult_le_0_compat; [|apply Qlt_le_weak, pow2_pos].
  change 0%Q with (inject_Z 0). rewrite <- Zle_Qle. apply round_half_even_ge.
  change (inject_Z 0) with 0%Q. apply Qlt_le_weak, Qlt_shift_div_l; [apply pow2_pos|].
  rewrite Qmult_0_l. exact Hx.
Qed.

Lemma fl_pos_lower (x : Q) :
  (0 < x)%Q -> -1074 <= ilog2 x - 52 -> (pow2 (fl_exp x + 52) <= fl_pos x)%Q.
Proof.
  intros Hx Hn. rewrite fl_pos_eq. set (e := fl_exp x).
  destruct (ilog2_spec Hx) as [L1 _].
  assert (He : e + 52 = ilog2 x) by (unfold e, fl_exp; lia).
  rewrite pow2_plus, (Qmult_comm (pow2 e)).
  apply Qmult_le_compat_r; [|apply Qlt_le_weak, pow2_pos].
  rewrite (@pow2_inject 52) by lia. rewrite <- Zle_Qle. apply round_half_even_ge.
  rewrite <- (@pow2_inject 52) by lia.
  apply Qle_trans with (y := (pow2 (e + 52) / pow2 e)%Q).
  - rewrite scaled_pow2. replace (e + 52 - e) with 52 by ring. apply Qle_refl.
  - apply scaled_le. rewrite He. exact L1.
Qed.

Lemma fl_pos_mono (x y : Q) : (0 < x)%Q -> (x <= y)%Q -> (fl_pos x <= fl_pos y)%Q.
Proof.
  intros Hx Hxy.
  assert (Hy : (0 < y)%Q) by (eapply Qlt_le_trans; eassumption).
  pose proof (ilog2_mono Hx Hxy) as Hl.
  destruct (Z.eq_dec (fl_exp x) (fl_exp y)) as [E|E].
  - rewrite !fl_pos_eq, E.
    apply Qmult_le_compat_r; [|apply Qlt_le_weak, pow2_pos].
    rewrite <- Zle_Qle. apply round_half_even_mono, scaled_le, Hxy.
  - assert (Hlt : fl_exp x < fl_exp y) by (unfold fl_exp in *; lia).
    apply Qle_trans with (y := pow2 (fl_exp x + 53)); [apply fl_pos_upper, Hx|].
    apply Qle_trans with (y := pow2 (fl_exp y + 52)); [apply pow2_le; lia|].
    apply fl_pos_lower; [exact Hy|]. unfold fl_exp in *. lia.
Qed.

Lemma fl_pos_comp (x y : Q) : (0 < x)%Q -> (x == y)%Q -> (fl_pos x == fl_pos y)%Q.
Proof.
  intros Hx E.
  assert (Hy : (0 < y)%Q) by (rewrite <- E; exact Hx).
  apply Qle_antisym; apply fl_pos_mono; try assumption; rewrite E; apply Qle_refl.
Qed.

Lemma fl_nonneg (x : Q) : (0 <= x)%Q -> (0 <= fl x)%Q.
Proof.
  intros H. unfold fl. destruct (Qcompare_spec x 0) as [E|L|G].
  - apply Qle_refl.
  - exfalso. lra.
  - apply fl_pos_nonneg, G.
Qed.

Lemma fl_nonpos (x : Q) : (x <= 0)%Q -> (fl x <= 0)%Q.
Proof.
  intros H. unfold fl. destruct (Qcompare_spec x 0) as [E|L|G].
  - apply Qle_refl.
  - assert (0 <= fl_pos (- x))%Q by (apply fl_pos_nonneg; lra). lra.
  - exfalso. lra.
Qed.

Lemma fl_mono (x y : Q) : (x <= y)%Q -> (fl x <= fl y)%Q.
Proof.
  intros H. destruct (Qlt_le_dec 0 x) as [Hx|Hx].
  - unfold fl. destruct (Qcompare_spec x 0) as [E|L|G]; try (exfalso; lra).
    destruct (Qcompare_spec y 0) as [E'|L'|G']; try (exfalso; lra).
    apply fl_pos_mono; assumption.
  - destruct (Qlt_le_dec 0 y) as [Hy|Hy].
    + apply Qle_trans with (y := 0%Q); [apply fl_nonpos, Hx|apply fl_nonneg; lra].
    + unfold fl. destruct (Qcompare_spec x 0) as [E|L|G]; try (exfalso; lra);
        destruct (Qcompare_spec y 0) as [E'|L'|G']; try (exfalso; lra).
      * apply Qle_refl.
      * assert (0 <= fl_pos (- x))%Q by (apply fl_pos_nonneg; lra). lra.
      * assert (fl_pos (- y) <= fl_pos (- x))%Q by (apply fl_pos_mono; lra). lra.
Qed.

Lemma fl_comp (x y : Q) : (x == y)%Q -> (fl x == fl y)%Q.
Proof.
  intros E. apply Qle_antisym; apply fl_mono; rewrite E; apply Qle_refl.
Qed.

(** ** Numbers *)

Lemma num_div_Qmake (a b : Z) : 0 < b -> (num_div a b == a # Z.to_pos b)%Q.
Proof.
  intros Hb. unfold num_div, Qdiv, Qinv, inject_Z. destruct b as [|p|p]; try lia.
  simpl. unfold Qeq, Qmult. simpl. lia.
Qed.

Lemma Math_floor_div (a b : Z) : 0 < b -> Math_floor (num_div a b) = a / b.
Proof.
  intros Hb. unfold Math_floor. rewrite (Qfloor_comp _ _ (num_div_Qmake a Hb)).
  unfold Qfloor. rewrite Z2Pos.id by exact Hb. reflexivity.
Qed.

Lemma Math_ceil_div (a b : Z) : 0 < b -> Math_ceil (num_div a b) = - ((- a) / b).
Proof.
  intros Hb. unfold Math_ceil. rewrite (Qceiling_comp _ _ (num_div_Qmake a Hb)).
  unfold Qceiling, Qfloor, Qopp. simpl. rewrite Z2Pos.id by exact Hb. reflexivity.
Qed.

Lemma Math_round_div (a b : Z) : 0 < b -> Math_round (num_div a b) = (2 * a + b) / (2 * b).
Proof.
  intros Hb. unfold Math_round.
  assert (E : (num_div a b + (1 # 2) == (2 * a + b) # Z.to_pos (2 * b))%Q).
  { rewrite (num_div_Qmake a Hb). destruct b as [|p|p]; try lia.
    unfold Qeq, Qplus. cbn [Qnum Qden Z.to_pos]. change (2 * Z.pos p) with (Z.pos (2 * p)). cbn [Z.to_pos]. lia. }
  rewrite (Qfloor_comp _ _ E). unfold Qfloor. rewrite Z2Pos.id by lia. reflexivity.
Qed.


Lemma cents_inject (n : Z) : (n # 100 == inject_Z n * (1 # 100))%Q.
Proof. unfold Qeq, Qmult, inject_Z. simpl. lia. Qed.

Lemma toFixed2_nonneg_eq (x : Q) :
  (0 <= x)%Q -> toFixed2 x = (Qfloor (x * 100 + (1 # 2)) # 100)%Q.
Proof.
  intros H. unfold toFixed2. apply Qle_bool_iff in H. rewrite H. reflexivity.
Qed.

Lemma toFixed2_neg_eq (x : Q) :
  (x < 0)%Q -> toFixed2 x = (- (Qfloor ((- x) * 100 + (1 # 2)) # 100))%Q.
Proof.
  intros H. unfold toFixed2. destruct (Qle_bool 0 x) eqn:E; [|reflexivity].
  apply Qle_bool_iff in E. lra.
Qed.

Lemma floor_bounds (x : Q) :
  (inject_Z (Qfloor x) <= x /\ x < inject_Z (Qfloor x) + 1)%Q.
Proof.
  split; [apply Qfloor_le|].
  pose proof (Qlt_floor x) as H. rewrite inject_Z_plus in H. exact H.
Qed.

Lemma toFixed2_rounded (x : Q) : rounded_to_cents x (toFixed2 x).
Proof.
  unfold rounded_to_cents.
  destruct (Qlt_le_dec x 0) as [Hneg|Hpos].
  - rewrite (toFixed2_neg_eq Hneg).
    destruct (floor_bounds (- x * 100 + (1 # 2))) as [H1 H2].
    set (n := Qfloor (- x * 100 + (1 # 2))) in *. clearbody n. split.
    + exists (- n). reflexivity.
    + apply Qabs_Qle_condition. rewrite (cents_inject n). split; lra.
  - rewrite (toFixed2_nonneg_eq Hpos).
    destruct (floor_bounds (x * 100 + (1 # 2))) as [H1 H2].
    set (n := Qfloor (x * 100 + (1 # 2))) in *. clearbody n. split.
    + exists n. reflexivity.
    + apply Qabs_Qle_condition. rewrite (cents_inject n). split; lra.
Qed.

Lemma cents_le (n m : Z) : n <= m -> (n # 100 <= m # 100)%Q.
Proof. intros H. unfold Qle. simpl. lia. Qed.

Lemma cents_nonneg (n : Z) : 0 <= n -> (0 <= n # 100)%Q.
Proof. intros H. unfold Qle. simpl. lia. Qed.

Lemma Qfloor_nonneg (x : Q) : (0 <= x)%Q -> 0 <= Qfloor x.
Proof. intros H. change 0 with (Qfloor 0). apply Qfloor_resp_le, H. Qed.

Lemma toFixed2_nonneg (x : Q) : (0 <= x)%Q -> (0 <= toFixed2 x)%Q.
Proof.
  intros H. rewrite (toFixed2_nonneg_eq H).
  apply cents_nonneg, Qfloor_nonneg. lra.
Qed.

Lemma toFixed2_nonpos (x : Q) : (x < 0)%Q -> (toFixed2 x <= 0)%Q.
Proof.
  intros H. rewrite (toFixed2_neg_eq H).
  assert (0 <= Qfloor (- x * 100 + (1 # 2)) # 100)%Q.
  { apply cents_nonneg, Qfloor_nonneg. lra. }
  lra.
Qed.

Lemma toFixed2_mono (x y : Q) : (x <= y)%Q -> (toFixed2 x <= toFixed2 y)%Q.
Proof.
  intros Hxy.
  destruct (Qlt_le_dec x 0) as [Hx|Hx]; destruct (Qlt_le_dec y 0) as [Hy|Hy].
  - rewrite (toFixed2_neg_eq Hx), (toFixed2_neg_eq Hy).
    apply Qopp_le_compat, cents_le, Qfloor_resp_le. lra.
  - eapply Qle_trans; [apply (toFixed2_nonpos Hx)|apply (toFixed2_nonneg Hy)].
  - lra.
  - rewrite (toFixed2_nonneg_eq Hx), (toFixed2_nonneg_eq Hy).
    apply cents_le, Qfloor_resp_le. lra.
Qed.


(** ** utils/feeCalculator.js *)

Lemma durationMinutes_div (entryTime exitTime : Z) :
  FeeCalculator.durationMinutes entryTime exitTime = (exitTime - entryTime) / 60000.
Proof. unfold FeeCalculator.durationMinutes. apply Math_floor_div. lia. Qed.

(** The three rounding strategies, as bounds on the number of units. *)
Lemma hourlyUnits_CEILING (a : Z) :
  let u := FeeCalculator.hourlyUnits "CEILING" a in 60 * (u - 1) < a <= 60 * u.
Proof.
  cbv zeta. change (FeeCalculator.hourlyUnits "CEILING" a) with (Math_ceil (num_div a 60)).
  rewrite Math_ceil_div by lia.
  pose proof (Z_div_mod_eq_full (- a) 60) as E. pose proof (Z.mod_pos_bound (- a) 60). lia.
Qed.

Lemma hourlyUnits_FLOOR (a : Z) :
  let u := FeeCalculator.hourlyUnits "FLOOR" a in 60 * u <= a < 60 * (u + 1).
Proof.
  cbv zeta. change (FeeCalculator.hourlyUnits "FLOOR" a) with (Math_floor (num_div a 60)).
  rewrite Math_floor_div by lia.
  pose proof (Z_div_mod_eq_full a 60) as E. pose proof (Z.mod_pos_bound a 60). lia.
Qed.

Lemma hourlyUnits_ROUND (a : Z) :
  let u := FeeCalculator.hourlyUnits "ROUND" a in 60 * u - 30 <= a < 60 * u + 30.
Proof.
  cbv zeta. change (FeeCalculator.hourlyUnits "ROUND" a) with (Math_round (num_div a 60)).
  rewrite Math_round_div by lia.
  pose proof (Z_div_mod_eq_full (2 * a + 60) (2 * 60)) as E.
  pose proof (Z.mod_pos_bound (2 * a + 60) (2 * 60)). lia.
Qed.

Lemma hourlyUnits_cases (strategy : string) (a : Z) :
  FeeCalculator.hourlyUnits strategy a = - ((- a) / 60)
  \/ FeeCalculator.hourlyUnits strategy a = a / 60
  \/ FeeCalculator.hourlyUnits strategy a = (2 * a + 60) / (2 * 60).
Proof.
  unfold FeeCalculator.hourlyUnits.
  destruct (strategy =? "CEILING")%string; [left; apply Math_ceil_div; lia|].
  destruct (strategy =? "FLOOR")%string; [right; left; apply Math_floor_div; lia|].
  destruct (strategy =? "ROUND")%string; [right; right; apply Math_round_div; lia|].
  left; apply Math_ceil_div; lia.
Qed.

Lemma hourlyUnits_mono (strategy : string) (a b : Z) :
  a <= b -> FeeCalculator.hourlyUnits strategy a <= FeeCalculator.hourlyUnits strategy b.
Proof.
  intros H. unfold FeeCalculator.hourlyUnits.
  assert (Hc : Math_ceil (num_div a 60) <= Math_ceil (num_div b 60)).
  { rewrite !Math_ceil_div by lia.
    assert ((- b) / 60 <= (- a) / 60) by (apply Z.div_le_mono; lia). lia. }
  destruct (strategy =? "CEILING")%string; [exact Hc|].
  destruct (strategy =? "FLOOR")%string.
  { rewrite !Math_floor_div by lia. apply Z.div_le_mono; lia. }
  destruct (strategy =? "ROUND")%string; [|exact Hc].
  rewrite !Math_round_div by lia. apply Z.div_le_mono; lia.
Qed.

Lemma hourlyUnits_nonneg (strategy : string) (a : Z) :
  0 <= a -> 0 <= FeeCalculator.hourlyUnits strategy a.
Proof.
  intros H. destruct (hourlyUnits_cases strategy a) as [E|[E|E]]; rewrite E.
  - assert ((- a) / 60 <= 0 / 60) by (apply Z.div_le_mono; lia).
    rewrite Z.div_0_l in *; lia.
  - apply Z.div_pos; lia.
  - apply Z.div_pos; lia.
Qed.


(** The result inside the grace period. *)
Lemma calculateParkingFee_within_grace (vehicleType : string) (entryTime exitTime : Z)
    (rateCard : RateCard.t) :
  vehicleType <> "" -> entryTime < exitTime ->
  FeeCalculator.durationMinutes entryTime exitTime <= FeeCalculator.grace_of rateCard ->
  let d := FeeCalculator.durationMinutes entryTime exitTime in
  FeeCalculator.calculateParkingFee vehicleType entryTime exitTime rateCard =
  Return (FeeCalculator.mk vehicleType entryTime exitTime d (FeeCalculator.formatDuration d)
            (FeeCalculator.mk_rate_card (RateCard.hourly_rate rateCard)
               (RateCard.daily_max_rate rateCard) (FeeCalculator.grace_of rateCard)
               (FeeCalculator.rounding_of rateCard))
            (FeeCalculator.mk_details d 0 0 0%Q false 0%Q) 0%Q "USD").
Proof.
  intros Hvt Ht Hd. cbv zeta. unfold FeeCalculator.calculateParkingFee.
  apply String.eqb_neq in Hvt. rewrite Hvt.
  destruct (exitTime <=? entryTime) eqn:E; [apply Z.leb_le in E; lia|].
  apply Z.leb_le in Hd. rewrite Hd. reflexivity.
Qed.

(** The result past the grace period. *)
Lemma calculateParkingFee_billed (vehicleType : string) (entryTime exitTime : Z)
    (rateCard : RateCard.t) :
  vehicleType <> "" -> entryTime < exitTime ->
  FeeCalculator.grace_of rateCard < FeeCalculator.durationMinutes entryTime exitTime ->
  let d := FeeCalculator.durationMinutes entryTime exitTime in
  let g := FeeCalculator.grace_of rateCard in
  let u := FeeCalculator.hourlyUnits (FeeCalculator.rounding_of rateCard) (d - g) in
  let baseFee := fl (inject_Z u * RateCard.hourly_rate rateCard) in
  let capped := FeeCalculator.applyDailyCap (RateCard.daily_max_rate rateCard) baseFee in
  FeeCalculator.calculateParkingFee vehicleType entryTime exitTime rateCard =
  Return (FeeCalculator.mk vehicleType entryTime exitTime d (FeeCalculator.formatDuration d)
            (FeeCalculator.mk_rate_card (RateCard.hourly_rate rateCard)
               (RateCard.daily_max_rate rateCard) g (FeeCalculator.rounding_of rateCard))
            (FeeCalculator.mk_details g (d - g) u (toFixed2 baseFee) (snd capped)
               (toFixed2 (fst capped)))
            (toFixed2 (fst capped)) "USD").
Proof.
  intros Hvt Ht Hd. cbv zeta. unfold FeeCalculator.calculateParkingFee.
  apply String.eqb_neq in Hvt. rewrite Hvt.
  destruct (exitTime <=? entryTime) eqn:E; [apply Z.leb_le in E; lia|].
  apply Z.leb_gt in Hd. rewrite Hd.
  destruct (FeeCalculator.applyDailyCap _ _). reflexivity.
Qed.

(** C2. The worked example. For a CAR entering at any instant and leaving
    155 minutes later (10:00 to 12:35), with the rate card 8.00 an hour,
    50.00 a day at most, 15 minutes of grace and rounding CEILING,
    [calculateParkingFee] returns a duration of 155 minutes, 140 adjusted
    minutes, 3 hourly units, a parking fee of 24.00 and no daily cap. *)
Theorem calculateParkingFee_car_example (entryTime : Z) :
  exists r,
    FeeCalculator.calculateParkingFee "CAR" entryTime (entryTime + 155 * 60000) car_rate_card
      = Return r
    /\ FeeCalculator.duration_minutes r = 155
    /\ FeeCalculator.adjusted_minutes (FeeCalculator.calculation_details r) = 140
    /\ FeeCalculator.hourly_units (FeeCalculator.calculation_details r) = 3
    /\ (FeeCalculator.parking_fee r == 24)%Q
    /\ FeeCalculator.daily_cap_applied (FeeCalculator.calculation_details r) = false.
Proof.
  assert (D : FeeCalculator.durationMinutes entryTime (entryTime + 155 * 60000) = 155).
  { rewrite durationMinutes_div.
    replace (entryTime + 155 * 60000 - entryTime) with (155 * 60000) by lia. reflexivity. }
  eexists. split.
  - apply calculateParkingFee_billed; [discriminate|lia|].
    rewrite D. vm_compute. reflexivity.
  - cbn [FeeCalculator.duration_minutes FeeCalculator.calculation_details
         FeeCalculator.adjusted_minutes FeeCalculator.hourly_units
         FeeCalculator.parking_fee FeeCalculator.daily_cap_applied].
    rewrite D. repeat split; vm_compute; reflexivity.
Qed.





(** C5. Past the grace period, with [base_fee] the double the code computes
    as the hourly units times the hourly rate, for a card whose rate and
    daily maximum are doubles and a [base_fee] that is finite: when the
    card has a daily maximum and [base_fee] exceeds it, the cap flag is set
    and the parking fee is the daily maximum rounded to two decimal places;
    otherwise (no daily maximum, or [base_fee] within it) the flag is clear
    and the parking fee is [base_fee] rounded to two decimal places. The
    [final_fee] of the details is the parking fee. *)
Theorem calculateParkingFee_daily_cap (vehicleType : string) (entryTime exitTime : Z)
    (rateCard : RateCard.t) :
  vehicleType <> "" ->
  entryTime < exitTime ->
  match RateCard.grace_period_minutes rateCard with
  | Some grace_period_minutes => grace_period_minutes
  | None => 15
  end < (exitTime - entryTime) / 60000 ->
  binary64 (RateCard.hourly_rate rateCard) ->
  (forall cap, RateCard.daily_max_rate rateCard = Some cap -> binary64 cap) ->
  exists r,
    FeeCalculator.calculateParkingFee vehicleType entryTime exitTime rateCard = Return r
    /\ let details := FeeCalculator.calculation_details r in
       let base_fee :=
         fl (inject_Z (FeeCalculator.hourly_units details) * RateCard.hourly_rate rateCard) in
       FeeCalculator.final_fee details = FeeCalculator.parking_fee r
       /\ ((Qabs base_fee < pow2 1024)%Q ->
           (forall cap, RateCard.daily_max_rate rateCard = Some cap -> (cap < base_fee)%Q ->
              FeeCalculator.daily_cap_applied details = true
              /\ rounded_to_cents cap (FeeCalculator.parking_fee r))
           /\ ((forall cap, RateCard.daily_max_rate rateCard = Some cap ->
                            (base_fee <= cap)%Q) ->
               FeeCalculator.daily_cap_applied details = false
               /\ rounded_to_cents base_fee (FeeCalculator.parking_fee r))).
Proof.
  intros Hvt Ht Hd _ _. change (match RateCard.grace_period_minutes rateCard with
                                | Some g => g
                                | None => 15
                                end) with (FeeCalculator.grace_of rateCard) in Hd.
  rewrite <- durationMinutes_div in *.
  eexists. split; [apply calculateParkingFee_billed; assumption|].
  cbn [FeeCalculator.calculation_details FeeCalculator.hourly_units
       FeeCalculator.final_fee FeeCalculator.parking_fee FeeCalculator.daily_cap_applied].
  cbv zeta. split; [reflexivity|]. intros _.
  unfold FeeCalculator.applyDailyCap.
  destruct (RateCard.daily_max_rate rateCard) as [cap|]; split.
  - intros cap' [= <-] Hlt.
    destruct (Qle_bool _ cap) eqn:E; [apply Qle_bool_iff in E; lra|].
    split; [reflexivity|apply toFixed2_rounded].
  - intros Hle. specialize (Hle cap eq_refl). apply Qle_bool_iff in Hle. rewrite Hle.
    split; [reflexivity|apply toFixed2_rounded].
  - discriminate.
  - intros _. split; [reflexivity|apply toFixed2_rounded].
Qed.

(** At the rate 0.1 (the double next to it): three units are the double
    0.30000000000000004, above the double 0.3, and the fee is capped; five
    units are the double 0.5, although the exact product is above it, and the
    fee is not capped by a daily maximum of 0.5. *)
Lemma calculateParkingFee_daily_cap_witness :
  let tenth := fl (1 # 10) in
  (exists r,
     FeeCalculator.calculateParkingFee "CAR" 1769076000000 1769087700000
       (RateCard.mk "CAR" tenth (Some (fl (3 # 10))) (Some "CEILING") (Some 15)) = Return r
     /\ FeeCalculator.hourly_units (FeeCalculator.calculation_details r) = 3
     /\ (fl (3 # 10) < fl (3 * tenth))%Q
     /\ FeeCalculator.daily_cap_applied (FeeCalculator.calculation_details r) = true
     /\ rounded_to_cents (fl (3 # 10)) (FeeCalculator.parking_fee r)
     /\ FeeCalculator.parking_fee r = (30 # 100)%Q)
  /\ (exists r,
        FeeCalculator.calculateParkingFee "CAR" 1769076000000 1769094900000
          (RateCard.mk "CAR" tenth (Some (1 # 2)%Q) (Some "CEILING") (Some 15)) = Return r
        /\ FeeCalculator.hourly_units (FeeCalculator.calculation_details r) = 5
        /\ (1 # 2 < 5 * tenth)%Q
        /\ (fl (5 * tenth) == 1 # 2)%Q
        /\ FeeCalculator.daily_cap_applied (FeeCalculator.calculation_details r) = false
        /\ rounded_to_cents (1 # 2) (FeeCalculator.parking_fee r)
        /\ FeeCalculator.parking_fee r = (50 # 100)%Q).
Proof.
  cbv zeta.
  assert (B : forall x : Q, (fl x == x)%Q -> (Qabs x < pow2 1024)%Q -> binary64 x)
    by (intros x H1 H2; split; assumption).
  split.
  - destruct (@calculateParkingFee_daily_cap "CAR" 1769076000000 1769087700000
                (RateCard.mk "CAR" (fl (1 # 10)) (Some (fl (3 # 10))) (Some "CEILING") (Some 15)))
      as (r & E & _ & G);
      [discriminate|lia|vm_compute; reflexivity
      |apply B; vm_compute; reflexivity
      |intros cap [= <-]; apply B; vm_compute; reflexivity|].
    assert (Hr : r = match FeeCalculator.calculateParkingFee "CAR" 1769076000000 1769087700000
                             (RateCard.mk "CAR" (fl (1 # 10)) (Some (fl (3 # 10)))
                                (Some "CEILING") (Some 15)) with
                     | Return x => x
                     | Throw _ => r
                     end) by (rewrite E; reflexivity).
    vm_compute in Hr. subst r. eexists. split; [exact E|].
    destruct G as [G _]; [vm_compute; reflexivity|].
    destruct (G _ eq_refl) as [Hflag Hfee]; [vm_compute; reflexivity|].
    split; [reflexivity|]. split; [vm_compute; reflexivity|].
    split; [exact Hflag|]. split; [exact Hfee|reflexivity].
  - destruct (@calculateParkingFee_daily_cap "CAR" 1769076000000 1769094900000
                (RateCard.mk "CAR" (fl (1 # 10)) (Some (1 # 2)%Q) (Some "CEILING") (Some 15)))
      as (r & E & _ & G);
      [discriminate|lia|vm_compute; reflexivity
      |apply B; vm_compute; reflexivity
      |intros cap [= <-]; apply B; vm_compute; reflexivity|].
    assert (Hr : r = match FeeCalculator.calculateParkingFee "CAR" 1769076000000 1769094900000
                             (RateCard.mk "CAR" (fl (1 # 10)) (Some (1 # 2)%Q)
                                (Some "CEILING") (Some 15)) with
                     | Return x => x
                     | Throw _ => r
                     end) by (rewrite E; reflexivity).
    vm_compute in Hr. subst r. eexists. split; [exact E|].
    destruct G as [_ G]; [vm_compute; reflexivity|].
    destruct G as [Hflag Hfee]; [intros cap [= <-]; vm_compute; discriminate|].
    split; [reflexivity|]. split; [vm_compute; reflexivity|].
    split; [vm_compute; reflexivity|].
    split; [exact Hflag|]. split; [|reflexivity].
    destruct Hfee as [Hn Hd]. split; [exact Hn|]. exact Hd.
Defined.

Lemma applyDailyCap_mono (daily_max_rate : option Q) (x y : Q) :
  (x <= y)%Q ->
  (fst (FeeCalculator.applyDailyCap daily_max_rate x)
   <= fst (FeeCalculator.applyDailyCap daily_max_rate y))%Q.
Proof.
  intros H. unfold FeeCalculator.applyDailyCap.
  destruct daily_max_rate as [cap|]; [|exact H].
  destruct (Qle_bool x cap) eqn:Ex; destruct (Qle_bool y cap) eqn:Ey; simpl;
    try apply Qle_bool_iff in Ex; try apply Qle_bool_iff in Ey; try lra.
  assert (~ (x <= cap)%Q) by (intros C; apply Qle_bool_iff in C; congruence).
  lra.
Qed.

Lemma applyDailyCap_nonneg (daily_max_rate : option Q) (x : Q) :
  (forall cap, daily_max_rate = Some cap -> (0 <= cap)%Q) ->
  (0 <= x)%Q -> (0 <= fst (FeeCalculator.applyDailyCap daily_max_rate x))%Q.
Proof.
  intros Hcap H. unfold FeeCalculator.applyDailyCap.
  destruct daily_max_rate as [cap|]; [|exact H].
  destruct (Qle_bool x cap); simpl; [exact H|apply Hcap; reflexivity].
Qed.

(** C10. For a vehicle type that is given, an entry time and a rate card
    within the bounds of its schema (no negative hourly rate, no negative
    daily maximum), the parking fee is monotone in the exit time: for
    [entryTime < t1 <= t2] both computations return and the fee for [t1] is
    at most the fee for [t2]. *)
Theorem calculateParkingFee_monotone (vehicleType : string) (entryTime t1 t2 : Z)
    (rateCard : RateCard.t) :
  vehicleType <> "" ->
  nonnegative_rates rateCard ->
  entryTime < t1 -> t1 <= t2 ->
  exists r1 r2,
    FeeCalculator.calculateParkingFee vehicleType entryTime t1 rateCard = Return r1
    /\ FeeCalculator.calculateParkingFee vehicleType entryTime t2 rateCard = Return r2
    /\ (FeeCalculator.parking_fee r1 <= FeeCalculator.parking_fee r2)%Q.
Proof.
  intros Hvt [Hrate Hcap] H1 H12.
  assert (Hd : FeeCalculator.durationMinutes entryTime t1
               <= FeeCalculator.durationMinutes entryTime t2).
  { rewrite !durationMinutes_div. apply Z.div_le_mono; lia. }
  set (g := FeeCalculator.grace_of rateCard).
  assert (Hfee : forall a, 0 <= a ->
            (0 <= fl (inject_Z (FeeCalculator.hourlyUnits (FeeCalculator.rounding_of rateCard) a)
                      * RateCard.hourly_rate rateCard))%Q).
  { intros a Ha. apply fl_nonneg, Qmult_le_0_compat; [|exact Hrate].
    change 0%Q with (inject_Z 0). rewrite <- Zle_Qle. apply hourlyUnits_nonneg, Ha. }
  destruct (Z_le_gt_dec (FeeCalculator.durationMinutes entryTime t1) g) as [G1|G1];
    destruct (Z_le_gt_dec (FeeCalculator.durationMinutes entryTime t2) g) as [G2|G2].
  - do 2 eexists. split; [apply calculateParkingFee_within_grace; assumption || lia|].
    split; [apply calculateParkingFee_within_grace; assumption || lia|].
    simpl. lra.
  - do 2 eexists. split; [apply calculateParkingFee_within_grace; assumption || lia|].
    split; [apply calculateParkingFee_billed; assumption || lia|].
    cbn [FeeCalculator.parking_fee].
    apply toFixed2_nonneg, applyDailyCap_nonneg; [exact Hcap|]. apply Hfee. fold g. lia.
  - exfalso. lia.
  - do 2 eexists. split; [apply calculateParkingFee_billed; assumption || lia|].
    split; [apply calculateParkingFee_billed; assumption || lia|].
    cbn [FeeCalculator.parking_fee].
    apply toFixed2_mono, applyDailyCap_mono, fl_mono.
    apply Qmult_le_compat_r; [|exact Hrate].
    rewrite <- Zle_Qle. apply hourlyUnits_mono. lia.
Qed.

Lemma calculateParkingFee_monotone_witness :
  "CAR" <> ""
  /\ nonnegative_rates car_rate_card
  /\ 1769076000000 < 1769082000000
  /\ 1769082000000 <= 1769088000000
  /\ exists r1 r2,
       FeeCalculator.calculateParkingFee "CAR" 1769076000000 1769082000000 car_rate_card
       = Return r1
       /\ FeeCalculator.calculateParkingFee "CAR" 1769076000000 1769088000000 car_rate_card
          = Return r2
       /\ (FeeCalculator.parking_fee r1 <= FeeCalculator.parking_fee r2)%Q.
Proof.
  assert (H1 : "CAR" <> "") by discriminate.
  assert (H2 : nonnegative_rates car_rate_card).
  { split; [vm_compute; discriminate|].
    intros cap E. injection E as <-. vm_compute. discriminate. }
  assert (H3 : 1769076000000 < 1769082000000) by lia.
  assert (H4 : 1769082000000 <= 1769088000000) by lia.
  repeat (split; [assumption|]).
  exact (@calculateParkingFee_monotone "CAR" 1769076000000 1769082000000 1769088000000
           car_rate_card H1 H2 H3 H4).
Defined.


(** ** Collections *)
Section UpdateFirst.
Variables (A K : Type) (key : A -> K) (p : A -> bool) (f : A -> A).
Hypothesis key_f : forall x, key (f x) = key x.

Lemma map_key_updateFirst (l : list A) : map key (updateFirst p f l) = map key l.
Proof.
  induction l as [|x t IH]; simpl; [reflexivity|].
  destruct (p x); simpl; [rewrite key_f|rewrite IH]; reflexivity.
Qed.

Lemma In_updateFirst (l : list A) (x : A) :
  In x (updateFirst p f l) -> (exists y, In y l /\ p y = true /\ x = f y) \/ In x l.
Proof.
  induction l as [|a t IH]; simpl; [tauto|].
  destruct (p a) eqn:E; simpl.
  - intros [<-|H]; [left; exists a; auto|right; auto].
  - intros [<-|H]; [right; auto|].
    destruct (IH H) as [(y & Hy & Hp & ->)|Hx]; [left; exists y; auto|right; auto].
Qed.

(** When the key identifies the documents and [p] selects the key [k], the
    documents the update leaves alone have another key. *)
Variable k : K.
Hypothesis p_key : forall x, p x = true <-> key x = k.

Lemma In_updateFirst_unique (l : list A) (x : A) :
  NoDup (map key l) ->
  In x (updateFirst p f l) ->
  (exists y, In y l /\ key y = k /\ x = f y) \/ (In x l /\ key x <> k).
Proof.
  intros Hnd. induction l as [|a t IH]; simpl; [tauto|].
  inversion Hnd as [|? ? Hnotin Hnd']; subst.
  destruct (p a) eqn:E; simpl.
  - apply p_key in E. intros [<-|H]; [left; exists a; auto|].
    right. split; [auto|]. intros Hx. apply Hnotin.
    rewrite E, <- Hx. apply in_map, H.
  - assert (key a <> k) by (intros C; apply p_key in C; congruence).
    intros [<-|H']; [right; auto|].
    destruct (IH Hnd' H') as [(y & Hy & Hpy & ->)|[Hx Hpx]];
      [left; exists y; auto|right; auto].
Qed.
End UpdateFirst.

(** ** The ledger invariant is kept by the writes of the services *)

Lemma ledger_ok_next (vs : list Vehicle.t) (ts : list ParkingTransaction.t) (n : Z) :
  ledger_ok vs ts n -> ledger_ok vs ts (n + 1).
Proof.
  intros (H1 & H2 & H3 & H4 & H5 & H6 & H7).
  repeat split; auto.
  - intros v Hv. specialize (H3 v Hv). lia.
  - specialize (H5 tr H). lia.
  - specialize (H5 tr H). lia.
Qed.

Lemma NoDup_snoc {A : Type} (l : list A) (x : A) :
  NoDup l -> ~ In x l -> NoDup (l ++ [x]).
Proof.
  intros Hl Hx. apply NoDup_app; [exact Hl|constructor; [simpl; tauto|constructor]|].
  intros a Ha [<-|[]]. exact (Hx Ha).
Qed.

Lemma ledger_ok_create_vehicle (vs : list Vehicle.t) (ts : list ParkingTransaction.t)
    (n : Z) (plate ty : string) (o r : option string) :
  ledger_ok vs ts n ->
  ~ In plate (map Vehicle.license_plate vs) ->
  ledger_ok (vs ++ [Vehicle.mk n plate ty o r false]) ts (n + 1).
Proof.
  intros (H1 & H2 & H3 & H4 & H5 & H6 & H7) Hplate.
  repeat split.
  - rewrite map_app. apply NoDup_snoc; [exact H1|].
    simpl. intros Hin. apply in_map_iff in Hin. destruct Hin as (v & E & Hv).
    specialize (H3 v Hv). lia.
  - rewrite map_app. apply NoDup_snoc; assumption.
  - intros v Hv. apply in_app_or in Hv. destruct Hv as [Hv|[<-|[]]].
    + specialize (H3 v Hv). lia.
    + simpl. lia.
  - exact H4.
  - specialize (H5 tr H). lia.
  - specialize (H5 tr H). lia.
  - intros tr v Htr Hv Hopen E. apply in_app_or in Hv. destruct Hv as [Hv|[<-|[]]].
    + eapply H6; eassumption.
    + simpl in E. specialize (H5 tr Htr). lia.
  - exact H7.
Qed.

Lemma setParked_id (b : bool) (v : Vehicle.t) :
  Vehicle._id (VehicleRepository.setParked b v) = Vehicle._id v.
Proof. reflexivity. Qed.

Lemma setParked_plate (b : bool) (v : Vehicle.t) :
  Vehicle.license_plate (VehicleRepository.setParked b v) = Vehicle.license_plate v.
Proof. reflexivity. Qed.

Lemma In_setParked (b : bool) (vid : Z) (vs : list Vehicle.t) (v : Vehicle.t) :
  NoDup (map Vehicle._id vs) ->
  In v (updateFirst (fun v => Vehicle._id v =? vid) (VehicleRepository.setParked b) vs) ->
  (exists y, In y vs /\ Vehicle._id y = vid /\ v = VehicleRepository.setParked b y)
  \/ (In v vs /\ Vehicle._id v <> vid).
Proof.
  apply In_updateFirst_unique with (key := Vehicle._id).
  intros x. apply Z.eqb_eq.
Qed.

(** Steps 4 to 6 of [processEntry]: a new open transaction for the vehicle
    [vid], which had none, and the vehicle flagged as parked. *)
Lemma ledger_ok_open (vs : list Vehicle.t) (ts : list ParkingTransaction.t)
    (n vid sid t : Z) :
  ledger_ok vs ts n ->
  vid < n ->
  (forall tr, In tr ts -> ParkingTransaction.is_open tr = true ->
              ParkingTransaction.vehicle_id tr <> vid) ->
  ledger_ok
    (updateFirst (fun v => Vehicle._id v =? vid) (VehicleRepository.setParked true) vs)
    (ts ++ [ParkingTransaction.mk n vid sid t None None None "PENDING" None])
    (n + 1).
Proof.
  intros (H1 & H2 & H3 & H4 & H5 & H6 & H7) Hvid Hnone.
  repeat split.
  - rewrite map_key_updateFirst by apply setParked_id. exact H1.
  - rewrite map_key_updateFirst by apply setParked_plate. exact H2.
  - intros v Hv. apply In_setParked in Hv; [|exact H1].
    destruct Hv as [(y & Hy & _ & ->)|[Hv _]].
    + rewrite setParked_id. specialize (H3 y Hy). lia.
    + specialize (H3 v Hv). lia.
  - rewrite map_app. apply NoDup_snoc; [exact H4|].
    simpl. intros Hin. apply in_map_iff in Hin. destruct Hin as (tr & E & Htr).
    specialize (H5 tr Htr). lia.
  - apply in_app_or in H. destruct H as [H|[<-|[]]]; [specialize (H5 tr H)|simpl]; lia.
  - apply in_app_or in H. destruct H as [H|[<-|[]]]; [specialize (H5 tr H)|simpl]; lia.
  - intros tr v Htr Hv Hopen E.
    apply In_setParked in Hv; [|exact H1].
    destruct Hv as [(y & Hy & _ & ->)|[Hv Hne]]; [reflexivity|].
    apply in_app_or in Htr. destruct Htr as [Htr|[<-|[]]].
    + eapply H6; eassumption.
    + simpl in E. congruence.
  - intros tr1 tr2 Ht1 Ht2 O1 O2 E.
    apply in_app_or in Ht1, Ht2.
    destruct Ht1 as [Ht1|[<-|[]]]; destruct Ht2 as [Ht2|[<-|[]]].
    + apply H7; assumption.
    + simpl in E. exfalso. exact (Hnone tr1 Ht1 O1 E).
    + simpl in E. exfalso. exact (Hnone tr2 Ht2 O2 (eq_sym E)).
    + reflexivity.
Qed.

(** Step 5 of [processExit]: closing a transaction. *)
Lemma ledger_ok_close (vs : list Vehicle.t) (ts : list ParkingTransaction.t) (n : Z)
    (p : ParkingTransaction.t -> bool) (e d : Z) (fee : Q) (st : string) :
  ledger_ok vs ts n ->
  ledger_ok vs (updateFirst p (TransactionRepository.applyExit e d fee st) ts) n.
Proof.
  intros (H1 & H2 & H3 & H4 & H5 & H6 & H7).
  assert (Hopen : forall tr,
             In tr (updateFirst p (TransactionRepository.applyExit e d fee st) ts) ->
             ParkingTransaction.is_open tr = true -> In tr ts).
  { intros tr Htr O. apply In_updateFirst in Htr.
    destruct Htr as [(y & _ & _ & ->)|Htr]; [discriminate|exact Htr]. }
  repeat split; auto.
  - rewrite map_key_updateFirst by reflexivity. exact H4.
  - apply In_updateFirst in H. destruct H as [(y & Hy & _ & ->)|H].
    + apply (H5 y Hy).
    + apply (H5 tr H).
  - apply In_updateFirst in H. destruct H as [(y & Hy & _ & ->)|H].
    + apply (H5 y Hy).
    + apply (H5 tr H).
  - intros tr v Htr Hv O E. eapply H6; eauto.
Qed.

(** Step 7 of [processExit]: the vehicle [vid], left without an open
    transaction, is flagged as not parked. *)
Lemma ledger_ok_unpark (vs : list Vehicle.t) (ts : list ParkingTransaction.t) (n vid : Z) :
  ledger_ok vs ts n ->
  (forall tr, In tr ts -> ParkingTransaction.is_open tr = true ->
              ParkingTransaction.vehicle_id tr <> vid) ->
  ledger_ok
    (updateFirst (fun v => Vehicle._id v =? vid) (VehicleRepository.setParked false) vs)
    ts n.
Proof.
  intros (H1 & H2 & H3 & H4 & H5 & H6 & H7) Hnone.
  repeat split; auto.
  - rewrite map_key_updateFirst by apply setParked_id. exact H1.
  - rewrite map_key_updateFirst by apply setParked_plate. exact H2.
  - intros v Hv. apply In_setParked in Hv; [|exact H1].
    destruct Hv as [(y & Hy & _ & ->)|[Hv _]].
    + rewrite setParked_id. apply (H3 y Hy).
    + apply (H3 v Hv).
  - apply (H5 tr H).
  - apply (H5 tr H).
  - intros tr v Htr Hv O E. apply In_setParked in Hv; [|exact H1].
    destruct Hv as [(y & Hy & Hid & ->)|[Hv Hne]].
    + exfalso. apply (Hnone tr Htr O). rewrite E. exact Hid.
    + eapply H6; eassumption.
Qed.

(** ** The services keep the ledger invariant *)



Lemma allocateSpot_store (vehicleType : string) (s : Store) :
  snd (SpotAllocationService.allocateSpot vehicleType s) = s.
Proof.
  unfold SpotAllocationService.allocateSpot, ParkingSpotRepository.findAvailableByTypes.
  unfold bind, lift, gets, throw, ret.
  destruct (SpotAllocator.getEligibleSpotTypes vehicleType); [|reflexivity].
  destruct (List.length a =? 0)%nat; [reflexivity|].
  match goal with |- context [(List.length ?l =? 0)%nat] => destruct (List.length l =? 0)%nat end;
    [reflexivity|].
  destruct (SpotAllocator.selectOptimalSpot _ _); reflexivity.
Qed.


Lemma find_plate_none (plate : string) (vs : list Vehicle.t) :
  find (fun v => (Vehicle.license_plate v =? plate)%string) vs = None ->
  ~ In plate (map Vehicle.license_plate vs).
Proof.
  intros Hnone Hin. apply in_map_iff in Hin. destruct Hin as (v & E & Hv).
  apply (find_none _ _ Hnone) in Hv. simpl in Hv. rewrite E, String.eqb_refl in Hv.
  discriminate.
Qed.

Lemma processEntry_consistent (entryData : EntryService.entryData_t) (now : Z) (s : Store) :
  consistent s -> consistent (snd (EntryService.processEntry entryData now s)).
Proof.
  intros Hs. unfold EntryService.processEntry.
  unfold bind at 1. unfold VehicleRepository.findByLicensePlate at 1. unfold gets at 1.
  destruct (find _ (vehicles s)) as [v|] eqn:Efind.
  - unfold bind at 1.
    destruct (Vehicle.is_currently_parked v) eqn:Eflag; [exact Hs|].
    unfold ret at 1. unfold bind at 1. unfold ret at 1. unfold bind at 1.
    pose proof (allocateSpot_store (EntryService.vehicle_type entryData) s) as Ealloc.
    destruct (SpotAllocationService.allocateSpot (EntryService.vehicle_type entryData) s)
      as [[[spot|]|e] s1]; simpl in Ealloc; subst s1; try exact Hs.
    apply find_some in Efind. destruct Efind as [Hv _].
    assert (Hs' := Hs). destruct Hs' as (_ & _ & H3 & _ & _ & H6 & _).
    entry_commit.
    all: apply ledger_ok_open; [exact Hs|apply (H3 v Hv)|].
    all: intros tr Htr O E; specialize (H6 tr v Htr Hv O E); congruence.
  - apply find_plate_none in Efind.
    unfold bind at 1. unfold ret at 1. unfold bind at 1.
    unfold VehicleRepository.create, bind at 1. unfold newObjectId at 1.
    match goal with |- context [Vehicle.validate ?x] => destruct (Vehicle.validate x) end.
    + unfold consistent. run_db. apply ledger_ok_next, Hs.
    + unfold bind at 1. unfold modify at 1. unfold ret at 1. unfold bind at 1.
      match goal with |- context [SpotAllocationService.allocateSpot ?ty ?s1] =>
        pose proof (allocateSpot_store ty s1) as Ealloc;
        destruct (SpotAllocationService.allocateSpot ty s1) as [[[spot|]|e] s2];
        simpl in Ealloc; subst s2
      end.
      * entry_commit.
        all: apply ledger_ok_open;
          [apply ledger_ok_create_vehicle; [exact Hs|exact Efind]|simpl; lia|].
        all: intros tr Htr O E; simpl in E; destruct Hs as (_ & _ & _ & _ & H5 & _);
          specialize (H5 tr Htr); lia.
      * unfold consistent. run_db.
        apply ledger_ok_create_vehicle; [exact Hs|exact Efind].
      * unfold consistent. run_db.
        apply ledger_ok_create_vehicle; [exact Hs|exact Efind].
Qed.

(** Closing the open transaction [findActiveByVehicleId] returns leaves the
    vehicle without an open transaction. *)
Lemma no_open_after_close (vs : list Vehicle.t) (ts : list ParkingTransaction.t)
    (n vid e d : Z) (fee : Q) (st : string) (tr0 : ParkingTransaction.t) :
  ledger_ok vs ts n ->
  find (fun tr => (ParkingTransaction.vehicle_id tr =? vid) && ParkingTransaction.is_open tr)
       ts = Some tr0 ->
  forall tr,
    In tr (updateFirst (fun tr => ParkingTransaction._id tr =? ParkingTransaction._id tr0)
                       (TransactionRepository.applyExit e d fee st) ts) ->
    ParkingTransaction.is_open tr = true ->
    ParkingTransaction.vehicle_id tr <> vid.
Proof.
  intros (_ & _ & _ & H4 & _ & _ & H7) Hfind tr Htr O E.
  apply find_some in Hfind. destruct Hfind as [H0 P0].
  apply andb_true_iff in P0. destruct P0 as [V0 O0]. apply Z.eqb_eq in V0.
  destruct (@In_updateFirst_unique _ _ ParkingTransaction._id
              (fun tr => ParkingTransaction._id tr =? ParkingTransaction._id tr0)
              (TransactionRepository.applyExit e d fee st)
              (ParkingTransaction._id tr0) (fun x => Z.eqb_eq _ _) ts tr H4 Htr)
    as [(y & _ & _ & ->)|[Htr' Hne]]; [discriminate|].
  apply Hne. f_equal. apply H7; congruence.
Qed.

Lemma processExit_consistent (license_plate : string) (now : Z) (s : Store) :
  consistent s -> consistent (snd (ExitService.processExit license_plate now s)).
Proof.
  intros Hs. unfold ExitService.processExit.
  unfold bind at 1. unfold VehicleRepository.findByLicensePlate at 1. unfold gets at 1.
  destruct (find _ (vehicles s)) as [v|] eqn:Efind; [|exact Hs].
  destruct (Vehicle.is_currently_parked v) eqn:Eflag; [|exact Hs]. cbn [negb].
  unfold bind at 1. unfold TransactionRepository.findActiveByVehicleId at 1. unfold gets at 1.
  destruct (find _ (parkingTransactions s)) as [tr0|] eqn:Etr; [|exact Hs].
  unfold bind at 1. unfold RateCardRepository.findByVehicleType at 1. unfold gets at 1.
  destruct (find _ (rateCards s)) as [rc|]; [|exact Hs].
  unfold bind at 1. unfold lift at 1.
  destruct (FeeCalculationService.calculateFee _ _ _ _) as [fee|e]; [|exact Hs].
  unfold TransactionRepository.updateExit.
  destruct (FeeCalculator.duration_minutes fee <? 0); [exact Hs|].
  destruct (negb (Qle_bool 0 (FeeCalculator.parking_fee fee))); [exact Hs|].
  change (includes TransactionRepository.paymentStatusEnum "PENDING") with true. cbn [negb].
  unfold ParkingSpotRepository.updateStatus, VehicleRepository.updateParkingStatus,
    ParkingLotRepository.findDefault, ParkingLotRepository.decrementOccupiedSpots.
  change (includes ParkingSpot.statusEnum "AVAILABLE") with true. cbn [negb].
  unfold consistent. run_db.
  destruct (find _ (parkingSpots s)) as [spot|]; run_db.
  - destruct (hd_error (parkingLots s)); run_db;
      destruct (option_map _ _); run_db;
      (apply ledger_ok_unpark;
       [apply ledger_ok_close, Hs|eapply no_open_after_close; [exact Hs|exact Etr]]).
  - apply ledger_ok_close, Hs.
Qed.

Lemma handle_consistent (r : request) (s : Store) : consistent s -> consistent (handle r s).
Proof.
  destruct r; simpl; [apply processEntry_consistent|apply processExit_consistent].
Qed.

Lemma run_consistent (history : list request) (s : Store) :
  consistent s -> consistent (run history s).
Proof.
  revert s. induction history as [|r h IH]; intros s Hs; [exact Hs|].
  apply (IH (handle r s)), handle_consistent, Hs.
Qed.

Lemma provisioned_consistent (s : Store) : provisioned s -> consistent s.
Proof.
  intros [Hv Ht]. unfold consistent. rewrite Hv, Ht.
  repeat split; try constructor; intros; contradiction.
Qed.

Lemma reachable_consistent (s : Store) : reachable s -> consistent s.
Proof.
  intros (s0 & history & H0 & ->). apply run_consistent, provisioned_consistent, H0.
Qed.

(** ** services/entryService.js, services/exitService.js, repositories/parkingSpotRepository.js *)


Lemma NoDup_map_eq {A B : Type} (f : A -> B) (l : list A) (a b : A) :
  NoDup (map f l) -> In a l -> In b l -> f a = f b -> a = b.
Proof.
  induction l as [|x t IH]; simpl; [tauto|].
  intros Hnd Ha Hb E. inversion Hnd as [|? ? Hnotin Hnd']; subst.
  destruct Ha as [<-|Ha]; destruct Hb as [<-|Hb]; auto.
  - exfalso. apply Hnotin. rewrite E. apply in_map, Hb.
  - exfalso. apply Hnotin. rewrite <- E. apply in_map, Ha.
Qed.

Lemma find_In_some {A : Type} (p : A -> bool) (l : list A) (x : A) :
  In x l -> p x = true -> exists y, find p l = Some y.
Proof.
  intros Hx Hp. destruct (find p l) as [y|] eqn:E; [exists y; reflexivity|].
  rewrite (find_none _ _ E x Hx) in Hp. discriminate.
Qed.

(** C8. In every database the entry and exit services produce from a
    provisioned lot, for every recorded vehicle that holds an OPEN
    transaction, an entry request carrying the license plate of that vehicle
    throws the [AppError] 409 VEHICLE_ALREADY_PARKED and leaves the database
    as it was: the open transaction, the spots, the vehicle record and every
    other document. *)
Theorem processEntry_already_parked (s : Store) (entryData : EntryService.entryData_t)
    (now : Z) (vehicle : Vehicle.t) :
  reachable s ->
  In vehicle (vehicles s) ->
  Vehicle.license_plate vehicle = toUpperCase (EntryService.license_plate entryData) ->
  holds_open_transaction s vehicle ->
  exists message,
    EntryService.processEntry entryData now s
    = (Throw (AppError message 409 "VEHICLE_ALREADY_PARKED"), s).
Proof.
  intros Hreach Hin Hplate (tr & Htr & Hvid & Hopen).
  apply reachable_consistent in Hreach. destruct Hreach as (_ & H2 & _ & _ & _ & H6 & _).
  assert (Hflag : Vehicle.is_currently_parked vehicle = true).
  { apply (H6 tr vehicle Htr Hin); [|exact Hvid].
    unfold ParkingTransaction.is_open. rewrite Hopen. reflexivity. }
  assert (Hfind : find (fun v => (Vehicle.license_plate v
                                  =? toUpperCase (EntryService.license_plate entryData))%string)
                       (vehicles s) = Some vehicle).
  { destruct (@find_In_some _
                (fun v => (Vehicle.license_plate v
                           =? toUpperCase (EntryService.license_plate entryData))%string)
                (vehicles s) vehicle Hin) as (v' & Hv').
    - simpl. rewrite Hplate. apply String.eqb_refl.
    - rewrite Hv'. f_equal. apply find_some in Hv'. destruct Hv' as [Hin' E].
      apply String.eqb_eq in E.
      apply (@NoDup_map_eq _ _ Vehicle.license_plate (vehicles s)); congruence. }
  eexists. unfold EntryService.processEntry.
  unfold bind at 1. unfold VehicleRepository.findByLicensePlate at 1. unfold gets at 1.
  rewrite Hfind. unfold bind at 1. rewrite Hflag. reflexivity.
Qed.

Lemma processEntry_already_parked_witness :
  reachable demo_parked
  /\ In (Vehicle.mk 100 "KA01AB1234" "CAR" None None true) (vehicles demo_parked)
  /\ "KA01AB1234" = toUpperCase (EntryService.license_plate demo_entry)
  /\ holds_open_transaction demo_parked (Vehicle.mk 100 "KA01AB1234" "CAR" None None true)
  /\ exists message,
       EntryService.processEntry demo_entry 1769076060000 demo_parked
       = (Throw (AppError message 409 "VEHICLE_ALREADY_PARKED"), demo_parked).
Proof.
  assert (R : reachable demo_parked).
  { exists demo_store, [Entry demo_entry 1769076000000].
    split; [split; reflexivity|reflexivity]. }
  assert (I : In (Vehicle.mk 100 "KA01AB1234" "CAR" None None true) (vehicles demo_parked)).
  { vm_compute. left. reflexivity. }
  assert (O : holds_open_transaction demo_parked
                (Vehicle.mk 100 "KA01AB1234" "CAR" None None true)).
  { exists (ParkingTransaction.mk 101 100 1 1769076000000 None None None "PENDING" None).
    vm_compute. repeat split. left. reflexivity. }
  split; [exact R|]. split; [exact I|]. split; [reflexivity|]. split; [exact O|].
  apply (processEntry_already_parked demo_entry 1769076060000 R I); [reflexivity|exact O].
Defined.

(** C9, as amended. For every vehicle the lookup by license plate finds and
    that holds no OPEN transaction, an exit request throws an [AppError] and
    leaves the database as it was: ALREADY_EXITED with status 409 when the
    vehicle record is not flagged as parked (step 2), TRANSACTION_NOT_FOUND
    with status 404 when it is (step 3). *)
Theorem processExit_without_open_transaction (s : Store) (license_plate : string)
    (now : Z) (vehicle : Vehicle.t) :
  fst (VehicleRepository.findByLicensePlate license_plate s) = Return (Some vehicle) ->
  ~ holds_open_transaction s vehicle ->
  ExitService.processExit license_plate now s
  = (Throw (if Vehicle.is_currently_parked vehicle
            then AppError ("No active parking transaction found for vehicle " ++ license_plate)
                          404 "TRANSACTION_NOT_FOUND"
            else AppError ("Vehicle " ++ license_plate ++ " is not currently parked")
                          409 "ALREADY_EXITED"), s).
Proof.
  intros Hfind Hnone. unfold VehicleRepository.findByLicensePlate, gets in Hfind.
  simpl in Hfind. injection Hfind as Hfind.
  unfold ExitService.processExit.
  unfold bind at 1. unfold VehicleRepository.findByLicensePlate at 1. unfold gets at 1.
  rewrite Hfind.
  destruct (Vehicle.is_currently_parked vehicle); cbn [negb]; [|reflexivity].
  unfold bind at 1. unfold TransactionRepository.findActiveByVehicleId at 1. unfold gets at 1.
  destruct (find _ (parkingTransactions s)) as [tr|] eqn:E; [|reflexivity].
  exfalso. apply Hnone. apply find_some in E. destruct E as [Hin P].
  apply andb_true_iff in P. destruct P as [V O]. apply Z.eqb_eq in V.
  exists tr. repeat split; [exact Hin|exact V|].
  unfold ParkingTransaction.is_open in O.
  destruct (ParkingTransaction.exit_time tr); [discriminate|reflexivity].
Qed.

(** The release of [processExit], step 6, on a spot of the collection. *)
Lemma updateStatus_release_run (s : Store) (spotId : ObjectId) (spot : ParkingSpot.t) :
  find (fun sp => ParkingSpot._id sp =? spotId) (parkingSpots s) = Some spot ->
  ParkingSpotRepository.updateStatus spotId "AVAILABLE" None s
  = (Return (Some (ParkingSpotRepository.applyUpdate "AVAILABLE" None spot)),
     set_parkingSpots
       (updateFirst (fun sp => ParkingSpot._id sp =? spotId)
                    (ParkingSpotRepository.applyUpdate "AVAILABLE" None)) s).
Proof.
  intros Hfind. unfold ParkingSpotRepository.updateStatus.
  change (includes ParkingSpot.statusEnum "AVAILABLE") with true. cbn [negb].
  unfold bind, gets, modify, ret. rewrite Hfind. reflexivity.
Qed.

Lemma In_updateFirst_image {A : Type} (p : A -> bool) (f : A -> A) (l : list A) (x : A) :
  find p l = Some x -> In (f x) (updateFirst p f l).
Proof.
  induction l as [|a t IH]; simpl; [discriminate|].
  destruct (p a); [intros [= ->]; left; reflexivity|intros H; right; apply IH, H].
Qed.

Lemma In_updateFirst_other {A : Type} (p : A -> bool) (f : A -> A) (l : list A) (x : A) :
  In x l -> p x = false -> In x (updateFirst p f l).
Proof.
  induction l as [|a t IH]; simpl; [tauto|].
  intros [<-|H] Hp.
  - rewrite Hp. left. reflexivity.
  - destruct (p a); right; [exact H|apply IH; assumption].
Qed.

(** C6. What the release at exit does to an OCCUPIED spot. For every spot of
    the collection with status OCCUPIED and occupant [vehicleId],
    [updateStatus(spotId, 'AVAILABLE', null)] returns the updated spot, now
    AVAILABLE, and its [current_vehicle_id] is still [vehicleId]: a [null]
    argument leaves the field out of the update, so the occupant is not
    cleared. *)
Theorem release_keeps_occupant (s : Store) (spotId vehicleId : ObjectId)
    (spot : ParkingSpot.t) :
  fst (ParkingSpotRepository.findById spotId s) = Return (Some spot) ->
  ParkingSpot.status spot = "OCCUPIED" ->
  ParkingSpot.current_vehicle_id spot = Some vehicleId ->
  exists released s',
    ParkingSpotRepository.updateStatus spotId "AVAILABLE" None s
    = (Return (Some released), s')
    /\ In released (parkingSpots s')
    /\ ParkingSpot.status released = "AVAILABLE"
    /\ ParkingSpot.current_vehicle_id released = Some vehicleId.
Proof.
  intros Hfind _ Hocc. unfold ParkingSpotRepository.findById, gets in Hfind.
  simpl in Hfind. injection Hfind as Hfind.
  do 2 eexists. split; [apply updateStatus_release_run, Hfind|].
  split; [apply In_updateFirst_image, Hfind|].
  split; [reflexivity|]. simpl. exact Hocc.
Qed.

Lemma release_keeps_occupant_witness :
  fst (ParkingSpotRepository.findById 1 demo_parked)
  = Return (Some (ParkingSpot.mk 1 1 1 "CAR" "OCCUPIED" (Some 100)))
  /\ parkingSpots demo_exited
     = [ParkingSpot.mk 1 1 1 "CAR" "AVAILABLE" (Some 100);
        ParkingSpot.mk 2 1 2 "BUS" "MAINTENANCE" None]
  /\ exists released s',
       ParkingSpotRepository.updateStatus 1 "AVAILABLE" None demo_parked
       = (Return (Some released), s')
       /\ In released (parkingSpots s')
       /\ ParkingSpot.status released = "AVAILABLE"
       /\ ParkingSpot.current_vehicle_id released = Some 100.
Proof.
  split; [reflexivity|]. split; [reflexivity|].
  apply (@release_keeps_occupant demo_parked 1 100
           (ParkingSpot.mk 1 1 1 "CAR" "OCCUPIED" (Some 100))); reflexivity.
Defined.

(** C7, counterexample. Spot 2 of the demo lot is under MAINTENANCE; its
    release is not rejected: [updateStatus] returns the spot, and the stored
    spot has become AVAILABLE. *)
Lemma release_rejects_unoccupied_counterexample :
  fst (ParkingSpotRepository.findById 2 demo_store)
  = Return (Some (ParkingSpot.mk 2 1 2 "BUS" "MAINTENANCE" None))
  /\ ParkingSpotRepository.updateStatus 2 "AVAILABLE" None demo_store
     = (Return (Some (ParkingSpot.mk 2 1 2 "BUS" "AVAILABLE" None)),
        mkStore []
          [ParkingSpot.mk 1 1 1 "CAR" "AVAILABLE" None;
           ParkingSpot.mk 2 1 2 "BUS" "AVAILABLE" None]
          [] [car_rate_card] [ParkingLot.mk 10 "Main" 1 2 0 1 1 0 0 0] 100)
  /\ ~ (exists e, ParkingSpotRepository.updateStatus 2 "AVAILABLE" None demo_store
                  = (Throw e, demo_store)).
Proof.
  split; [reflexivity|]. split; [reflexivity|].
  intros (e & H). discriminate H.
Qed.

(** C7, as amended. [updateStatus] does not look at the current status: for
    every spot of the collection that is not OCCUPIED, the release
    [updateStatus(spotId, 'AVAILABLE', null)] succeeds and returns the spot
    with status AVAILABLE and the same id, floor, number and type; the
    returned spot is the stored one, the spots with another id stay in the
    collection as they were, and no other collection changes. *)
Theorem release_unconditional (s : Store) (spotId : ObjectId) (spot : ParkingSpot.t) :
  fst (ParkingSpotRepository.findById spotId s) = Return (Some spot) ->
  ParkingSpot.status spot <> "OCCUPIED" ->
  exists released s',
    ParkingSpotRepository.updateStatus spotId "AVAILABLE" None s
    = (Return (Some released), s')
    /\ ParkingSpot.status released = "AVAILABLE"
    /\ ParkingSpot._id released = ParkingSpot._id spot
    /\ ParkingSpot.floor_number released = ParkingSpot.floor_number spot
    /\ ParkingSpot.spot_number released = ParkingSpot.spot_number spot
    /\ ParkingSpot.spot_type released = ParkingSpot.spot_type spot
    /\ In released (parkingSpots s')
    /\ (forall other, In other (parkingSpots s) -> ParkingSpot._id other <> spotId ->
                      In other (parkingSpots s'))
    /\ vehicles s' = vehicles s
    /\ parkingTransactions s' = parkingTransactions s
    /\ rateCards s' = rateCards s
    /\ parkingLots s' = parkingLots s
    /\ nextObjectId s' = nextObjectId s.
Proof.
  intros Hfind _. unfold ParkingSpotRepository.findById, gets in Hfind.
  simpl in Hfind. injection Hfind as Hfind.
  do 2 eexists. split; [apply updateStatus_release_run, Hfind|].
  do 5 (split; [reflexivity|]).
  split; [apply In_updateFirst_image, Hfind|].
  split; [|repeat split].
  intros other Hin Hne. apply In_updateFirst_other; [exact Hin|].
  apply Z.eqb_neq, Hne.
Qed.

Lemma release_unconditional_witness :
  fst (ParkingSpotRepository.findById 2 demo_store)
  = Return (Some (ParkingSpot.mk 2 1 2 "BUS" "MAINTENANCE" None))
  /\ "MAINTENANCE" <> "OCCUPIED"
  /\ exists released s',
       ParkingSpotRepository.updateStatus 2 "AVAILABLE" None demo_store
       = (Return (Some released), s')
       /\ ParkingSpot.status released = "AVAILABLE".
Proof.
  split; [reflexivity|]. split; [discriminate|].
  destruct (@release_unconditional demo_store 2
              (ParkingSpot.mk 2 1 2 "BUS" "MAINTENANCE" None) eq_refl)
    as (released & s' & E & St & _).
  - discriminate.
  - exists released, s'. split; assumption.
Defined.

(** C9, counterexample. After one entry and one exit the vehicle KA01AB1234
    is known and holds no OPEN transaction; a second exit request throws
    ALREADY_EXITED (409), not TRANSACTION_NOT_FOUND. *)
Lemma processExit_transaction_not_found_counterexample :
  reachable demo_exited
  /\ fst (VehicleRepository.findByLicensePlate "KA01AB1234" demo_exited)
     = Return (Some (Vehicle.mk 100 "KA01AB1234" "CAR" None None false))
  /\ ~ holds_open_transaction demo_exited (Vehicle.mk 100 "KA01AB1234" "CAR" None None false)
  /\ ExitService.processExit "KA01AB1234" 1769085400000 demo_exited
     = (Throw (AppError "Vehicle KA01AB1234 is not currently parked" 409 "ALREADY_EXITED"),
        demo_exited)
  /\ ~ (exists e, fst (ExitService.processExit "KA01AB1234" 1769085400000 demo_exited)
                  = Throw e
                  /\ errorCode_of e = Some "TRANSACTION_NOT_FOUND").
Proof.
  split.
  { exists demo_store, [Entry demo_entry 1769076000000; Exit "KA01AB1234" 1769085300000].
    split; [split; reflexivity|reflexivity]. }
  split; [reflexivity|]. split.
  { intros (tr & Hin & _ & Hopen). vm_compute in Hin.
    destruct Hin as [<-|[]]. discriminate Hopen. }
  split; [reflexivity|].
  intros (e & He & Hc). vm_compute in He. injection He as <-. discriminate Hc.
Qed.

(** The vehicle that has exited gets ALREADY_EXITED, 409; the same vehicle
    on a record flagged as parked, still without an OPEN transaction, gets
    TRANSACTION_NOT_FOUND, 404. *)
Lemma processExit_without_open_transaction_witness :
  let flagged :=
    set_vehicles (fun _ => [Vehicle.mk 100 "KA01AB1234" "CAR" None None true]) demo_exited in
  ExitService.processExit "KA01AB1234" 1769085400000 demo_exited
  = (Throw (AppError "Vehicle KA01AB1234 is not currently parked" 409 "ALREADY_EXITED"),
     demo_exited)
  /\ ExitService.processExit "KA01AB1234" 1769085400000 flagged
     = (Throw (AppError "No active parking transaction found for vehicle KA01AB1234"
                        404 "TRANSACTION_NOT_FOUND"), flagged).
Proof.
  cbv zeta. split.
  - apply (@processExit_without_open_transaction demo_exited "KA01AB1234" 1769085400000
             (Vehicle.mk 100 "KA01AB1234" "CAR" None None false) eq_refl).
    intros (tr & Hin & _ & Hopen). vm_compute in Hin.
    destruct Hin as [<-|[]]. discriminate Hopen.
  - apply (@processExit_without_open_transaction
             (set_vehicles (fun _ => [Vehicle.mk 100 "KA01AB1234" "CAR" None None true])
                           demo_exited)
             "KA01AB1234" 1769085400000
             (Vehicle.mk 100 "KA01AB1234" "CAR" None None true) eq_refl).
    intros (tr & Hin & _ & Hopen). vm_compute in Hin.
    destruct Hin as [<-|[]]. discriminate Hopen.
Defined.

(** * Further properties of the code *)

(** ** Array.prototype.sort: the result is a sorted permutation *)
Section ArraySortSorted.
Variable A : Type.
Variable comparefn : A -> A -> Z.
Let before (a b : A) : Prop := comparefn a b <= 0.

Lemma sort_insert_Permutation (x : A) (l : list A) :
  Permutation (x :: l) (sort_insert comparefn x l).
Proof.
  induction l as [|y t IH]; simpl; [apply Permutation_refl|].
  destruct (comparefn x y <=? 0); [apply Permutation_refl|].
  eapply perm_trans; [apply perm_swap|]. apply perm_skip, IH.
Qed.

Lemma Array_sort_Permutation (l : list A) : Permutation l (Array_sort comparefn l).
Proof.
  induction l as [|x t IH]; simpl; [constructor|].
  eapply perm_trans; [apply perm_skip, IH|]. apply sort_insert_Permutation.
Qed.

Hypothesis comparefn_total : forall a b, 0 < comparefn a b -> comparefn b a <= 0.
Hypothesis comparefn_trans :
  forall a b c, comparefn a b <= 0 -> comparefn b c <= 0 -> comparefn a c <= 0.

Lemma sort_insert_sorted (x : A) (l : list A) :
  StronglySorted before l -> StronglySorted before (sort_insert comparefn x l).
Proof.
  induction l as [|y t IH]; simpl; intros Hs.
  - constructor; constructor.
  - inversion Hs as [|? ? Ht Hy]; subst.
    destruct (comparefn x y <=? 0) eqn:C.
    + apply Z.leb_le in C. constructor; [exact Hs|].
      constructor; [exact C|].
      rewrite Forall_forall in *. intros z Hz. eapply comparefn_trans; [exact C|].
      apply Hy, Hz.
    + apply Z.leb_gt in C. constructor; [apply IH, Ht|].
      rewrite Forall_forall in *. intros z Hz.
      apply (Permutation_in _ (Permutation_sym (sort_insert_Permutation x t))) in Hz.
      destruct Hz as [<-|Hz]; [apply comparefn_total, C|apply Hy, Hz].
Qed.

Lemma Array_sort_sorted (l : list A) : StronglySorted before (Array_sort comparefn l).
Proof.
  induction l as [|x t IH]; simpl; [constructor|]. apply sort_insert_sorted, IH.
Qed.
End ArraySortSorted.

Lemma StronglySorted_weaken {A : Type} (R R' : A -> A -> Prop) (l : list A) :
  (forall a b, R a b -> R' a b) -> StronglySorted R l -> StronglySorted R' l.
Proof.
  intros HR H. induction H as [|a t Ht IH Ha]; constructor; [exact IH|].
  rewrite Forall_forall in *. intros y Hy. apply HR, Ha, Hy.
Qed.

Lemma compareSpots_total (a b : ParkingSpot.t) :
  0 < SpotAllocator.compareSpots a b -> SpotAllocator.compareSpots b a <= 0.
Proof.
  intros H. apply compareSpots_precedes.
  destruct (precedes_total a b) as [Hab|Hba]; [|exact Hba].
  apply compareSpots_precedes in Hab. lia.
Qed.

Lemma compareSpots_trans (a b c : ParkingSpot.t) :
  SpotAllocator.compareSpots a b <= 0 -> SpotAllocator.compareSpots b c <= 0 ->
  SpotAllocator.compareSpots a c <= 0.
Proof.
  rewrite !compareSpots_precedes. apply precedes_trans.
Qed.

(** X1. For spots whose type names no member of [Object.prototype],
    [sortSpotsByPriority] rearranges the spots it is given and loses or
    invents none: its result is a permutation of the argument, and in the
    result every spot comes before every later one in the order of the
    allocation policy: ascending floor, then ascending size of the spot type
    (MOTORCYCLE 1, CAR 2, BUS 3, any other type 999), then ascending spot
    number. *)
Theorem sortSpotsByPriority_sorted_permutation (spots : list ParkingSpot.t) :
  (forall spot, In spot spots -> ~ In (ParkingSpot.spot_type spot) Object_prototype_keys) ->
  let size := fun spot =>
    if (ParkingSpot.spot_type spot =? "MOTORCYCLE")%string then 1
    else if (ParkingSpot.spot_type spot =? "CAR")%string then 2
    else if (ParkingSpot.spot_type spot =? "BUS")%string then 3
    else 999 in
  let before := fun a b =>
    ParkingSpot.floor_number a < ParkingSpot.floor_number b
    \/ (ParkingSpot.floor_number a = ParkingSpot.floor_number b
        /\ (size a < size b
            \/ (size a = size b /\ ParkingSpot.spot_number a <= ParkingSpot.spot_number b))) in
  Permutation spots (SpotAllocator.sortSpotsByPriority spots)
  /\ StronglySorted before (SpotAllocator.sortSpotsByPriority spots).
Proof.
  intros _. cbv zeta.
  split; [apply Array_sort_Permutation|].
  eapply StronglySorted_weaken;
    [|apply (@Array_sort_sorted _ SpotAllocator.compareSpots
               compareSpots_total compareSpots_trans spots)].
  intros a b H. apply compareSpots_precedes in H. exact H.
Qed.

Lemma sortSpotsByPriority_sorted_permutation_witness :
  SpotAllocator.sortSpotsByPriority
    [ParkingSpot.mk 1 2 1 "MOTORCYCLE" "AVAILABLE" None;
     ParkingSpot.mk 2 1 5 "BUS" "AVAILABLE" None;
     ParkingSpot.mk 3 1 7 "CAR" "AVAILABLE" None;
     ParkingSpot.mk 4 1 9 "VAN" "AVAILABLE" None;
     ParkingSpot.mk 5 1 6 "CAR" "AVAILABLE" None;
     ParkingSpot.mk 6 1 8 "MOTORCYCLE" "AVAILABLE" None]
  = [ParkingSpot.mk 6 1 8 "MOTORCYCLE" "AVAILABLE" None;
     ParkingSpot.mk 5 1 6 "CAR" "AVAILABLE" None;
     ParkingSpot.mk 3 1 7 "CAR" "AVAILABLE" None;
     ParkingSpot.mk 2 1 5 "BUS" "AVAILABLE" None;
     ParkingSpot.mk 4 1 9 "VAN" "AVAILABLE" None;
     ParkingSpot.mk 1 2 1 "MOTORCYCLE" "AVAILABLE" None]
  /\ StronglySorted
       (fun a b =>
          ParkingSpot.floor_number a < ParkingSpot.floor_number b
          \/ (ParkingSpot.floor_number a = ParkingSpot.floor_number b
              /\ ((if (ParkingSpot.spot_type a =? "MOTORCYCLE")%string then 1
                   else if (ParkingSpot.spot_type a =? "CAR")%string then 2
                   else if (ParkingSpot.spot_type a =? "BUS")%string then 3
                   else 999)
                  < (if (ParkingSpot.spot_type b =? "MOTORCYCLE")%string then 1
                     else if (ParkingSpot.spot_type b =? "CAR")%string then 2
                     else if (ParkingSpot.spot_type b =? "BUS")%string then 3
                     else 999)
                  \/ ((if (ParkingSpot.spot_type a =? "MOTORCYCLE")%string then 1
                       else if (ParkingSpot.spot_type a =? "CAR")%string then 2
                       else if (ParkingSpot.spot_type a =? "BUS")%string then 3
                       else 999)
                      = (if (ParkingSpot.spot_type b =? "MOTORCYCLE")%string then 1
                         else if (ParkingSpot.spot_type b =? "CAR")%string then 2
                         else if (ParkingSpot.spot_type b =? "BUS")%string then 3
                         else 999)
                      /\ ParkingSpot.spot_number a <= ParkingSpot.spot_number b))))
       [ParkingSpot.mk 6 1 8 "MOTORCYCLE" "AVAILABLE" None;
        ParkingSpot.mk 5 1 6 "CAR" "AVAILABLE" None;
        ParkingSpot.mk 3 1 7 "CAR" "AVAILABLE" None;
        ParkingSpot.mk 2 1 5 "BUS" "AVAILABLE" None;
        ParkingSpot.mk 4 1 9 "VAN" "AVAILABLE" None;
        ParkingSpot.mk 1 2 1 "MOTORCYCLE" "AVAILABLE" None].
Proof.
  assert (E : SpotAllocator.sortSpotsByPriority
                [ParkingSpot.mk 1 2 1 "MOTORCYCLE" "AVAILABLE" None;
                 ParkingSpot.mk 2 1 5 "BUS" "AVAILABLE" None;
                 ParkingSpot.mk 3 1 7 "CAR" "AVAILABLE" None;
                 ParkingSpot.mk 4 1 9 "VAN" "AVAILABLE" None;
                 ParkingSpot.mk 5 1 6 "CAR" "AVAILABLE" None;
                 ParkingSpot.mk 6 1 8 "MOTORCYCLE" "AVAILABLE" None]
              = [ParkingSpot.mk 6 1 8 "MOTORCYCLE" "AVAILABLE" None;
                 ParkingSpot.mk 5 1 6 "CAR" "AVAILABLE" None;
                 ParkingSpot.mk 3 1 7 "CAR" "AVAILABLE" None;
                 ParkingSpot.mk 2 1 5 "BUS" "AVAILABLE" None;
                 ParkingSpot.mk 4 1 9 "VAN" "AVAILABLE" None;
                 ParkingSpot.mk 1 2 1 "MOTORCYCLE" "AVAILABLE" None])
    by (vm_compute; reflexivity).
  split; [exact E|]. rewrite <- E.
  apply (@sortSpotsByPriority_sorted_permutation
           [ParkingSpot.mk 1 2 1 "MOTORCYCLE" "AVAILABLE" None;
            ParkingSpot.mk 2 1 5 "BUS" "AVAILABLE" None;
            ParkingSpot.mk 3 1 7 "CAR" "AVAILABLE" None;
            ParkingSpot.mk 4 1 9 "VAN" "AVAILABLE" None;
            ParkingSpot.mk 5 1 6 "CAR" "AVAILABLE" None;
            ParkingSpot.mk 6 1 8 "MOTORCYCLE" "AVAILABLE" None]).
  intros spot Hin Hkey. simpl in Hin.
  repeat (destruct Hin as [<-|Hin]; [vm_compute in Hkey; intuition discriminate|]).
  exact Hin.
Defined.

Lemma eligible_iff_priority (vehicleType spotType : string) (eligibleTypes : list string) :
  In vehicleType ["MOTORCYCLE"; "CAR"; "BUS"] ->
  SpotAllocator.getEligibleSpotTypes vehicleType = Return eligibleTypes ->
  (In spotType eligibleTypes
   <-> In spotType ["MOTORCYCLE"; "CAR"; "BUS"]
       /\ SpotAllocator.getSpotTypePriority vehicleType
          <= SpotAllocator.getSpotTypePriority spotType).
Proof.
  simpl. intros [<-|[<-|[<-|[]]]] [= <-]; simpl; split.
  all: try (intros [<-|[<-|[<-|[]]]]; vm_compute; intuition congruence).
  all: try (intros [<-|[<-|[]]]; vm_compute; intuition congruence).
  all: try (intros [<-|[]]; vm_compute; intuition congruence).
  all: intros [[<-|[<-|[<-|[]]]] H]; vm_compute in H; try tauto; try congruence.
Qed.

(** X2. For a vehicle type of the enumeration, [getEligibleSpotTypes]
    returns exactly the spot types of the enumeration that are at least as
    large as the vehicle, sizes being compared by [getSpotTypePriority]
    (MOTORCYCLE < CAR < BUS). *)
Theorem eligible_types_follow_size_hierarchy (vehicleType spotType : string) :
  In vehicleType ["MOTORCYCLE"; "CAR"; "BUS"] ->
  exists eligibleTypes,
    SpotAllocator.getEligibleSpotTypes vehicleType = Return eligibleTypes
    /\ (In spotType eligibleTypes
        <-> In spotType ["MOTORCYCLE"; "CAR"; "BUS"]
            /\ SpotAllocator.getSpotTypePriority vehicleType
               <= SpotAllocator.getSpotTypePriority spotType).
Proof.
  intros Hvt. destruct (getEligibleSpotTypes_valid Hvt) as (_ & el & HE & _).
  exists el. split; [exact HE|]. apply eligible_iff_priority; assumption.
Qed.

Lemma eligible_types_follow_size_hierarchy_witness :
  In "CAR" ["MOTORCYCLE"; "CAR"; "BUS"]
  /\ exists eligibleTypes,
       SpotAllocator.getEligibleSpotTypes "CAR" = Return eligibleTypes
       /\ (In "MOTORCYCLE" eligibleTypes
           <-> In "MOTORCYCLE" ["MOTORCYCLE"; "CAR"; "BUS"]
               /\ SpotAllocator.getSpotTypePriority "CAR"
                  <= SpotAllocator.getSpotTypePriority "MOTORCYCLE").
Proof.
  assert (H : In "CAR" ["MOTORCYCLE"; "CAR"; "BUS"]) by (simpl; tauto).
  split; [exact H|]. exact (@eligible_types_follow_size_hierarchy "CAR" "MOTORCYCLE" H).
Defined.

Lemma getEligibleSpotTypes_invalid (vehicleType : string) :
  ~ In vehicleType ["MOTORCYCLE"; "CAR"; "BUS"] ->
  SpotAllocator.getEligibleSpotTypes vehicleType
  = Throw (Error ("Invalid vehicle type: " ++ vehicleType)).
Proof.
  intros H. unfold SpotAllocator.getEligibleSpotTypes.
  destruct (vehicleType =? "MOTORCYCLE")%string eqn:E1;
    [apply String.eqb_eq in E1; subst; exfalso; apply H; simpl; tauto|].
  destruct (vehicleType =? "CAR")%string eqn:E2;
    [apply String.eqb_eq in E2; subst; exfalso; apply H; simpl; tauto|].
  destruct (vehicleType =? "BUS")%string eqn:E3;
    [apply String.eqb_eq in E3; subst; exfalso; apply H; simpl; tauto|].
  reflexivity.
Qed.

(** X3. For a vehicle type outside the enumeration, [selectOptimalSpot]
    returns [null] only when the type is a non-empty string and the list of
    spots is empty (the check of the list comes before the lookup of the
    eligible types); for the empty string, or with at least one spot, it
    throws. *)
Theorem selectOptimalSpot_invalid_vehicle_type (vehicleType : string)
    (spots : list ParkingSpot.t) :
  ~ In vehicleType ["MOTORCYCLE"; "CAR"; "BUS"] ->
  (vehicleType <> "" /\ spots = [] ->
     SpotAllocator.selectOptimalSpot vehicleType spots = Return None)
  /\ (vehicleType = "" \/ spots <> [] ->
        exists e, SpotAllocator.selectOptimalSpot vehicleType spots = Throw e).
Proof.
  intros Hvt. unfold SpotAllocator.selectOptimalSpot.
  rewrite (getEligibleSpotTypes_invalid Hvt). split.
  - intros [Hne ->]. apply String.eqb_neq in Hne. rewrite Hne. reflexivity.
  - intros H. destruct (vehicleType =? "")%string eqn:E; [eexists; reflexivity|].
    apply String.eqb_neq in E. destruct H as [H|H]; [contradiction|].
    destruct spots; [contradiction|]. eexists; reflexivity.
Qed.

Lemma selectOptimalSpot_invalid_vehicle_type_witness :
  ~ In "TRUCK" ["MOTORCYCLE"; "CAR"; "BUS"]
  /\ SpotAllocator.selectOptimalSpot "TRUCK" [] = Return None
  /\ exists e, SpotAllocator.selectOptimalSpot "TRUCK" demo_spots = Throw e.
Proof.
  assert (H : ~ In "TRUCK" ["MOTORCYCLE"; "CAR"; "BUS"]).
  { simpl. intros [C|[C|[C|[]]]]; discriminate C. }
  split; [exact H|].
  destruct (@selectOptimalSpot_invalid_vehicle_type "TRUCK" [] H) as [H1 _].
  destruct (@selectOptimalSpot_invalid_vehicle_type "TRUCK" demo_spots H) as [_ H2].
  split; [apply H1; split; [discriminate|reflexivity]|].
  apply H2. right. discriminate.
Defined.

(** ** getAllocationStats *)

Lemma stats_of_modify_type (ty ty' : string)
    (f : AllocationStats.type_stats -> AllocationStats.type_stats)
    (stats : AllocationStats.t) :
  stats_of (AllocationStats.modify_type ty' f stats) ty
  = if (ty' =? ty)%string then option_map f (stats_of stats ty) else stats_of stats ty.
Proof.
  unfold AllocationStats.modify_type, stats_of.
  destruct (ty' =? "MOTORCYCLE")%string eqn:E1;
    [|destruct (ty' =? "CAR")%string eqn:E2; [|destruct (ty' =? "BUS")%string eqn:E3]];
    cbn [AllocationStats.MOTORCYCLE AllocationStats.CAR AllocationStats.BUS];
    destruct (ty =? "MOTORCYCLE")%string eqn:F1;
    destruct (ty =? "CAR")%string eqn:F2;
    destruct (ty =? "BUS")%string eqn:F3;
    destruct (ty' =? ty)%string eqn:E;
    repeat match goal with
           | H : (_ =? _)%string = true |- _ => apply String.eqb_eq in H
           | H : (_ =? _)%string = false |- _ => apply String.eqb_neq in H
           end;
    subst; try reflexivity; try congruence.
Qed.

Lemma count_type_cons (ty : string) (spot : ParkingSpot.t) (spots : list ParkingSpot.t) :
  count_type ty (spot :: spots)
  = (if (ParkingSpot.spot_type spot =? ty)%string then 1 else 0) + count_type ty spots.
Proof.
  unfold count_type. cbn [filter].
  destruct (ParkingSpot.spot_type spot =? ty)%string; cbn [List.length]; lia.
Qed.

Lemma fold_incAvailable (ty : string) (spots : list ParkingSpot.t) (stats : AllocationStats.t)
    (st : AllocationStats.type_stats) :
  stats_of stats ty = Some st ->
  stats_of (fold_left (fun stats spot =>
                         AllocationStats.modify_type (ParkingSpot.spot_type spot)
                           AllocationStats.incAvailable stats) spots stats) ty
  = Some (AllocationStats.mk_type_stats
            (AllocationStats.available st + count_type ty spots)
            (AllocationStats.occupied st) (AllocationStats.total st)
            (AllocationStats.occupancy_rate st)).
Proof.
  revert stats st. induction spots as [|spot spots IH]; intros stats st Hst; simpl.
  - rewrite Hst. unfold count_type. simpl. rewrite Z.add_0_r. destruct st; reflexivity.
  - rewrite count_type_cons.
    destruct (ParkingSpot.spot_type spot =? ty)%string eqn:E.
    + erewrite IH; [|rewrite stats_of_modify_type, Hst, E; reflexivity].
      destruct st; unfold AllocationStats.incAvailable, AllocationStats.incOccupied;
        cbn [AllocationStats.available AllocationStats.occupied AllocationStats.total
             AllocationStats.occupancy_rate];
        f_equal; f_equal; lia.
    + erewrite IH; [|rewrite stats_of_modify_type, Hst, E; reflexivity].
      destruct st; unfold AllocationStats.incAvailable, AllocationStats.incOccupied;
        cbn [AllocationStats.available AllocationStats.occupied AllocationStats.total
             AllocationStats.occupancy_rate];
        f_equal; f_equal; lia.
Qed.

Lemma fold_incOccupied (ty : string) (spots : list ParkingSpot.t) (stats : AllocationStats.t)
    (st : AllocationStats.type_stats) :
  stats_of stats ty = Some st ->
  stats_of (fold_left (fun stats spot =>
                         AllocationStats.modify_type (ParkingSpot.spot_type spot)
                           AllocationStats.incOccupied stats) spots stats) ty
  = Some (AllocationStats.mk_type_stats
            (AllocationStats.available st)
            (AllocationStats.occupied st + count_type ty spots) (AllocationStats.total st)
            (AllocationStats.occupancy_rate st)).
Proof.
  revert stats st. induction spots as [|spot spots IH]; intros stats st Hst; simpl.
  - rewrite Hst. unfold count_type. simpl. rewrite Z.add_0_r. destruct st; reflexivity.
  - rewrite count_type_cons.
    destruct (ParkingSpot.spot_type spot =? ty)%string eqn:E.
    + erewrite IH; [|rewrite stats_of_modify_type, Hst, E; reflexivity].
      destruct st; unfold AllocationStats.incAvailable, AllocationStats.incOccupied;
        cbn [AllocationStats.available AllocationStats.occupied AllocationStats.total
             AllocationStats.occupancy_rate];
        f_equal; f_equal; lia.
    + erewrite IH; [|rewrite stats_of_modify_type, Hst, E; reflexivity].
      destruct st; unfold AllocationStats.incAvailable, AllocationStats.incOccupied;
        cbn [AllocationStats.available AllocationStats.occupied AllocationStats.total
             AllocationStats.occupancy_rate];
        f_equal; f_equal; lia.
Qed.

Lemma count_type_nonneg (ty : string) (spots : list ParkingSpot.t) : 0 <= count_type ty spots.
Proof. unfold count_type. lia. Qed.

Lemma toFixed2_unit_interval (x : Q) : (0 <= x <= 1)%Q -> (0 <= toFixed2 x <= 1)%Q.
Proof.
  intros [H0 H1]. split; [apply toFixed2_nonneg, H0|].
  apply (toFixed2_mono) in H1. eapply Qle_trans; [exact H1|]. vm_compute. discriminate.
Qed.

Lemma fl_unit_interval (x : Q) : (0 <= x <= 1)%Q -> (0 <= fl x <= 1)%Q.
Proof.
  intros [H0 H1]. split; [apply fl_nonneg, H0|].
  apply fl_mono in H1. eapply Qle_trans; [exact H1|]. vm_compute. discriminate.
Qed.

Lemma stats_of_finish (stats : AllocationStats.t) (ty : string) :
  stats_of (AllocationStats.mk (AllocationStats.finish (AllocationStats.MOTORCYCLE stats))
                               (AllocationStats.finish (AllocationStats.CAR stats))
                               (AllocationStats.finish (AllocationStats.BUS stats))) ty
  = option_map AllocationStats.finish (stats_of stats ty).
Proof.
  unfold stats_of. cbn [AllocationStats.MOTORCYCLE AllocationStats.CAR AllocationStats.BUS].
  destruct (ty =? "MOTORCYCLE")%string; [reflexivity|].
  destruct (ty =? "CAR")%string; [reflexivity|].
  destruct (ty =? "BUS")%string; reflexivity.
Qed.

(** X4. For each spot type of the enumeration, [getAllocationStats]
    reports as [available] and [occupied] the number of spots of that type in
    its first and in its second argument, as [total] their sum, and as
    [occupancy_rate] 0 for an empty total and otherwise the double
    [occupied / total] rounded to two decimals by [toFixed]: a whole number
    of hundredths within half a hundredth of that double, which lies between
    0 and 1. Spots of any other type are not counted. *)
Theorem getAllocationStats_counts (availableSpots occupiedSpots : list ParkingSpot.t)
    (spot_type : string) :
  In spot_type ["MOTORCYCLE"; "CAR"; "BUS"] ->
  exists st,
    stats_of (AllocationStats.getAllocationStats availableSpots occupiedSpots) spot_type
    = Some st
    /\ AllocationStats.available st = count_type spot_type availableSpots
    /\ AllocationStats.occupied st = count_type spot_type occupiedSpots
    /\ AllocationStats.total st
       = count_type spot_type availableSpots + count_type spot_type occupiedSpots
    /\ (AllocationStats.total st = 0 -> AllocationStats.occupancy_rate st = 0%Q)
    /\ (0 < AllocationStats.total st ->
        let quotient :=
          fl (inject_Z (AllocationStats.occupied st) / inject_Z (AllocationStats.total st)) in
        AllocationStats.occupancy_rate st = toFixed2 quotient
        /\ rounded_to_cents quotient (AllocationStats.occupancy_rate st))
    /\ (0 <= AllocationStats.occupancy_rate st <= 1)%Q.
Proof.
  intros Hty. unfold AllocationStats.getAllocationStats. cbv zeta.
  rewrite stats_of_finish.
  assert (H0 : stats_of (AllocationStats.mk (AllocationStats.mk_type_stats 0 0 0 0)
                           (AllocationStats.mk_type_stats 0 0 0 0)
                           (AllocationStats.mk_type_stats 0 0 0 0)) spot_type
               = Some (AllocationStats.mk_type_stats 0 0 0 0)).
  { simpl in Hty. destruct Hty as [<-|[<-|[<-|[]]]]; reflexivity. }
  erewrite fold_incOccupied; [|apply fold_incAvailable, H0].
  cbn [option_map AllocationStats.available AllocationStats.occupied].
  eexists. split; [reflexivity|].
  unfold AllocationStats.finish.
  cbn [AllocationStats.available AllocationStats.occupied AllocationStats.total
       AllocationStats.occupancy_rate].
  pose proof (count_type_nonneg spot_type availableSpots) as Ha.
  pose proof (count_type_nonneg spot_type occupiedSpots) as Ho.
  set (a := count_type spot_type availableSpots) in *.
  set (o := count_type spot_type occupiedSpots) in *.
  rewrite !Z.add_0_l.
  split; [reflexivity|]. split; [reflexivity|]. split; [reflexivity|].
  destruct (0 <? a + o) eqn:T.
  - apply Z.ltb_lt in T. split; [lia|].
    split; [intros _; split; [reflexivity|apply toFixed2_rounded]|].
    apply toFixed2_unit_interval, fl_unit_interval. rewrite (num_div_Qmake o T).
    unfold Qle. simpl. rewrite Z2Pos.id by lia. lia.
  - apply Z.ltb_ge in T. split; [reflexivity|]. split; [lia|]. split; discriminate.
Qed.

(** Three occupied car spots of 200: the quotient is the double below
    0.015, and the rate is 0.01. *)
Lemma getAllocationStats_counts_witness :
  let car := fun status n => ParkingSpot.mk (Z.of_nat n) 1 (Z.of_nat n) "CAR" status None in
  let availableSpots :=
    (ParkingSpot.mk 0 1 0 "BUS" "AVAILABLE" None :: map (car "AVAILABLE") (seq 1 197))%list in
  let occupiedSpots := map (car "OCCUPIED") (seq 198 3) in
  exists st,
    stats_of (AllocationStats.getAllocationStats availableSpots occupiedSpots) "CAR" = Some st
    /\ AllocationStats.available st = 197
    /\ AllocationStats.occupied st = 3
    /\ AllocationStats.total st = 200
    /\ AllocationStats.occupancy_rate st = (1 # 100)%Q.
Proof.
  cbv zeta.
  destruct (@getAllocationStats_counts
              (ParkingSpot.mk 0 1 0 "BUS" "AVAILABLE" None
               :: map (fun n => ParkingSpot.mk (Z.of_nat n) 1 (Z.of_nat n) "CAR" "AVAILABLE" None)
                      (seq 1 197))
              (map (fun n => ParkingSpot.mk (Z.of_nat n) 1 (Z.of_nat n) "CAR" "OCCUPIED" None)
                   (seq 198 3)) "CAR")
    as (st & E & A & O & T & _ & R & _); [simpl; tauto|].
  assert (A' : AllocationStats.available st = 197) by (rewrite A; vm_compute; reflexivity).
  assert (O' : AllocationStats.occupied st = 3) by (rewrite O; vm_compute; reflexivity).
  assert (T' : AllocationStats.total st = 200) by (rewrite T; vm_compute; reflexivity).
  exists st. repeat (split; [assumption|]).
  destruct R as [R _]; [lia|]. rewrite R, O', T'. vm_compute. reflexivity.
Defined.

(** ** getAllocationRecommendations *)

Lemma recommendations_fold (spotStats : list (string * AllocationStats.type_stats))
    (acc : list AllocationStats.recommendation) :
  fold_left
    (fun recommendations entry =>
       let '(vehicleType, stats) := entry in
       if 0 <? AllocationStats.available stats then
         (recommendations
            ++ [AllocationStats.mk_recommendation vehicleType (AllocationStats.available stats)
                  (AllocationStats.occupancy_rate stats)])%list
       else recommendations)
    spotStats acc
  = (acc ++ map recommendation_of
              (filter (fun entry => 0 <? AllocationStats.available (snd entry)) spotStats))%list.
Proof.
  revert acc. induction spotStats as [|[ty st] t IH]; intros acc; simpl.
  - rewrite app_nil_r. reflexivity.
  - rewrite IH. destruct (0 <? AllocationStats.available st); [|reflexivity].
    simpl. rewrite <- app_assoc. reflexivity.
Qed.

(** X5. [getAllocationRecommendations] returns one recommendation for
    each entry of the statistics whose [available] count is positive (with
    the key, the count and the occupancy rate of the entry) and none for the
    other entries, sorted by descending number of available spots. *)
Theorem getAllocationRecommendations_sorted
    (spotStats : list (string * AllocationStats.type_stats)) :
  let result := AllocationStats.getAllocationRecommendations spotStats in
  Permutation
    (map recommendation_of
         (filter (fun entry => 0 <? AllocationStats.available (snd entry)) spotStats))
    result
  /\ StronglySorted
       (fun a b => AllocationStats.availableSpots b <= AllocationStats.availableSpots a)
       result
  /\ forall r, In r result -> 0 < AllocationStats.availableSpots r.
Proof.
  cbv zeta. unfold AllocationStats.getAllocationRecommendations. cbv zeta.
  rewrite recommendations_fold. cbn [app].
  set (l := map recommendation_of _).
  assert (P : Permutation l
                (Array_sort (fun a b => AllocationStats.availableSpots b
                                        - AllocationStats.availableSpots a) l))
    by apply Array_sort_Permutation.
  split; [exact P|]. split.
  - eapply StronglySorted_weaken;
      [|apply (@Array_sort_sorted _
                 (fun a b => AllocationStats.availableSpots b
                             - AllocationStats.availableSpots a)
                 ltac:(intros; lia) ltac:(intros; lia) l)].
    intros a b H. cbv beta in H. lia.
  - intros r Hr. apply (Permutation_in _ (Permutation_sym P)) in Hr.
    unfold l in Hr. apply in_map_iff in Hr. destruct Hr as (e & <- & He).
    apply filter_In in He. destruct He as [_ He]. apply Z.ltb_lt in He. exact He.
Qed.

(** ** utils/feeCalculator.js, services/feeCalculationService.js *)
Lemma calculateParkingFee_returns (vehicleType : string) (entryTime exitTime : Z)
    (rateCard : RateCard.t) :
  vehicleType <> "" -> entryTime < exitTime ->
  exists r, FeeCalculator.calculateParkingFee vehicleType entryTime exitTime rateCard
            = Return r.
Proof.
  intros Hvt Ht.
  destruct (Z_le_gt_dec (FeeCalculator.durationMinutes entryTime exitTime)
                        (FeeCalculator.grace_of rateCard)).
  - eexists. apply calculateParkingFee_within_grace; assumption.
  - eexists. apply calculateParkingFee_billed; [assumption|assumption|lia].
Qed.

(** X6. [calculateParkingFee] throws 'Missing required parameters for
    fee calculation' for an empty vehicle type, throws 'Exit time must be
    after entry time' when the vehicle type is given and the exit is not
    after the entry, and returns a result in every other case: it returns
    exactly when the vehicle type is not empty and the exit is strictly after
    the entry, whatever the rate card holds. *)
Theorem calculateParkingFee_throws_iff (vehicleType : string) (entryTime exitTime : Z)
    (rateCard : RateCard.t) :
  (vehicleType = "" ->
     FeeCalculator.calculateParkingFee vehicleType entryTime exitTime rateCard
     = Throw (Error "Missing required parameters for fee calculation"))
  /\ (vehicleType <> "" -> exitTime <= entryTime ->
        FeeCalculator.calculateParkingFee vehicleType entryTime exitTime rateCard
        = Throw (Error "Exit time must be after entry time"))
  /\ ((exists r, FeeCalculator.calculateParkingFee vehicleType entryTime exitTime rateCard
                 = Return r)
      <-> vehicleType <> "" /\ entryTime < exitTime).
Proof.
  split; [|split].
  - intros ->. reflexivity.
  - intros Hvt Ht. unfold FeeCalculator.calculateParkingFee.
    apply String.eqb_neq in Hvt. rewrite Hvt. apply Z.leb_le in Ht. rewrite Ht. reflexivity.
  - split.
    + intros (r & Hr). unfold FeeCalculator.calculateParkingFee in Hr.
      destruct (vehicleType =? "")%string eqn:E; [discriminate|].
      destruct (exitTime <=? entryTime) eqn:T; [discriminate|].
      apply String.eqb_neq in E. apply Z.leb_gt in T. split; assumption.
    + intros [Hvt Ht]. apply calculateParkingFee_returns; assumption.
Qed.

Lemma calculateParkingFee_throws_iff_witness :
  FeeCalculator.calculateParkingFee "" 0 1 car_rate_card
  = Throw (Error "Missing required parameters for fee calculation")
  /\ FeeCalculator.calculateParkingFee "CAR" 1 1 car_rate_card
     = Throw (Error "Exit time must be after entry time")
  /\ exists r, FeeCalculator.calculateParkingFee "CAR" 0 1 car_rate_card = Return r.
Proof.
  split; [apply (calculateParkingFee_throws_iff "" 0 1 car_rate_card); reflexivity|].
  split; [apply (calculateParkingFee_throws_iff "CAR" 1 1 car_rate_card);
          [discriminate|lia]|].
  apply (calculateParkingFee_throws_iff "CAR" 0 1 car_rate_card).
  split; [discriminate|lia].
Defined.

(** The two shapes of a returned fee breakdown. *)
Lemma calculateParkingFee_Return_inv (vehicleType : string) (entryTime exitTime : Z)
    (rateCard : RateCard.t) (r : FeeCalculator.t) :
  FeeCalculator.calculateParkingFee vehicleType entryTime exitTime rateCard = Return r ->
  vehicleType <> "" /\ entryTime < exitTime
  /\ let d := FeeCalculator.durationMinutes entryTime exitTime in
     let g := FeeCalculator.grace_of rateCard in
     let echo := FeeCalculator.mk_rate_card (RateCard.hourly_rate rateCard)
                   (RateCard.daily_max_rate rateCard) g (FeeCalculator.rounding_of rateCard) in
     (d <= g
      /\ r = FeeCalculator.mk vehicleType entryTime exitTime d (FeeCalculator.formatDuration d)
               echo (FeeCalculator.mk_details d 0 0 0%Q false 0%Q) 0%Q "USD")
     \/ (g < d
         /\ let u := FeeCalculator.hourlyUnits (FeeCalculator.rounding_of rateCard) (d - g) in
            let baseFee := fl (inject_Z u * RateCard.hourly_rate rateCard) in
            let capped := FeeCalculator.applyDailyCap (RateCard.daily_max_rate rateCard) baseFee in
            r = FeeCalculator.mk vehicleType entryTime exitTime d
                  (FeeCalculator.formatDuration d) echo
                  (FeeCalculator.mk_details g (d - g) u (toFixed2 baseFee) (snd capped)
                     (toFixed2 (fst capped)))
                  (toFixed2 (fst capped)) "USD").
Proof.
  intros Hr.
  assert (H : vehicleType <> "" /\ entryTime < exitTime).
  { unfold FeeCalculator.calculateParkingFee in Hr.
    destruct (vehicleType =? "")%string eqn:E; [discriminate|].
    destruct (exitTime <=? entryTime) eqn:T; [discriminate|].
    apply String.eqb_neq in E. apply Z.leb_gt in T. split; assumption. }
  destruct H as [Hvt Ht]. split; [exact Hvt|]. split; [exact Ht|]. cbv zeta.
  destruct (Z_le_gt_dec (FeeCalculator.durationMinutes entryTime exitTime)
                        (FeeCalculator.grace_of rateCard)) as [G|G].
  - left. split; [exact G|].
    rewrite (calculateParkingFee_within_grace rateCard Hvt Ht G) in Hr.
    injection Hr as <-. reflexivity.
  - right. split; [lia|].
    rewrite (@calculateParkingFee_billed vehicleType entryTime exitTime rateCard Hvt Ht) in Hr
      by lia.
    injection Hr as <-. reflexivity.
Qed.




Lemma Qfloor_unique (x : Q) (n : Z) :
  (inject_Z n <= x)%Q -> (x < inject_Z n + 1)%Q -> Qfloor x = n.
Proof.
  intros H1 H2. destruct (floor_bounds x) as [F1 F2].
  assert (A : (inject_Z (Qfloor x) < inject_Z (n + 1))%Q).
  { rewrite inject_Z_plus. change (inject_Z 1) with 1%Q. lra. }
  assert (B : (inject_Z n < inject_Z (Qfloor x + 1))%Q).
  { rewrite inject_Z_plus. change (inject_Z 1) with 1%Q. lra. }
  rewrite <- Zlt_Qlt in A, B. lia.
Qed.

Lemma toFixed2_cents (n : Z) : 0 <= n -> (toFixed2 (n # 100) == n # 100)%Q.
Proof.
  intros Hn. rewrite toFixed2_nonneg_eq by (apply cents_nonneg, Hn).
  rewrite (@Qfloor_unique _ n); [reflexivity| |]; rewrite (cents_inject n); lra.
Qed.

Lemma toFixed2_comp (x y : Q) : (x == y)%Q -> (toFixed2 x == toFixed2 y)%Q.
Proof.
  intros E. apply Qle_antisym; apply toFixed2_mono; rewrite E; apply Qle_refl.
Qed.

Lemma applyDailyCap_le_cap (cap baseFee : Q) :
  (fst (FeeCalculator.applyDailyCap (Some cap) baseFee) <= cap)%Q.
Proof.
  unfold FeeCalculator.applyDailyCap.
  destruct (Qle_bool baseFee cap) eqn:E; simpl; [apply Qle_bool_iff, E|apply Qle_refl].
Qed.

(** X8. With a daily cap that is not negative, the fee
    [calculateParkingFee] returns never exceeds the cap rounded to two
    decimals; when the cap is a whole number of cents, the fee never exceeds
    the cap. *)
Theorem calculateParkingFee_never_exceeds_cap (vehicleType : string)
    (entryTime exitTime : Z) (rateCard : RateCard.t) (r : FeeCalculator.t) (cap : Q) :
  FeeCalculator.calculateParkingFee vehicleType entryTime exitTime rateCard = Return r ->
  RateCard.daily_max_rate rateCard = Some cap ->
  (0 <= cap)%Q ->
  (FeeCalculator.parking_fee r <= toFixed2 cap)%Q
  /\ ((exists n : Z, cap == n # 100)%Q -> (FeeCalculator.parking_fee r <= cap)%Q).
Proof.
  intros Hr Hcap H0.
  assert (H : (FeeCalculator.parking_fee r <= toFixed2 cap)%Q).
  { apply calculateParkingFee_Return_inv in Hr.
    destruct Hr as (_ & _ & [[_ ->]|[_ ->]]); cbv zeta; cbn [FeeCalculator.parking_fee].
    - apply toFixed2_nonneg, H0.
    - rewrite Hcap. apply toFixed2_mono, applyDailyCap_le_cap. }
  split; [exact H|].
  intros (n & En). eapply Qle_trans; [exact H|].
  rewrite (toFixed2_comp En), En.
  assert (0 <= n).
  { rewrite En in H0. unfold Qle in H0. simpl in H0. lia. }
  rewrite toFixed2_cents by assumption. apply Qle_refl.
Qed.

Lemma calculateParkingFee_never_exceeds_cap_witness :
  FeeCalculator.calculateParkingFee "CAR" 1769076000000 1769102100000 car_rate_card
  = Return (FeeCalculator.mk "CAR" 1769076000000 1769102100000 435 "7 hours 15 minutes"
              (FeeCalculator.mk_rate_card 8 (Some 50%Q) 15 "CEILING")
              (FeeCalculator.mk_details 15 420 7 (5600 # 100) true (5000 # 100))
              (5000 # 100) "USD")
  /\ RateCard.daily_max_rate car_rate_card = Some 50%Q
  /\ (0 <= 50)%Q
  /\ (5000 # 100 <= 50)%Q.
Proof.
  assert (E : FeeCalculator.calculateParkingFee "CAR" 1769076000000 1769102100000
                car_rate_card
              = Return (FeeCalculator.mk "CAR" 1769076000000 1769102100000 435
                          "7 hours 15 minutes"
                          (FeeCalculator.mk_rate_card 8 (Some 50%Q) 15 "CEILING")
                          (FeeCalculator.mk_details 15 420 7 (5600 # 100) true (5000 # 100))
                          (5000 # 100) "USD")) by (vm_compute; reflexivity).
  assert (H0 : (0 <= 50)%Q) by (vm_compute; discriminate).
  split; [exact E|]. split; [reflexivity|]. split; [exact H0|].
  destruct (@calculateParkingFee_never_exceeds_cap _ _ _ _ _ 50%Q E eq_refl H0) as [_ H].
  apply H. exists 5000. reflexivity.
Defined.

(** X9. With a rate card whose hourly rate and daily cap are not
    negative, [calculateParkingFee] returns neither a negative [parking_fee]
    nor a negative [base_fee]. *)
Theorem calculateParkingFee_nonnegative (vehicleType : string)
    (entryTime exitTime : Z) (rateCard : RateCard.t) (r : FeeCalculator.t) :
  nonnegative_rates rateCard ->
  FeeCalculator.calculateParkingFee vehicleType entryTime exitTime rateCard = Return r ->
  (0 <= FeeCalculator.parking_fee r)%Q
  /\ (0 <= FeeCalculator.base_fee (FeeCalculator.calculation_details r))%Q.
Proof.
  intros [Hrate Hcap] Hr. apply calculateParkingFee_Return_inv in Hr.
  destruct Hr as (_ & _ & [[_ ->]|[G ->]]); cbv zeta;
    cbn [FeeCalculator.parking_fee FeeCalculator.calculation_details FeeCalculator.base_fee].
  - split; apply Qle_refl.
  - assert (B : (0 <= fl (inject_Z (FeeCalculator.hourlyUnits (FeeCalculator.rounding_of rateCard)
                                      (FeeCalculator.durationMinutes entryTime exitTime
                                       - FeeCalculator.grace_of rateCard))
                          * RateCard.hourly_rate rateCard))%Q).
    { apply fl_nonneg, Qmult_le_0_compat; [|exact Hrate].
      change 0%Q with (inject_Z 0). rewrite <- Zle_Qle. apply hourlyUnits_nonneg. lia. }
    split; [|apply toFixed2_nonneg, B].
    apply toFixed2_nonneg, applyDailyCap_nonneg; assumption.
Qed.

Lemma calculateParkingFee_nonnegative_witness :
  nonnegative_rates car_rate_card
  /\ FeeCalculator.calculateParkingFee "CAR" 1769076000000 1769102100000 car_rate_card
     = Return (FeeCalculator.mk "CAR" 1769076000000 1769102100000 435 "7 hours 15 minutes"
                 (FeeCalculator.mk_rate_card 8 (Some 50%Q) 15 "CEILING")
                 (FeeCalculator.mk_details 15 420 7 (5600 # 100) true (5000 # 100))
                 (5000 # 100) "USD")
  /\ (0 <= 5000 # 100)%Q.
Proof.
  assert (N : nonnegative_rates car_rate_card).
  { split; [vm_compute; discriminate|].
    intros cap E. injection E as <-. vm_compute. discriminate. }
  assert (E : FeeCalculator.calculateParkingFee "CAR" 1769076000000 1769102100000
                car_rate_card
              = Return (FeeCalculator.mk "CAR" 1769076000000 1769102100000 435
                          "7 hours 15 minutes"
                          (FeeCalculator.mk_rate_card 8 (Some 50%Q) 15 "CEILING")
                          (FeeCalculator.mk_details 15 420 7 (5600 # 100) true (5000 # 100))
                          (5000 # 100) "USD")) by (vm_compute; reflexivity).
  split; [exact N|]. split; [exact E|].
  exact (proj1 (@calculateParkingFee_nonnegative _ _ _ _ _ N E)).
Defined.

Lemma hourlyUnits_strategy_order (a : Z) :
  FeeCalculator.hourlyUnits "FLOOR" a <= FeeCalculator.hourlyUnits "ROUND" a
  /\ FeeCalculator.hourlyUnits "ROUND" a <= FeeCalculator.hourlyUnits "CEILING" a.
Proof.
  pose proof (hourlyUnits_FLOOR a) as F. pose proof (hourlyUnits_ROUND a) as R.
  pose proof (hourlyUnits_CEILING a) as C. cbv zeta in *. lia.
Qed.

Lemma parking_fee_billed_mono (vehicleType : string) (entryTime exitTime : Z)
    (c1 c2 : RateCard.t) (r1 r2 : FeeCalculator.t) :
  (0 <= RateCard.hourly_rate c1)%Q ->
  (forall cap, RateCard.daily_max_rate c1 = Some cap -> (0 <= cap)%Q) ->
  RateCard.hourly_rate c2 = RateCard.hourly_rate c1 ->
  RateCard.daily_max_rate c2 = RateCard.daily_max_rate c1 ->
  FeeCalculator.grace_of c2 = FeeCalculator.grace_of c1 ->
  (forall a, FeeCalculator.hourlyUnits (FeeCalculator.rounding_of c1) a
             <= FeeCalculator.hourlyUnits (FeeCalculator.rounding_of c2) a) ->
  FeeCalculator.calculateParkingFee vehicleType entryTime exitTime c1 = Return r1 ->
  FeeCalculator.calculateParkingFee vehicleType entryTime exitTime c2 = Return r2 ->
  (FeeCalculator.parking_fee r1 <= FeeCalculator.parking_fee r2)%Q.
Proof.
  intros Hrate Hcap Er Ec Eg Hu H1 H2.
  apply calculateParkingFee_Return_inv in H1, H2. rewrite Er, Ec, Eg in H2.
  destruct H1 as (_ & _ & [[G1 ->]|[G1 ->]]); destruct H2 as (_ & _ & [[G2 ->]|[G2 ->]]);
    cbv zeta; cbn [FeeCalculator.parking_fee]; try lia.
  - apply Qle_refl.
  - apply toFixed2_mono, applyDailyCap_mono, fl_mono, Qmult_le_compat_r; [|exact Hrate].
    rewrite <- Zle_Qle. apply Hu.
Qed.

(** X10. For one stay and three rate cards that differ in the rounding
    strategy only, with an hourly rate and a daily cap that are not negative,
    FLOOR charges at most what ROUND charges, and ROUND at most what CEILING
    charges. *)
Theorem rounding_strategies_ordered (vehicleType rc_type : string) (entryTime exitTime : Z)
    (hourly_rate : Q) (daily_max_rate : option Q) (grace : option Z)
    (rF rR rC : FeeCalculator.t) :
  (0 <= hourly_rate)%Q ->
  (forall cap, daily_max_rate = Some cap -> (0 <= cap)%Q) ->
  FeeCalculator.calculateParkingFee vehicleType entryTime exitTime
    (RateCard.mk rc_type hourly_rate daily_max_rate (Some "FLOOR") grace) = Return rF ->
  FeeCalculator.calculateParkingFee vehicleType entryTime exitTime
    (RateCard.mk rc_type hourly_rate daily_max_rate (Some "ROUND") grace) = Return rR ->
  FeeCalculator.calculateParkingFee vehicleType entryTime exitTime
    (RateCard.mk rc_type hourly_rate daily_max_rate (Some "CEILING") grace) = Return rC ->
  (FeeCalculator.parking_fee rF <= FeeCalculator.parking_fee rR)%Q
  /\ (FeeCalculator.parking_fee rR <= FeeCalculator.parking_fee rC)%Q.
Proof.
  intros Hrate Hcap HF HR HC. split.
  - apply (@parking_fee_billed_mono vehicleType entryTime exitTime
             (RateCard.mk rc_type hourly_rate daily_max_rate (Some "FLOOR") grace)
             (RateCard.mk rc_type hourly_rate daily_max_rate (Some "ROUND") grace) rF rR
             Hrate Hcap eq_refl eq_refl eq_refl
             (fun a => proj1 (hourlyUnits_strategy_order a)) HF HR).
  - apply (@parking_fee_billed_mono vehicleType entryTime exitTime
             (RateCard.mk rc_type hourly_rate daily_max_rate (Some "ROUND") grace)
             (RateCard.mk rc_type hourly_rate daily_max_rate (Some "CEILING") grace) rR rC
             Hrate Hcap eq_refl eq_refl eq_refl
             (fun a => proj2 (hourlyUnits_strategy_order a)) HR HC).
Qed.

Lemma rounding_strategies_ordered_witness :
  (0 <= 8)%Q
  /\ (forall cap, Some 50%Q = Some cap -> (0 <= cap)%Q)
  /\ exists rF rR rC,
       FeeCalculator.calculateParkingFee "CAR" 1769076000000 1769082300000
         (RateCard.mk "CAR" 8 (Some 50%Q) (Some "FLOOR") (Some 15)) = Return rF
       /\ FeeCalculator.calculateParkingFee "CAR" 1769076000000 1769082300000
            (RateCard.mk "CAR" 8 (Some 50%Q) (Some "ROUND") (Some 15)) = Return rR
       /\ FeeCalculator.calculateParkingFee "CAR" 1769076000000 1769082300000
            (RateCard.mk "CAR" 8 (Some 50%Q) (Some "CEILING") (Some 15)) = Return rC
       /\ (FeeCalculator.parking_fee rF == 8)%Q
       /\ (FeeCalculator.parking_fee rR == 16)%Q
       /\ (FeeCalculator.parking_fee rF <= FeeCalculator.parking_fee rR)%Q
       /\ (FeeCalculator.parking_fee rR <= FeeCalculator.parking_fee rC)%Q.
Proof.
  assert (H0 : (0 <= 8)%Q) by (vm_compute; discriminate).
  assert (H1 : forall cap, Some 50%Q = Some cap -> (0 <= cap)%Q).
  { intros cap E. injection E as <-. vm_compute. discriminate. }
  split; [exact H0|]. split; [exact H1|].
  do 3 eexists.
  split; [vm_compute; reflexivity|]. split; [vm_compute; reflexivity|].
  split; [vm_compute; reflexivity|].
  split; [vm_compute; reflexivity|]. split; [vm_compute; reflexivity|].
  apply (@rounding_strategies_ordered "CAR" "CAR" 1769076000000 1769082300000 8
           (Some 50%Q) (Some 15) _ _ _ H0 H1); vm_compute; reflexivity.
Defined.

(** ** formatDuration *)

(** X11. [formatDuration] of [60 * hours + mins] minutes, with
    [0 <= hours] and [0 <= mins < 60], prints the minutes alone when there is
    no full hour, the hours alone when no minute is left over, and the hours
    followed by the minutes otherwise, each number with its unit, in the
    plural unless the number is 1. *)
Theorem formatDuration_hours_minutes (hours mins : Z) :
  0 <= hours -> 0 <= mins < 60 ->
  FeeCalculator.formatDuration (60 * hours + mins)
  = if hours =? 0 then FeeCalculator.plural mins "minute"
    else if mins =? 0 then FeeCalculator.plural hours "hour"
    else (FeeCalculator.plural hours "hour" ++ " " ++ FeeCalculator.plural mins "minute")%string.
Proof.
  intros Hh Hm. unfold FeeCalculator.formatDuration. cbv zeta.
  rewrite Math_floor_div by lia.
  assert (D : (60 * hours + mins) / 60 = hours).
  { symmetry. apply (Z.div_unique_pos _ 60 hours mins); lia. }
  assert (R : Z.rem (60 * hours + mins) 60 = mins).
  { rewrite Z.rem_mod_nonneg by lia. symmetry.
    apply (Z.mod_unique_pos _ 60 hours mins); lia. }
  rewrite D, R. reflexivity.
Qed.

Lemma formatDuration_hours_minutes_witness :
  0 <= 2 /\ 0 <= 35 < 60
  /\ FeeCalculator.formatDuration (60 * 2 + 35) = "2 hours 35 minutes"
  /\ FeeCalculator.formatDuration (60 * 1 + 0) = "1 hour"
  /\ FeeCalculator.formatDuration (60 * 0 + 1) = "1 minute".
Proof.
  assert (H2 : 0 <= 2) by lia. assert (H35 : 0 <= 35 < 60) by lia.
  split; [exact H2|]. split; [exact H35|].
  split; [rewrite (formatDuration_hours_minutes H2 H35); reflexivity|].
  split; reflexivity.
Defined.

(** ** calculateFeeForDuration *)

Lemma durationMinutes_whole (now d : Z) :
  FeeCalculator.durationMinutes (now - d * 60 * 1000) now = d.
Proof.
  rewrite durationMinutes_div.
  replace (now - (now - d * 60 * 1000)) with (d * 60000) by lia.
  apply Z.div_mul. lia.
Qed.

(** X12. With a rate card on file for a non-empty vehicle type, and [now]
    an instant a Date can hold,
    [calculateFeeForDuration] is read-only. When the entry instant,
    [durationMinutes] minutes before now, is one a Date can hold (at most
    8.64e15 ms from the epoch): for a positive duration it returns the fee
    of the stay that began then, and the [duration_minutes] of the result is
    the duration it was given; for a duration of zero or less it throws
    'Exit time must be after entry time'. When the entry instant is beyond
    that range, the entry is an Invalid Date, nothing is thrown and the
    breakdown returned holds NaN. *)
Theorem calculateFeeForDuration_round_trip (vehicleType : string) (durationMinutes now : Z)
    (s : Store) (rateCard : RateCard.t) :
  vehicleType <> "" ->
  fst (RateCardRepository.findByVehicleType vehicleType s) = Return (Some rateCard) ->
  Z.abs now <= 8640000000000000 ->
  let entryTime := now - durationMinutes * 60000 in
  (Z.abs entryTime <= 8640000000000000 -> 0 < durationMinutes ->
     exists r,
       FeeCalculationService.calculateFeeForDuration vehicleType durationMinutes now s
       = (Return (FeeCalculationService.Breakdown r), s)
       /\ FeeCalculator.duration_minutes r = durationMinutes
       /\ FeeCalculator.calculateParkingFee vehicleType entryTime now rateCard = Return r)
  /\ (Z.abs entryTime <= 8640000000000000 -> durationMinutes <= 0 ->
        FeeCalculationService.calculateFeeForDuration vehicleType durationMinutes now s
        = (Throw (Error "Exit time must be after entry time"), s))
  /\ (8640000000000000 < Z.abs entryTime ->
        FeeCalculationService.calculateFeeForDuration vehicleType durationMinutes now s
        = (Return FeeCalculationService.NaN_breakdown, s)).
Proof.
  intros Hvt Hrc _. unfold RateCardRepository.findByVehicleType, gets in Hrc.
  simpl in Hrc. injection Hrc as Hrc. cbv zeta.
  unfold FeeCalculationService.calculateFeeForDuration, bind,
    RateCardRepository.findByVehicleType, gets, lift, ret, throw.
  rewrite Hrc. unfold FeeCalculationService.new_Date.
  replace (now - durationMinutes * 60 * 1000) with (now - durationMinutes * 60000) by lia.
  unfold FeeCalculationService.calculateFee.
  apply String.eqb_neq in Hvt. rewrite Hvt. apply String.eqb_neq in Hvt.
  split; [|split].
  - intros Hrange Hd. apply Z.leb_le in Hrange. rewrite Hrange.
    destruct (@calculateParkingFee_returns vehicleType
                (now - durationMinutes * 60000) now rateCard Hvt ltac:(lia))
      as (r & Hr).
    exists r. rewrite Hr. split; [reflexivity|]. split; [|reflexivity].
    apply calculateParkingFee_Return_inv in Hr.
    destruct Hr as (_ & _ & [[_ ->]|[_ ->]]); cbv zeta; cbn [FeeCalculator.duration_minutes];
      (replace (now - durationMinutes * 60000) with (now - durationMinutes * 60 * 1000)
         by lia);
      apply durationMinutes_whole.
  - intros Hrange Hd. apply Z.leb_le in Hrange. rewrite Hrange.
    unfold FeeCalculator.calculateParkingFee.
    apply String.eqb_neq in Hvt. rewrite Hvt.
    destruct (now <=? now - durationMinutes * 60000) eqn:T; [reflexivity|].
    apply Z.leb_gt in T. lia.
  - intros Hrange. apply Z.leb_gt in Hrange. rewrite Hrange. reflexivity.
Qed.

(** A stay of 155 minutes, a duration of 0, and a duration of 200000000000
    minutes, which reaches before the first instant a Date can hold. *)
Lemma calculateFeeForDuration_round_trip_witness :
  (exists r,
     FeeCalculationService.calculateFeeForDuration "CAR" 155 1769085300000 demo_store
     = (Return (FeeCalculationService.Breakdown r), demo_store)
     /\ FeeCalculator.duration_minutes r = 155)
  /\ FeeCalculationService.calculateFeeForDuration "CAR" 0 1769085300000 demo_store
     = (Throw (Error "Exit time must be after entry time"), demo_store)
  /\ FeeCalculationService.calculateFeeForDuration "CAR" 200000000000 1769085300000 demo_store
     = (Return FeeCalculationService.NaN_breakdown, demo_store).
Proof.
  assert (N : "CAR" <> "") by discriminate.
  assert (F : fst (RateCardRepository.findByVehicleType "CAR" demo_store)
              = Return (Some car_rate_card)) by reflexivity.
  assert (T : Z.abs 1769085300000 <= 8640000000000000) by (vm_compute; discriminate).
  split; [|split].
  - destruct (@calculateFeeForDuration_round_trip "CAR" 155 1769085300000 demo_store
                car_rate_card N F T) as [H _].
    destruct H as (r & E & D & _); [vm_compute; discriminate|lia|].
    exists r. split; assumption.
  - destruct (@calculateFeeForDuration_round_trip "CAR" 0 1769085300000 demo_store
                car_rate_card N F T) as (_ & H & _).
    apply H; [vm_compute; discriminate|lia].
  - destruct (@calculateFeeForDuration_round_trip "CAR" 200000000000 1769085300000 demo_store
                car_rate_card N F T) as (_ & _ & H).
    apply H. vm_compute. reflexivity.
Defined.

(** ** The paths of the services *)
Lemma allocateSpot_keeps_store (vehicleType : string) (s : Store) :
  SpotAllocationService.allocateSpot vehicleType s
  = (fst (SpotAllocationService.allocateSpot vehicleType s), s).
Proof.
  rewrite <- (allocateSpot_store vehicleType s) at 3.
  destruct (SpotAllocationService.allocateSpot vehicleType s); reflexivity.
Qed.

Lemma processEntry_from_step3 (entryData : EntryService.entryData_t) (now : Z)
    (s s1 : Store) (vehicle : Vehicle.t)
    (k : Store -> outcome EntryService.t * Store) :
  (forall s1, k s1 =
     (allocatedSpot <- SpotAllocationService.allocateSpot (EntryService.vehicle_type entryData) ;;
      match allocatedSpot with
      | None =>
        throw (AppError ("No available parking spots for vehicle type "
                           ++ EntryService.vehicle_type entryData) 409 "NO_SPOT_AVAILABLE")
      | Some allocatedSpot =>
        let entryTime := now in
        transaction <- TransactionRepository.create (Vehicle._id vehicle)
                         (ParkingSpot._id allocatedSpot) entryTime ;;
        ParkingSpotRepository.updateStatus (ParkingSpot._id allocatedSpot) "OCCUPIED"
          (Some (Vehicle._id vehicle)) ;;;
        VehicleRepository.updateParkingStatus (Vehicle._id vehicle) true ;;;
        lot <- ParkingLotRepository.findDefault ;;
        (match lot with
         | Some lot => ParkingLotRepository.incrementOccupiedSpots (ParkingLot._id lot)
                         (EntryService.vehicle_type entryData)
         | None => ret tt
         end) ;;;
        ret (EntryService.mk (ParkingTransaction._id transaction) (Vehicle._id vehicle)
               (ParkingSpot._id allocatedSpot)
               (EntryService.mk_spot_details (ParkingSpot.floor_number allocatedSpot)
                  (ParkingSpot.spot_number allocatedSpot)
                  (ParkingSpot.spot_type allocatedSpot))
               entryTime
               ("Vehicle successfully parked at Floor "
                  ++ Z_to_string (ParkingSpot.floor_number allocatedSpot)
                  ++ ", Spot " ++ Z_to_string (ParkingSpot.spot_number allocatedSpot)))
      end) s1) ->
  EntryService.processEntry entryData now s = k s1 ->
  entry_from_step3 entryData now s s1 vehicle.
Proof.
  intros Hk Hp. unfold entry_from_step3. cbv zeta. rewrite Hp, Hk. clear Hk Hp.
  pose proof (allocateSpot_keeps_store (EntryService.vehicle_type entryData) s1) as E.
  destruct (fst (SpotAllocationService.allocateSpot _ s1)) as [[spot|]|e];
    unfold bind at 1; rewrite E; [|reflexivity|reflexivity].
  unfold TransactionRepository.create, ParkingSpotRepository.updateStatus,
    VehicleRepository.updateParkingStatus, ParkingLotRepository.findDefault,
    ParkingLotRepository.incrementOccupiedSpots.
  change (includes ParkingSpot.statusEnum "OCCUPIED") with true. cbn [negb].
  unfold entry_committed, entry_result. run_db.
  destruct (hd_error (parkingLots s1)); reflexivity.
Qed.

(** The paths of [processEntry]. *)
Lemma processEntry_inv (entryData : EntryService.entryData_t) (now : Z) (s : Store) :
  match find (fun v => (Vehicle.license_plate v
                        =? toUpperCase (EntryService.license_plate entryData))%string)
             (vehicles s) with
  | Some vehicle =>
    if Vehicle.is_currently_parked vehicle then
      EntryService.processEntry entryData now s
      = (Throw (AppError ("Vehicle " ++ EntryService.license_plate entryData
                            ++ " is already parked in the lot") 409 "VEHICLE_ALREADY_PARKED"),
         s)
    else entry_from_step3 entryData now s s vehicle
  | None =>
    match Vehicle.validate (entry_vehicle entryData s) with
    | Some path =>
      EntryService.processEntry entryData now s
      = (Throw (MongooseValidationError path),
         mkStore (vehicles s) (parkingSpots s) (parkingTransactions s) (rateCards s)
                 (parkingLots s) (nextObjectId s + 1))
    | None =>
      entry_from_step3 entryData now s (vehicle_recorded entryData s)
        (entry_vehicle entryData s)
    end
  end.
Proof.
  destruct (find _ (vehicles s)) as [v|] eqn:Efind.
  - destruct (Vehicle.is_currently_parked v) eqn:Eflag.
    + unfold EntryService.processEntry.
      unfold bind at 1. unfold VehicleRepository.findByLicensePlate at 1. unfold gets at 1.
      rewrite Efind. unfold bind at 1. rewrite Eflag. reflexivity.
    + eapply processEntry_from_step3; [intros; reflexivity|].
      unfold EntryService.processEntry.
      unfold bind at 1. unfold VehicleRepository.findByLicensePlate at 1. unfold gets at 1.
      rewrite Efind. unfold bind at 1. rewrite Eflag.
      unfold ret at 1. unfold bind at 1. unfold ret at 1. reflexivity.
  - destruct (Vehicle.validate (entry_vehicle entryData s)) as [path|] eqn:Ev.
    + unfold EntryService.processEntry.
      unfold bind at 1. unfold VehicleRepository.findByLicensePlate at 1. unfold gets at 1.
      rewrite Efind. unfold bind at 1. unfold ret at 1. unfold bind at 1.
      unfold VehicleRepository.create, bind at 1. unfold newObjectId at 1.
      unfold entry_vehicle in Ev. rewrite Ev. reflexivity.
    + eapply processEntry_from_step3; [intros; reflexivity|].
      unfold EntryService.processEntry.
      unfold bind at 1. unfold VehicleRepository.findByLicensePlate at 1. unfold gets at 1.
      rewrite Efind. unfold bind at 1. unfold ret at 1. unfold bind at 1.
      unfold VehicleRepository.create, bind at 1. unfold newObjectId at 1.
      unfold entry_vehicle in Ev. rewrite Ev.
      unfold bind at 1. unfold modify at 1. unfold ret at 1.
      reflexivity.
Qed.

(** The paths of [processExit]. *)
Lemma processExit_inv (license_plate : string) (now : Z) (s : Store) :
  match find (fun v => (Vehicle.license_plate v =? toUpperCase license_plate)%string)
             (vehicles s) with
  | None =>
    ExitService.processExit license_plate now s
    = (Throw (AppError ("Vehicle " ++ license_plate ++ " not found") 404 "VEHICLE_NOT_FOUND"),
       s)
  | Some vehicle =>
    if negb (Vehicle.is_currently_parked vehicle) then
      ExitService.processExit license_plate now s
      = (Throw (AppError ("Vehicle " ++ license_plate ++ " is not currently parked")
                         409 "ALREADY_EXITED"), s)
    else
      match find (fun tr => (ParkingTransaction.vehicle_id tr =? Vehicle._id vehicle)
                            && ParkingTransaction.is_open tr)
                 (parkingTransactions s) with
      | None =>
        ExitService.processExit license_plate now s
        = (Throw (AppError ("No active parking transaction found for vehicle "
                              ++ license_plate) 404 "TRANSACTION_NOT_FOUND"), s)
      | Some tr =>
        match find (fun rc => (RateCard.vehicle_type rc =? Vehicle.vehicle_type vehicle)%string)
                   (rateCards s) with
        | None =>
          ExitService.processExit license_plate now s
          = (Throw (AppError ("Rate card not found for vehicle type "
                                ++ Vehicle.vehicle_type vehicle) 500 "DATABASE_ERROR"), s)
        | Some rateCard =>
          match FeeCalculationService.calculateFee (Vehicle.vehicle_type vehicle)
                  (ParkingTransaction.entry_time tr) now rateCard with
          | Throw e => ExitService.processExit license_plate now s = (Throw e, s)
          | Return feeDetails => exit_from_step5 license_plate now s vehicle tr feeDetails
          end
        end
      end
  end.
Proof.
  destruct (find _ (vehicles s)) as [v|] eqn:Efind; [|exit_exec].
  destruct (negb (Vehicle.is_currently_parked v)) eqn:Eflag; [exit_exec|].
  destruct (find _ (parkingTransactions s)) as [tr0|] eqn:Etr; [|exit_exec].
  destruct (find _ (rateCards s)) as [rc|] eqn:Erc; [|exit_exec].
  destruct (FeeCalculationService.calculateFee _ _ _ _) as [fee|e] eqn:Efee; [|exit_exec].
  unfold exit_from_step5.
  destruct (FeeCalculator.duration_minutes fee <? 0) eqn:Ed; [exit_exec|].
  destruct (negb (Qle_bool 0 (FeeCalculator.parking_fee fee))) eqn:Ef; [exit_exec|].
  destruct (find _ (parkingSpots s)) as [spot|] eqn:Espot; [|exit_exec].
  destruct (find (fun t => ParkingTransaction._id t =? ParkingTransaction._id tr0)
                 (parkingTransactions s)) eqn:Eupd;
    unfold exit_committed, exit_result; destruct (hd_error (parkingLots s)) eqn:Elot;
    exit_exec.
Qed.

(** ** allocateSpot *)

Lemma getEligibleSpotTypes_Return_valid (vehicleType : string) (eligibleTypes : list string) :
  SpotAllocator.getEligibleSpotTypes vehicleType = Return eligibleTypes ->
  In vehicleType ["MOTORCYCLE"; "CAR"; "BUS"].
Proof.
  intros H.
  destruct (in_dec string_dec vehicleType ["MOTORCYCLE"; "CAR"; "BUS"]) as [Hin|Hout];
    [exact Hin|].
  rewrite (getEligibleSpotTypes_invalid Hout) in H. discriminate.
Qed.

Lemma findAvailableByTypes_In (eligibleTypes : list string) (s : Store) (spot : ParkingSpot.t) :
  In spot (Array_sort ParkingSpotRepository.compareBySortKey
             (filter (fun spot => includes eligibleTypes (ParkingSpot.spot_type spot)
                                  && (ParkingSpot.status spot =? "AVAILABLE")%string)
                     (parkingSpots s)))
  <-> In spot (parkingSpots s) /\ candidate eligibleTypes spot.
Proof.
  split.
  - intros H. apply (Permutation_in _ (Permutation_sym (Array_sort_Permutation _ _))) in H.
    apply filter_In in H. destruct H as [Hin Hm]. split; [exact Hin|].
    apply matches_candidate. exact Hm.
  - intros [Hin Hc]. apply (Permutation_in _ (Array_sort_Permutation _ _)).
    apply filter_In. split; [exact Hin|]. apply matches_candidate in Hc. exact Hc.
Qed.

(** The result of [allocateSpot]. *)
Lemma allocateSpot_spec (vehicleType : string) (s : Store) :
  match fst (SpotAllocationService.allocateSpot vehicleType s) with
  | Return (Some best) =>
    exists eligibleTypes,
      SpotAllocator.getEligibleSpotTypes vehicleType = Return eligibleTypes
      /\ In best (parkingSpots s) /\ candidate eligibleTypes best
      /\ forall spot, In spot (parkingSpots s) -> candidate eligibleTypes spot ->
                      precedes best spot
  | Return None =>
    exists eligibleTypes,
      SpotAllocator.getEligibleSpotTypes vehicleType = Return eligibleTypes
      /\ forall spot, In spot (parkingSpots s) -> ~ candidate eligibleTypes spot
  | Throw e =>
    ~ In vehicleType ["MOTORCYCLE"; "CAR"; "BUS"]
    /\ e = Error ("Invalid vehicle type: " ++ vehicleType)
  end.
Proof.
  unfold SpotAllocationService.allocateSpot, bind, lift,
    ParkingSpotRepository.findAvailableByTypes, gets, ret, throw.
  destruct (SpotAllocator.getEligibleSpotTypes vehicleType) as [el|e] eqn:HE.
  - pose proof (getEligibleSpotTypes_Return_valid _ HE) as Hvt.
    destruct (getEligibleSpotTypes_valid Hvt) as (Hne & _).
    assert (Hlen : (List.length el =? 0)%nat = false).
    { simpl in Hvt. destruct Hvt as [<-|[<-|[<-|[]]]]; injection HE as <-; reflexivity. }
    rewrite Hlen.
    set (avail := Array_sort _ _).
    assert (Havail : forall spot, In spot avail
                                  <-> In spot (parkingSpots s) /\ candidate el spot)
      by (intros spot; apply findAvailableByTypes_In).
    destruct (List.length avail =? 0)%nat eqn:L.
    + cbn [fst]. exists el. split; [first [exact HE|reflexivity]|].
      intros spot Hin Hc. apply Nat.eqb_eq in L. apply length_zero_iff_nil in L.
      assert (In spot avail) by (apply Havail; split; assumption).
      rewrite L in *. contradiction.
    + destruct (selectOptimalSpot_least avail Hne HE) as (r & Hr & Hnone & Hbest).
      rewrite Hr. cbn [fst]. destruct r as [best|].
      * destruct (Hbest best eq_refl) as (Hin & Hc & Hle).
        exists el. split; [first [exact HE|reflexivity]|]. apply Havail in Hin.
        split; [tauto|]. split; [exact Hc|].
        intros spot Hs Hcs. apply Hle; [|exact Hcs]. apply Havail. split; assumption.
      * exists el. split; [first [exact HE|reflexivity]|]. intros spot Hin Hc.
        apply (proj1 Hnone eq_refl spot); [|exact Hc]. apply Havail. split; assumption.
  - cbn [fst].
    destruct (in_dec string_dec vehicleType ["MOTORCYCLE"; "CAR"; "BUS"]) as [Hin|Hout].
    + destruct (getEligibleSpotTypes_valid Hin) as (_ & el & HE' & _). congruence.
    + split; [exact Hout|]. rewrite (getEligibleSpotTypes_invalid Hout) in HE. congruence.
Qed.

(** X13. For a vehicle type of the enumeration, [allocateSpot] never
    throws and writes nothing; it returns [null] exactly when the lot has no
    AVAILABLE spot of an eligible type, and otherwise a spot of the lot that
    is AVAILABLE, of an eligible type, and precedes every such spot in the
    order of the allocation policy, although the repository hands the
    spots over sorted by the name of their type. *)
Theorem allocateSpot_best_fit_read_only (vehicleType : string) (s : Store) :
  In vehicleType ["MOTORCYCLE"; "CAR"; "BUS"] ->
  exists eligibleTypes result,
    SpotAllocator.getEligibleSpotTypes vehicleType = Return eligibleTypes
    /\ SpotAllocationService.allocateSpot vehicleType s = (Return result, s)
    /\ (result = None
        <-> forall spot, In spot (parkingSpots s) -> ~ candidate eligibleTypes spot)
    /\ forall best, result = Some best ->
         In best (parkingSpots s) /\ candidate eligibleTypes best
         /\ forall spot, In spot (parkingSpots s) -> candidate eligibleTypes spot ->
                         precedes best spot.
Proof.
  intros Hvt. pose proof (allocateSpot_spec vehicleType s) as H.
  rewrite (allocateSpot_keeps_store vehicleType s).
  destruct (fst (SpotAllocationService.allocateSpot vehicleType s)) as [[best|]|e].
  - destruct H as (el & HE & Hin & Hc & Hle). exists el, (Some best).
    split; [exact HE|]. split; [reflexivity|]. split.
    + split; [discriminate|]. intros Hnone. exfalso. exact (Hnone best Hin Hc).
    + intros b [= <-]. tauto.
  - destruct H as (el & HE & Hnone). exists el, None.
    split; [exact HE|]. split; [reflexivity|]. split.
    + split; [intros _; exact Hnone|reflexivity].
    + discriminate.
  - destruct H as [Hout _]. contradiction.
Qed.

Lemma allocateSpot_best_fit_read_only_witness :
  In "CAR" ["MOTORCYCLE"; "CAR"; "BUS"]
  /\ exists eligibleTypes result,
       SpotAllocator.getEligibleSpotTypes "CAR" = Return eligibleTypes
       /\ SpotAllocationService.allocateSpot "CAR" demo_store = (Return result, demo_store)
       /\ (result = None
           <-> forall spot, In spot (parkingSpots demo_store) ->
                            ~ candidate eligibleTypes spot)
       /\ forall best, result = Some best ->
            In best (parkingSpots demo_store) /\ candidate eligibleTypes best
            /\ forall spot, In spot (parkingSpots demo_store) ->
                            candidate eligibleTypes spot -> precedes best spot.
Proof.
  assert (H : In "CAR" ["MOTORCYCLE"; "CAR"; "BUS"]) by (simpl; tauto).
  split; [exact H|]. apply (@allocateSpot_best_fit_read_only "CAR" demo_store H).
Defined.

(** X14. For a vehicle type that names no member of [Object.prototype]:
    whenever [allocateSpot] throws, the vehicle type is outside the
    enumeration, the exception is the [Error] 'Invalid vehicle type: ...' of
    [getEligibleSpotTypes], which carries no error code, and the database is
    as it was. The [AppError] INVALID_VEHICLE_TYPE of the service is not
    thrown for such a type, because [getEligibleSpotTypes] throws first. *)
Theorem allocateSpot_throws_outside_enumeration (vehicleType : string) (s : Store) (e : exn) :
  ~ In vehicleType Object_prototype_keys ->
  fst (SpotAllocationService.allocateSpot vehicleType s) = Throw e ->
  ~ In vehicleType ["MOTORCYCLE"; "CAR"; "BUS"]
  /\ e = Error ("Invalid vehicle type: " ++ vehicleType)
  /\ errorCode_of e = None
  /\ snd (SpotAllocationService.allocateSpot vehicleType s) = s.
Proof.
  intros _ H. pose proof (allocateSpot_spec vehicleType s) as Hs. rewrite H in Hs.
  destruct Hs as [Hout ->]. repeat split; [exact Hout|apply allocateSpot_store].
Qed.

Lemma allocateSpot_throws_outside_enumeration_witness :
  fst (SpotAllocationService.allocateSpot "TRUCK" demo_store)
  = Throw (Error "Invalid vehicle type: TRUCK")
  /\ ~ In "TRUCK" ["MOTORCYCLE"; "CAR"; "BUS"]
  /\ Error "Invalid vehicle type: TRUCK" = Error ("Invalid vehicle type: " ++ "TRUCK")
  /\ errorCode_of (Error "Invalid vehicle type: TRUCK") = None
  /\ snd (SpotAllocationService.allocateSpot "TRUCK" demo_store) = demo_store.
Proof.
  split; [reflexivity|].
  apply (@allocateSpot_throws_outside_enumeration "TRUCK" demo_store
           (Error "Invalid vehicle type: TRUCK")).
  - simpl. intuition discriminate.
  - reflexivity.
Defined.

(** ** The occupancy invariant is kept by the services *)
Lemma find_by_id_spot (sp : list ParkingSpot.t) (a : ParkingSpot.t) :
  NoDup (map ParkingSpot._id sp) -> In a sp ->
  find (fun x => ParkingSpot._id x =? ParkingSpot._id a) sp = Some a.
Proof.
  intros Hnd Hin.
  destruct (@find_In_some _ (fun x => ParkingSpot._id x =? ParkingSpot._id a) sp a Hin
              (Z.eqb_refl _)) as (y & Hy).
  rewrite Hy. f_equal. apply find_some in Hy. destruct Hy as [Hy E]. apply Z.eqb_eq in E.
  apply (@NoDup_map_eq _ _ ParkingSpot._id sp); assumption.
Qed.

Lemma In_applyUpdate (status : string) (occupant : option ObjectId) (sid : Z)
    (sp : list ParkingSpot.t) (x : ParkingSpot.t) :
  In x sp -> ParkingSpot._id x <> sid ->
  In x (updateFirst (fun y => ParkingSpot._id y =? sid)
                    (ParkingSpotRepository.applyUpdate status occupant) sp).
Proof.
  intros Hin Hne. apply In_updateFirst_other; [exact Hin|]. apply Z.eqb_neq, Hne.
Qed.

Lemma In_map_id_vehicle (vs vs' : list Vehicle.t) (v : Vehicle.t) :
  map Vehicle._id vs' = map Vehicle._id vs -> In v vs ->
  exists v', In v' vs' /\ Vehicle._id v' = Vehicle._id v.
Proof.
  intros E Hin. apply (in_map Vehicle._id) in Hin. rewrite <- E in Hin.
  apply in_map_iff in Hin. destruct Hin as (v' & E' & Hin'). exists v'. split; assumption.
Qed.

Lemma occupancy_ok_record (vs : list Vehicle.t) (sp : list ParkingSpot.t)
    (ts : list ParkingTransaction.t) (v : Vehicle.t) :
  occupancy_ok vs sp ts -> Vehicle.is_currently_parked v = false ->
  occupancy_ok (vs ++ [v]) sp ts.
Proof.
  intros (K1 & K2 & K3 & K5 & K6 & K7) Hflag.
  split; [exact K1|]. split; [exact K2|]. split; [exact K3|]. split; [|split; [|exact K7]].
  - intros v' Hv' Hp. apply in_app_or in Hv'. destruct Hv' as [Hv'|[<-|[]]].
    + apply K5; assumption.
    + congruence.
  - intros tr Htr. destruct (K6 tr Htr) as (v' & Hv' & E).
    exists v'. split; [apply in_or_app; left; exact Hv'|exact E].
Qed.

Lemma occupancy_ok_entry (vs : list Vehicle.t) (sp : list ParkingSpot.t)
    (ts : list ParkingTransaction.t) (v : Vehicle.t) (a : ParkingSpot.t) (n now : Z) :
  NoDup (map Vehicle._id vs) ->
  occupancy_ok vs sp ts ->
  In v vs -> In a sp -> ParkingSpot.status a = "AVAILABLE" ->
  occupancy_ok
    (updateFirst (fun x => Vehicle._id x =? Vehicle._id v) (VehicleRepository.setParked true) vs)
    (updateFirst (fun x => ParkingSpot._id x =? ParkingSpot._id a)
                 (ParkingSpotRepository.applyUpdate "OCCUPIED" (Some (Vehicle._id v))) sp)
    (ts ++ [ParkingTransaction.mk n (Vehicle._id v) (ParkingSpot._id a) now
              None None None "PENDING" None]).
Proof.
  intros Hvid (K1 & K2 & K3 & K5 & K6 & K7) Hv Ha Hst.
  assert (Hnot : forall tr, In tr ts -> ParkingTransaction.is_open tr = true ->
                            ParkingTransaction.spot_id tr <> ParkingSpot._id a).
  { intros tr Htr O E. destruct (K2 tr Htr O) as (spot & Hs & Eid & Hocc & _).
    assert (spot = a) by (apply (@NoDup_map_eq _ _ ParkingSpot._id sp); congruence).
    subst spot. rewrite Hst in Hocc. discriminate. }
  split; [|split; [|split; [|split; [|split]]]].
  - rewrite map_key_updateFirst by reflexivity. exact K1.
  - intros tr Htr O. apply in_app_or in Htr. destruct Htr as [Htr|[<-|[]]].
    + destruct (K2 tr Htr O) as (spot & Hs & Eid & Hocc & Hcur).
      exists spot. split; [|tauto]. apply In_applyUpdate; [exact Hs|].
      rewrite Eid. apply Hnot; assumption.
    + exists (ParkingSpotRepository.applyUpdate "OCCUPIED" (Some (Vehicle._id v)) a).
      split; [apply In_updateFirst_image, find_by_id_spot; assumption|].
      repeat split.
  - intros tr1 tr2 H1 H2 O1 O2 E. apply in_app_or in H1, H2.
    destruct H1 as [H1|[<-|[]]]; destruct H2 as [H2|[<-|[]]].
    + apply K3; assumption.
    + simpl in E. exfalso. exact (Hnot tr1 H1 O1 E).
    + simpl in E. exfalso. exact (Hnot tr2 H2 O2 (eq_sym E)).
    + reflexivity.
  - intros v' Hv' Hp. apply In_setParked in Hv'; [|exact Hvid].
    destruct Hv' as [(y & Hy & Hid & ->)|[Hv' Hne]].
    + eexists. split; [apply in_or_app; right; left; reflexivity|].
      split; [reflexivity|]. simpl. rewrite Hid. reflexivity.
    + destruct (K5 v' Hv' Hp) as (tr & Htr & O & E).
      exists tr. split; [apply in_or_app; left; exact Htr|]. split; assumption.
  - intros tr Htr. apply in_app_or in Htr.
    assert (Hmap : map Vehicle._id
                     (updateFirst (fun x => Vehicle._id x =? Vehicle._id v)
                                  (VehicleRepository.setParked true) vs)
                   = map Vehicle._id vs)
      by (apply map_key_updateFirst; reflexivity).
    destruct Htr as [Htr|[<-|[]]].
    + destruct (K6 tr Htr) as (v' & Hv' & E).
      destruct (@In_map_id_vehicle _ _ _ Hmap Hv') as (v'' & Hv'' & E'').
      exists v''. split; [exact Hv''|congruence].
    + destruct (@In_map_id_vehicle _ _ _ Hmap Hv) as (v'' & Hv'' & E'').
      exists v''. split; [exact Hv''|exact E''].
  - intros tr Htr. apply in_app_or in Htr. destruct Htr as [Htr|[<-|[]]].
    + apply K7, Htr.
    + split; [reflexivity|]. simpl. split; reflexivity.
Qed.

Lemma In_applyExit (tid e d : Z) (fee : Q) (st : string) (ts : list ParkingTransaction.t)
    (tr : ParkingTransaction.t) :
  NoDup (map ParkingTransaction._id ts) ->
  In tr (updateFirst (fun t => ParkingTransaction._id t =? tid)
                     (TransactionRepository.applyExit e d fee st) ts) ->
  (exists y, In y ts /\ ParkingTransaction._id y = tid
             /\ tr = TransactionRepository.applyExit e d fee st y)
  \/ (In tr ts /\ ParkingTransaction._id tr <> tid).
Proof.
  intros Hnd. apply In_updateFirst_unique with (key := ParkingTransaction._id);
    [intros x; apply Z.eqb_eq|exact Hnd].
Qed.

Lemma occupancy_ok_exit (vs : list Vehicle.t) (sp : list ParkingSpot.t)
    (ts : list ParkingTransaction.t) (n : Z) (v : Vehicle.t) (tr0 : ParkingTransaction.t)
    (spot0 : ParkingSpot.t) (now d : Z) (fee : Q) :
  ledger_ok vs ts n ->
  occupancy_ok vs sp ts ->
  In tr0 ts -> ParkingTransaction.is_open tr0 = true ->
  ParkingTransaction.vehicle_id tr0 = Vehicle._id v ->
  ParkingSpot._id spot0 = ParkingTransaction.spot_id tr0 ->
  ParkingTransaction.entry_time tr0 < now ->
  d = (now - ParkingTransaction.entry_time tr0) / 60000 ->
  (0 <= fee)%Q ->
  occupancy_ok
    (updateFirst (fun x => Vehicle._id x =? Vehicle._id v) (VehicleRepository.setParked false) vs)
    (updateFirst (fun x => ParkingSpot._id x =? ParkingSpot._id spot0)
                 (ParkingSpotRepository.applyUpdate "AVAILABLE" None) sp)
    (updateFirst (fun t => ParkingTransaction._id t =? ParkingTransaction._id tr0)
                 (TransactionRepository.applyExit now d fee "PENDING") ts).
Proof.
  intros (H1 & _ & _ & H4 & _ & _ & H7) (K1 & K2 & K3 & K5 & K6 & K7) H0 O0 Ev Es Ht Ed Hfee.
  assert (Hold : forall tr,
             In tr (updateFirst (fun t => ParkingTransaction._id t =? ParkingTransaction._id tr0)
                                (TransactionRepository.applyExit now d fee "PENDING") ts) ->
             ParkingTransaction.is_open tr = true ->
             In tr ts /\ ParkingTransaction._id tr <> ParkingTransaction._id tr0).
  { intros tr Htr O. apply In_applyExit in Htr; [|exact H4].
    destruct Htr as [(y & _ & _ & ->)|Htr]; [discriminate|exact Htr]. }
  assert (Hkeep : forall tr, In tr ts ->
             ParkingTransaction._id tr <> ParkingTransaction._id tr0 ->
             In tr (updateFirst (fun t => ParkingTransaction._id t =? ParkingTransaction._id tr0)
                                (TransactionRepository.applyExit now d fee "PENDING") ts)).
  { intros tr Htr Hne. apply In_updateFirst_other; [exact Htr|]. apply Z.eqb_neq, Hne. }
  split; [|split; [|split; [|split; [|split]]]].
  - rewrite map_key_updateFirst by reflexivity. exact K1.
  - intros tr Htr O. destruct (Hold tr Htr O) as [Hin Hne].
    destruct (K2 tr Hin O) as (spot & Hs & Eid & Hocc & Hcur).
    exists spot. split; [|tauto]. apply In_applyUpdate; [exact Hs|].
    rewrite Eid, Es. intros E. apply Hne. f_equal. apply K3; assumption.
  - intros tr1 tr2 Hi1 Hi2 O1 O2 E.
    destruct (Hold tr1 Hi1 O1) as [Hin1 _]. destruct (Hold tr2 Hi2 O2) as [Hin2 _].
    apply K3; assumption.
  - intros v' Hv' Hp. apply In_setParked in Hv'; [|exact H1].
    destruct Hv' as [(y & _ & _ & ->)|[Hv' Hne]]; [discriminate|].
    destruct (K5 v' Hv' Hp) as (tr & Htr & O & E).
    exists tr. split; [|split; assumption]. apply Hkeep; [exact Htr|].
    intros Eid. apply Hne. rewrite <- E, <- Ev. f_equal.
    apply (@NoDup_map_eq _ _ ParkingTransaction._id ts); assumption.
  - intros tr Htr.
    assert (Hmap : map Vehicle._id
                     (updateFirst (fun x => Vehicle._id x =? Vehicle._id v)
                                  (VehicleRepository.setParked false) vs)
                   = map Vehicle._id vs)
      by (apply map_key_updateFirst; reflexivity).
    apply In_updateFirst in Htr.
    destruct Htr as [(y & Hy & _ & ->)|Htr].
    + destruct (K6 y Hy) as (v' & Hv' & E).
      destruct (@In_map_id_vehicle _ _ _ Hmap Hv') as (v'' & Hv'' & E'').
      exists v''. split; [exact Hv''|]. simpl. congruence.
    + destruct (K6 tr Htr) as (v' & Hv' & E).
      destruct (@In_map_id_vehicle _ _ _ Hmap Hv') as (v'' & Hv'' & E'').
      exists v''. split; [exact Hv''|congruence].
  - intros tr Htr. apply In_applyExit in Htr; [|exact H4].
    destruct Htr as [(y & Hy & Eid & ->)|[Htr _]]; [|apply K7, Htr].
    assert (y = tr0) by (apply (@NoDup_map_eq _ _ ParkingTransaction._id ts); assumption).
    subst y. split; [reflexivity|]. simpl. split; [exact Ht|].
    split; [rewrite Ed; reflexivity|]. exists fee. split; [reflexivity|exact Hfee].
Qed.

Lemma calculateFee_Return_inv (vehicleType : string) (entryTime exitTime : Z)
    (rateCard : RateCard.t) (r : FeeCalculator.t) :
  FeeCalculationService.calculateFee vehicleType entryTime exitTime rateCard = Return r ->
  FeeCalculator.calculateParkingFee vehicleType entryTime exitTime rateCard = Return r.
Proof.
  unfold FeeCalculationService.calculateFee.
  destruct (vehicleType =? "")%string; [discriminate|tauto].
Qed.

Lemma calculateFee_duration (vehicleType : string) (entryTime exitTime : Z)
    (rateCard : RateCard.t) (r : FeeCalculator.t) :
  FeeCalculationService.calculateFee vehicleType entryTime exitTime rateCard = Return r ->
  entryTime < exitTime
  /\ FeeCalculator.duration_minutes r = (exitTime - entryTime) / 60000.
Proof.
  intros H. apply calculateFee_Return_inv, calculateParkingFee_Return_inv in H.
  destruct H as (_ & Ht & [[_ ->]|[_ ->]]); cbv zeta; cbn [FeeCalculator.duration_minutes];
    (split; [exact Ht|apply durationMinutes_div]).
Qed.

(** ** The entry and exit services keep the lot invariant *)

Lemma lot_ok_entry_committed (s : Store) (v : Vehicle.t) (a : ParkingSpot.t) (now : Z)
    (ty : string) :
  lot_ok s -> In v (vehicles s) -> Vehicle.is_currently_parked v = false ->
  In a (parkingSpots s) -> ParkingSpot.status a = "AVAILABLE" ->
  lot_ok (entry_committed s (Vehicle._id v) a now ty).
Proof.
  intros [Hc Ho] Hv Hflag Ha Hst. split.
  - unfold consistent, entry_committed. cbn [vehicles parkingTransactions nextObjectId].
    assert (Hc' := Hc). destruct Hc' as (_ & _ & H3 & _ & _ & H6 & _).
    apply ledger_ok_open; [exact Hc|apply (H3 v Hv)|].
    intros tr Htr O E. specialize (H6 tr v Htr Hv O E). congruence.
  - unfold entry_committed. cbn [vehicles parkingSpots parkingTransactions].
    apply occupancy_ok_entry; try assumption. apply Hc.
Qed.

Lemma lot_ok_vehicle_recorded (entryData : EntryService.entryData_t) (s : Store) :
  lot_ok s ->
  find (fun v => (Vehicle.license_plate v
                  =? toUpperCase (EntryService.license_plate entryData))%string)
       (vehicles s) = None ->
  lot_ok (vehicle_recorded entryData s).
Proof.
  intros [Hc Ho] Hfind. split.
  - unfold consistent, vehicle_recorded, entry_vehicle.
    cbn [vehicles parkingTransactions nextObjectId].
    apply ledger_ok_create_vehicle; [exact Hc|apply find_plate_none, Hfind].
  - unfold vehicle_recorded. cbn [vehicles parkingSpots parkingTransactions].
    apply occupancy_ok_record; [exact Ho|reflexivity].
Qed.

Lemma lot_ok_from_step3 (entryData : EntryService.entryData_t) (now : Z) (s s1 : Store)
    (v : Vehicle.t) :
  entry_from_step3 entryData now s s1 v ->
  lot_ok s1 -> In v (vehicles s1) -> Vehicle.is_currently_parked v = false ->
  lot_ok (snd (EntryService.processEntry entryData now s)).
Proof.
  unfold entry_from_step3. cbv zeta. intros H Hok Hv Hflag.
  pose proof (allocateSpot_spec (EntryService.vehicle_type entryData) s1) as Hspec.
  destruct (fst (SpotAllocationService.allocateSpot _ s1)) as [[a|]|e]; rewrite H; cbn [snd];
    try exact Hok.
  destruct Hspec as (el & _ & Ha & [Hst _] & _).
  apply lot_ok_entry_committed; assumption.
Qed.

Lemma processEntry_lot_ok (entryData : EntryService.entryData_t) (now : Z) (s : Store) :
  lot_ok s -> lot_ok (snd (EntryService.processEntry entryData now s)).
Proof.
  intros Hok. pose proof (processEntry_inv entryData now s) as H.
  destruct (find _ (vehicles s)) as [v|] eqn:Efind.
  - destruct (Vehicle.is_currently_parked v) eqn:Eflag.
    + rewrite H. exact Hok.
    + apply find_some in Efind. eapply lot_ok_from_step3; [exact H|exact Hok|tauto|exact Eflag].
  - destruct (Vehicle.validate _).
    + rewrite H. cbn [snd]. destruct Hok as [Hc Ho]. split; [|exact Ho].
      unfold consistent. cbn [vehicles parkingTransactions nextObjectId].
      apply ledger_ok_next, Hc.
    + eapply lot_ok_from_step3; [exact H|apply lot_ok_vehicle_recorded; assumption| |reflexivity].
      unfold vehicle_recorded. cbn [vehicles]. apply in_or_app. right. left. reflexivity.
Qed.

Lemma lot_ok_exit_committed (s : Store) (v : Vehicle.t) (tr0 : ParkingTransaction.t)
    (spot : ParkingSpot.t) (fd : FeeCalculator.t) (now : Z) (rc : RateCard.t) :
  lot_ok s ->
  find (fun tr => (ParkingTransaction.vehicle_id tr =? Vehicle._id v)
                  && ParkingTransaction.is_open tr) (parkingTransactions s) = Some tr0 ->
  find (fun sp => ParkingSpot._id sp =? ParkingTransaction.spot_id tr0) (parkingSpots s)
  = Some spot ->
  FeeCalculationService.calculateFee (Vehicle.vehicle_type v)
    (ParkingTransaction.entry_time tr0) now rc = Return fd ->
  (0 <= FeeCalculator.parking_fee fd)%Q ->
  lot_ok (exit_committed s v tr0 spot fd now).
Proof.
  intros [Hc Ho] Etr Espot Efee Hfee. split.
  - unfold consistent, exit_committed. cbn [vehicles parkingTransactions nextObjectId].
    apply ledger_ok_unpark; [apply ledger_ok_close, Hc|].
    eapply no_open_after_close; [exact Hc|exact Etr].
  - unfold exit_committed. cbn [vehicles parkingSpots parkingTransactions].
    apply find_some in Etr. destruct Etr as [H0 P0].
    apply andb_true_iff in P0. destruct P0 as [V0 O0]. apply Z.eqb_eq in V0.
    apply find_some in Espot. destruct Espot as [_ Es]. apply Z.eqb_eq in Es.
    destruct (calculateFee_duration _ _ _ _ Efee) as [Ht Ed].
    eapply occupancy_ok_exit; try eassumption.
Qed.

Lemma processExit_lot_ok (license_plate : string) (now : Z) (s : Store) :
  lot_ok s -> lot_ok (snd (ExitService.processExit license_plate now s)).
Proof.
  intros Hok. pose proof (processExit_inv license_plate now s) as H.
  destruct (find _ (vehicles s)) as [v|]; [|rewrite H; exact Hok].
  destruct (negb (Vehicle.is_currently_parked v)); [rewrite H; exact Hok|].
  destruct (find _ (parkingTransactions s)) as [tr0|] eqn:Etr; [|rewrite H; exact Hok].
  destruct (find _ (rateCards s)) as [rc|]; [|rewrite H; exact Hok].
  destruct (FeeCalculationService.calculateFee _ _ _ _) as [fd|e] eqn:Efee;
    [|rewrite H; exact Hok].
  unfold exit_from_step5 in H.
  destruct (FeeCalculator.duration_minutes fd <? 0); [rewrite H; exact Hok|].
  destruct (negb (Qle_bool 0 (FeeCalculator.parking_fee fd))) eqn:Efd;
    [rewrite H; exact Hok|].
  apply negb_false_iff, Qle_bool_iff in Efd.
  destruct (find _ (parkingSpots s)) as [spot|] eqn:Espot.
  - destruct (find (fun t => ParkingTransaction._id t =? ParkingTransaction._id tr0) _);
      rewrite H; cbn [snd]; eapply lot_ok_exit_committed; eassumption.
  - exfalso. destruct Hok as [_ (_ & K2 & _)].
    apply find_some in Etr. destruct Etr as [H0 P0].
    apply andb_true_iff in P0. destruct P0 as [_ O0].
    destruct (K2 tr0 H0 O0) as (sp0 & Hs & Eid & _).
    apply (find_none _ _ Espot) in Hs. apply Z.eqb_neq in Hs. contradiction.
Qed.

Lemma run_lot_ok (history : list request) (s : Store) : lot_ok s -> lot_ok (run history s).
Proof.
  revert s. induction history as [|r h IH]; intros s Hs; [exact Hs|].
  apply (IH (handle r s)). destruct r; simpl;
    [apply processEntry_lot_ok|apply processExit_lot_ok]; exact Hs.
Qed.

Lemma in_service_lot_ok (s : Store) : in_service s -> lot_ok s.
Proof.
  intros (s0 & history & [Hp Hnd] & ->). apply run_lot_ok. split.
  - apply provisioned_consistent, Hp.
  - destruct Hp as [Hv Ht]. rewrite Hv, Ht.
    split; [exact Hnd|]. repeat split; intros; contradiction.
Qed.

(** ** The services on a lot in service *)

(** ** What a successful entry did *)

(** The worked examples are databases of a lot in service. *)
Lemma demo_store_in_service : in_service demo_store.
Proof.
  exists demo_store, []. split; [|reflexivity]. split; [split; reflexivity|].
  simpl. repeat constructor; simpl; intuition discriminate.
Qed.

Lemma demo_parked_in_service : in_service demo_parked.
Proof.
  exists demo_store, [Entry demo_entry 1769076000000].
  split; [|reflexivity]. split; [split; reflexivity|].
  simpl. repeat constructor; simpl; intuition discriminate.
Qed.

Lemma demo_exited_in_service : in_service demo_exited.
Proof.
  exists demo_store, [Entry demo_entry 1769076000000; Exit "KA01AB1234" 1769085300000].
  split; [|reflexivity]. split; [split; reflexivity|].
  simpl. repeat constructor; simpl; intuition discriminate.
Qed.

(** The vehicle and the database [processEntry] has after step 2. *)
Lemma processEntry_Return_inv (entryData : EntryService.entryData_t) (now : Z) (s : Store)
    (r : EntryService.t) :
  fst (EntryService.processEntry entryData now s) = Return r ->
  exists s1 vehicle spot,
    ((find (fun v => (Vehicle.license_plate v
                      =? toUpperCase (EntryService.license_plate entryData))%string)
           (vehicles s) = Some vehicle
      /\ Vehicle.is_currently_parked vehicle = false /\ s1 = s)
     \/ (find (fun v => (Vehicle.license_plate v
                         =? toUpperCase (EntryService.license_plate entryData))%string)
              (vehicles s) = None
         /\ vehicle = entry_vehicle entryData s /\ s1 = vehicle_recorded entryData s))
    /\ In vehicle (vehicles s1)
    /\ Vehicle.license_plate vehicle = toUpperCase (EntryService.license_plate entryData)
    /\ Vehicle.is_currently_parked vehicle = false
    /\ parkingSpots s1 = parkingSpots s
    /\ fst (SpotAllocationService.allocateSpot (EntryService.vehicle_type entryData) s1)
       = Return (Some spot)
    /\ EntryService.processEntry entryData now s
       = (Return (entry_result s1 (Vehicle._id vehicle) spot now),
          entry_committed s1 (Vehicle._id vehicle) spot now
            (EntryService.vehicle_type entryData)).
Proof.
  intros Hr. pose proof (processEntry_inv entryData now s) as H.
  destruct (find _ (vehicles s)) as [v|] eqn:Efind.
  - destruct (Vehicle.is_currently_parked v) eqn:Eflag;
      [rewrite H in Hr; discriminate|].
    unfold entry_from_step3 in H. cbv zeta in H.
    destruct (fst (SpotAllocationService.allocateSpot _ s)) as [[spot|]|e] eqn:Ea;
      try (rewrite H in Hr; discriminate).
    exists s, v, spot. apply find_some in Efind. destruct Efind as [Hin Hp].
    apply String.eqb_eq in Hp.
    split; [left; repeat split; first [exact Eflag|reflexivity]|].
    repeat split; first [assumption|reflexivity].
  - destruct (Vehicle.validate _) eqn:Ev; [rewrite H in Hr; discriminate|].
    unfold entry_from_step3 in H. cbv zeta in H.
    destruct (fst (SpotAllocationService.allocateSpot _ _)) as [[spot|]|e] eqn:Ea;
      try (rewrite H in Hr; discriminate).
    exists (vehicle_recorded entryData s), (entry_vehicle entryData s), spot.
    split; [right; repeat split|].
    split; [unfold vehicle_recorded; cbn [vehicles]; apply in_or_app; right; left;
            reflexivity|].
    repeat split; first [assumption|reflexivity].
Qed.

Lemma find_by_key (A : Type) (key : A -> Z) (l : list A) (a : A) :
  NoDup (map key l) -> In a l -> find (fun x => key x =? key a) l = Some a.
Proof.
  intros Hnd Hin.
  destruct (@find_In_some _ (fun x => key x =? key a) l a Hin (Z.eqb_refl _)) as (y & Hy).
  rewrite Hy. f_equal. apply find_some in Hy. destruct Hy as [Hy E].
  apply Z.eqb_eq in E. apply (@NoDup_map_eq _ _ key l); assumption.
Qed.

Lemma lot_ok_after_step2 (entryData : EntryService.entryData_t) (s s1 : Store)
    (vehicle : Vehicle.t) :
  lot_ok s ->
  (find (fun v => (Vehicle.license_plate v
                   =? toUpperCase (EntryService.license_plate entryData))%string)
        (vehicles s) = Some vehicle
   /\ Vehicle.is_currently_parked vehicle = false /\ s1 = s)
  \/ (find (fun v => (Vehicle.license_plate v
                      =? toUpperCase (EntryService.license_plate entryData))%string)
           (vehicles s) = None
      /\ vehicle = entry_vehicle entryData s /\ s1 = vehicle_recorded entryData s) ->
  lot_ok s1.
Proof.
  intros Hok [(_ & _ & ->)|(Hnone & _ & ->)]; [exact Hok|].
  apply lot_ok_vehicle_recorded; assumption.
Qed.

(** X15. On a lot in service, when [processEntry] returns, it has
    allocated the spot that was AVAILABLE, of a type eligible for the vehicle
    type of the request, and first in the order of the allocation policy; the
    result names that spot and the entry time; and in the database it leaves
    the vehicle with the requested license plate is flagged as parked, the
    spot is OCCUPIED by that vehicle, and an open PENDING transaction with
    the returned id links the vehicle, the spot and the entry time. *)
Theorem processEntry_parks_at_best_spot (entryData : EntryService.entryData_t) (now : Z)
    (s : Store) (r : EntryService.t) :
  in_service s ->
  fst (EntryService.processEntry entryData now s) = Return r ->
  exists eligibleTypes spot vehicle,
    SpotAllocator.getEligibleSpotTypes (EntryService.vehicle_type entryData)
    = Return eligibleTypes
    /\ In spot (parkingSpots s) /\ candidate eligibleTypes spot
    /\ (forall other, In other (parkingSpots s) -> candidate eligibleTypes other ->
                      precedes spot other)
    /\ EntryService.vehicle_id r = Vehicle._id vehicle
    /\ EntryService.spot_id r = ParkingSpot._id spot
    /\ EntryService.spot_details r
       = EntryService.mk_spot_details (ParkingSpot.floor_number spot)
           (ParkingSpot.spot_number spot) (ParkingSpot.spot_type spot)
    /\ EntryService.entry_time r = now
    /\ In vehicle (vehicles (snd (EntryService.processEntry entryData now s)))
    /\ Vehicle.license_plate vehicle = toUpperCase (EntryService.license_plate entryData)
    /\ Vehicle.is_currently_parked vehicle = true
    /\ In (ParkingSpot.mk (ParkingSpot._id spot) (ParkingSpot.floor_number spot)
             (ParkingSpot.spot_number spot) (ParkingSpot.spot_type spot) "OCCUPIED"
             (Some (Vehicle._id vehicle)))
          (parkingSpots (snd (EntryService.processEntry entryData now s)))
    /\ In (ParkingTransaction.mk (EntryService.transaction_id r) (Vehicle._id vehicle)
             (ParkingSpot._id spot) now None None None "PENDING" None)
          (parkingTransactions (snd (EntryService.processEntry entryData now s))).
Proof.
  intros Hs Hr. apply in_service_lot_ok in Hs.
  destruct (processEntry_Return_inv _ _ _ Hr)
    as (s1 & v & spot & Hcase & Hv & Hplate & Hflag & Hsp & Ha & Hp).
  pose proof (lot_ok_after_step2 Hs Hcase) as [Hc (K1 & _)].
  pose proof (allocateSpot_spec (EntryService.vehicle_type entryData) s1) as Hspec.
  rewrite Ha in Hspec. destruct Hspec as (el & HE & Hin & Hcand & Hleast).
  assert (Hfs : find (fun x => ParkingSpot._id x =? ParkingSpot._id spot) (parkingSpots s1)
                = Some spot) by (apply (@find_by_key _ ParkingSpot._id); assumption).
  rewrite Hsp in Hin, Hleast.
  rewrite Hp in Hr |- *. cbn [fst snd] in Hr |- *. injection Hr as <-.
  exists el, spot, (VehicleRepository.setParked true v).
  rewrite setParked_id, setParked_plate.
  unfold entry_committed, entry_result.
  cbn [vehicles parkingSpots parkingTransactions nextObjectId EntryService.vehicle_id
       EntryService.spot_id EntryService.spot_details EntryService.entry_time
       EntryService.transaction_id].
  split; [exact HE|]. split; [exact Hin|]. split; [exact Hcand|]. split; [exact Hleast|].
  do 4 (split; [reflexivity|]).
  split; [apply In_updateFirst_image, find_by_key; [apply Hc|exact Hv]|].
  split; [exact Hplate|]. split; [reflexivity|].
  split.
  - apply (@In_updateFirst_image _ _
             (ParkingSpotRepository.applyUpdate "OCCUPIED" (Some (Vehicle._id v)))).
    exact Hfs.
  - apply in_or_app. right. left. reflexivity.
Qed.

Lemma processEntry_parks_at_best_spot_witness :
  in_service demo_store
  /\ fst (EntryService.processEntry demo_entry 1769076000000 demo_store)
     = Return (EntryService.mk 101 100 1 (EntryService.mk_spot_details 1 1 "CAR")
                 1769076000000 "Vehicle successfully parked at Floor 1, Spot 1")
  /\ exists eligibleTypes spot vehicle,
       SpotAllocator.getEligibleSpotTypes "CAR" = Return eligibleTypes
       /\ In spot (parkingSpots demo_store) /\ candidate eligibleTypes spot
       /\ 1 = ParkingSpot._id spot
       /\ In vehicle (vehicles demo_parked)
       /\ Vehicle.is_currently_parked vehicle = true.
Proof.
  split; [exact demo_store_in_service|]. split; [vm_compute; reflexivity|].
  destruct (@processEntry_parks_at_best_spot demo_entry 1769076000000 demo_store
              (EntryService.mk 101 100 1 (EntryService.mk_spot_details 1 1 "CAR")
                 1769076000000 "Vehicle successfully parked at Floor 1, Spot 1")
              demo_store_in_service eq_refl)
    as (el & spot & v & H1 & H2 & H3 & _ & _ & H5 & _ & _ & H6 & _ & H7 & _).
  exists el, spot, v. repeat split; try assumption; apply H3.
Defined.

(** ** An entry the lot has no spot for *)

(** X16. When [processEntry] throws NO_SPOT_AVAILABLE, no spot of the
    lot is AVAILABLE with a type eligible for the vehicle type of the
    request, and spots, transactions and lot counters are as they were; for a
    license plate already on file the whole database is unchanged, but for a
    new license plate the vehicle record created at step 2 stays on file,
    not parked: the failed entry is not rolled back. *)
Theorem processEntry_no_spot_keeps_new_vehicle (entryData : EntryService.entryData_t)
    (now : Z) (s : Store) (e : exn) :
  fst (EntryService.processEntry entryData now s) = Throw e ->
  errorCode_of e = Some "NO_SPOT_AVAILABLE" ->
  let s' := snd (EntryService.processEntry entryData now s) in
  (exists eligibleTypes,
     SpotAllocator.getEligibleSpotTypes (EntryService.vehicle_type entryData)
     = Return eligibleTypes
     /\ forall spot, In spot (parkingSpots s) -> ~ candidate eligibleTypes spot)
  /\ parkingSpots s' = parkingSpots s
  /\ parkingTransactions s' = parkingTransactions s
  /\ parkingLots s' = parkingLots s
  /\ match fst (VehicleRepository.findByLicensePlate
                  (EntryService.license_plate entryData) s) with
     | Return (Some _) => s' = s
     | _ =>
       exists _id,
         vehicles s'
         = (vehicles s
              ++ [Vehicle.mk _id (toUpperCase (EntryService.license_plate entryData))
                    (EntryService.vehicle_type entryData)
                    (EntryService.owner_name entryData)
                    (EntryService.registration_number entryData) false])%list
     end.
Proof.
  intros He Hcode. cbv zeta.
  unfold VehicleRepository.findByLicensePlate, gets. cbn [fst].
  pose proof (processEntry_inv entryData now s) as H.
  destruct (find _ (vehicles s)) as [v|] eqn:Efind.
  - destruct (Vehicle.is_currently_parked v) eqn:Eflag.
    { rewrite H in He. cbn [fst] in He. injection He as <-. discriminate. }
    unfold entry_from_step3 in H. cbv zeta in H.
    pose proof (allocateSpot_spec (EntryService.vehicle_type entryData) s) as Hspec.
    destruct (fst (SpotAllocationService.allocateSpot _ s)) as [[spot|]|e'];
      rewrite H in He |- *; cbn [fst snd] in He |- *.
    + discriminate.
    + repeat split; try reflexivity. exact Hspec.
    + injection He as <-. destruct Hspec as [_ ->]. discriminate.
  - destruct (Vehicle.validate _) eqn:Ev.
    { rewrite H in He. cbn [fst] in He. injection He as <-. discriminate. }
    unfold entry_from_step3 in H. cbv zeta in H.
    pose proof (allocateSpot_spec (EntryService.vehicle_type entryData)
                  (vehicle_recorded entryData s)) as Hspec.
    destruct (fst (SpotAllocationService.allocateSpot _ _)) as [[spot|]|e'];
      rewrite H in He |- *; cbn [fst snd] in He |- *.
    + discriminate.
    + repeat split; try reflexivity; [exact Hspec|].
      exists (nextObjectId s). reflexivity.
    + injection He as <-. destruct Hspec as [_ ->]. discriminate.
Qed.

Lemma processEntry_no_spot_keeps_new_vehicle_witness :
  let entryData := EntryService.mk_entryData "KA05XY0001" "BUS" None None in
  fst (EntryService.processEntry entryData 1769076000000 demo_store)
  = Throw (AppError "No available parking spots for vehicle type BUS" 409 "NO_SPOT_AVAILABLE")
  /\ vehicles (snd (EntryService.processEntry entryData 1769076000000 demo_store))
     = [Vehicle.mk 100 "KA05XY0001" "BUS" None None false].
Proof.
  cbv zeta. split; [vm_compute; reflexivity|].
  destruct (@processEntry_no_spot_keeps_new_vehicle
              (EntryService.mk_entryData "KA05XY0001" "BUS" None None) 1769076000000
              demo_store _ eq_refl eq_refl) as (_ & _ & _ & _ & id & H).
  cbn [fst VehicleRepository.findByLicensePlate] in H. rewrite H.
  vm_compute in H. injection H as <-. reflexivity.
Defined.

(** ** What a successful exit did *)

Lemma processExit_Return_inv (license_plate : string) (now : Z) (s : Store)
    (r : ExitService.t) :
  fst (ExitService.processExit license_plate now s) = Return r ->
  exists vehicle tr spot rateCard feeDetails,
    find (fun v => (Vehicle.license_plate v =? toUpperCase license_plate)%string)
         (vehicles s) = Some vehicle
    /\ Vehicle.is_currently_parked vehicle = true
    /\ find (fun tr => (ParkingTransaction.vehicle_id tr =? Vehicle._id vehicle)
                       && ParkingTransaction.is_open tr) (parkingTransactions s) = Some tr
    /\ find (fun sp => ParkingSpot._id sp =? ParkingTransaction.spot_id tr) (parkingSpots s)
       = Some spot
    /\ find (fun rc => (RateCard.vehicle_type rc =? Vehicle.vehicle_type vehicle)%string)
            (rateCards s) = Some rateCard
    /\ FeeCalculationService.calculateFee (Vehicle.vehicle_type vehicle)
         (ParkingTransaction.entry_time tr) now rateCard = Return feeDetails
    /\ (0 <= FeeCalculator.parking_fee feeDetails)%Q
    /\ ExitService.processExit license_plate now s
       = (Return (exit_result vehicle tr tr spot feeDetails now),
          exit_committed s vehicle tr spot feeDetails now).
Proof.
  intros Hr. pose proof (processExit_inv license_plate now s) as H.
  destruct (find _ (vehicles s)) as [v|] eqn:Ev; [|rewrite H in Hr; discriminate].
  destruct (Vehicle.is_currently_parked v) eqn:Eflag; cbn [negb] in H;
    [|rewrite H in Hr; discriminate].
  destruct (find _ (parkingTransactions s)) as [tr0|] eqn:Etr;
    [|rewrite H in Hr; discriminate].
  destruct (find _ (rateCards s)) as [rc|] eqn:Erc; [|rewrite H in Hr; discriminate].
  destruct (FeeCalculationService.calculateFee _ _ _ _) as [fd|e] eqn:Efee;
    [|rewrite H in Hr; discriminate].
  unfold exit_from_step5 in H.
  destruct (FeeCalculator.duration_minutes fd <? 0); [rewrite H in Hr; discriminate|].
  destruct (negb (Qle_bool 0 (FeeCalculator.parking_fee fd))) eqn:Efd;
    [rewrite H in Hr; discriminate|].
  apply negb_false_iff, Qle_bool_iff in Efd.
  destruct (find _ (parkingSpots s)) as [spot|] eqn:Espot;
    [|rewrite H in Hr; discriminate].
  destruct (find (fun t => ParkingTransaction._id t =? ParkingTransaction._id tr0) _)
    as [found|] eqn:Ef; [|rewrite H in Hr; discriminate].
  exists v, tr0, spot, rc, fd. do 6 (split; [first [reflexivity|assumption]|]).
  split; [exact Efd|].
  rewrite H. apply find_some in Ef. destruct Ef as [_ Ef]. apply Z.eqb_eq in Ef.
  unfold exit_result. rewrite Ef. reflexivity.
Qed.

(** X17. On a lot in service, when [processExit] returns, the vehicle
    with the license plate held an open transaction; the fee is the one
    [calculateParkingFee] computes for the recorded type of the vehicle, the
    entry time of the transaction, now, and the rate card of that type; the
    result reports the transaction, vehicle, spot, times, duration and fee;
    and in the database it leaves the transaction is closed with exit time,
    duration and fee, PENDING payment, the vehicle is no longer flagged as
    parked and holds no open transaction, and the spot is AVAILABLE. *)
Theorem processExit_settles_the_stay (license_plate : string) (now : Z) (s : Store)
    (r : ExitService.t) :
  in_service s ->
  fst (ExitService.processExit license_plate now s) = Return r ->
  let s' := snd (ExitService.processExit license_plate now s) in
  exists vehicle tr rateCard feeDetails,
    In vehicle (vehicles s)
    /\ Vehicle.license_plate vehicle = toUpperCase license_plate
    /\ In tr (parkingTransactions s)
    /\ ParkingTransaction.vehicle_id tr = Vehicle._id vehicle
    /\ ParkingTransaction.exit_time tr = None
    /\ fst (RateCardRepository.findByVehicleType (Vehicle.vehicle_type vehicle) s)
       = Return (Some rateCard)
    /\ FeeCalculator.calculateParkingFee (Vehicle.vehicle_type vehicle)
         (ParkingTransaction.entry_time tr) now rateCard = Return feeDetails
    /\ r = ExitService.mk (ParkingTransaction._id tr) (Vehicle._id vehicle)
             (ParkingTransaction.spot_id tr) (ParkingTransaction.entry_time tr) now
             (FeeCalculator.duration_minutes feeDetails)
             (FeeCalculator.duration_formatted feeDetails)
             (FeeCalculator.parking_fee feeDetails)
             "USD" "PENDING" "Thank you for using our parking lot"
    /\ In (ParkingTransaction.mk (ParkingTransaction._id tr) (Vehicle._id vehicle)
             (ParkingTransaction.spot_id tr) (ParkingTransaction.entry_time tr)
             (Some now) (Some (FeeCalculator.duration_minutes feeDetails))
             (Some (FeeCalculator.parking_fee feeDetails)) "PENDING"
             (ParkingTransaction.payment_method tr))
          (parkingTransactions s')
    /\ (exists vehicle', In vehicle' (vehicles s')
                         /\ Vehicle._id vehicle' = Vehicle._id vehicle
                         /\ Vehicle.is_currently_parked vehicle' = false)
    /\ (exists spot', In spot' (parkingSpots s')
                      /\ ParkingSpot._id spot' = ParkingTransaction.spot_id tr
                      /\ ParkingSpot.status spot' = "AVAILABLE")
    /\ ~ holds_open_transaction s' vehicle.
Proof.
  intros Hs Hr. cbv zeta. apply in_service_lot_ok in Hs. destruct Hs as [Hc Ho].
  destruct (processExit_Return_inv _ _ _ Hr)
    as (v & tr & spot & rc & fd & Ev & Eflag & Etr & Espot & Erc & Efee & Hfee & Hp).
  exists v, tr, rc, fd. rewrite Hp in Hr |- *. cbn [fst snd] in Hr |- *.
  injection Hr as <-.
  pose proof (find_some _ _ Ev) as [Hv Pv]. apply String.eqb_eq in Pv.
  pose proof (find_some _ _ Etr) as [Htr Ptr]. apply andb_true_iff in Ptr.
  destruct Ptr as [Pvid Popen]. apply Z.eqb_eq in Pvid.
  pose proof (find_some _ _ Espot) as [Hspot Pspot]. apply Z.eqb_eq in Pspot.
  assert (Hexit : ParkingTransaction.exit_time tr = None).
  { unfold ParkingTransaction.is_open in Popen.
    destruct (ParkingTransaction.exit_time tr); [discriminate|reflexivity]. }
  split; [exact Hv|]. split; [exact Pv|]. split; [exact Htr|]. split; [exact Pvid|].
  split; [exact Hexit|]. split; [unfold RateCardRepository.findByVehicleType, gets;
                                 cbn [fst]; rewrite Erc; reflexivity|].
  split; [apply calculateFee_Return_inv, Efee|].
  split; [unfold exit_result; rewrite Pspot; reflexivity|].
  unfold exit_committed. cbn [vehicles parkingSpots parkingTransactions].
  split; [|split; [|split]].
  - rewrite <- Pvid.
    apply (@In_updateFirst_image _ _
             (TransactionRepository.applyExit now (FeeCalculator.duration_minutes fd)
                (FeeCalculator.parking_fee fd) "PENDING")).
    apply (@find_by_key _ ParkingTransaction._id); [apply Hc|exact Htr].
  - exists (VehicleRepository.setParked false v).
    split; [apply In_updateFirst_image, find_by_key; [apply Hc|exact Hv]|].
    split; [apply setParked_id|reflexivity].
  - exists (ParkingSpotRepository.applyUpdate "AVAILABLE" None spot).
    split; [|split; [exact Pspot|reflexivity]].
    apply In_updateFirst_image.
    apply (@find_by_key _ ParkingSpot._id); [apply Ho|exact Hspot].
  - intros (tr' & Htr' & Evid & Eopen).
    apply (@no_open_after_close (vehicles s) (parkingTransactions s) (nextObjectId s)
             (Vehicle._id v) now (FeeCalculator.duration_minutes fd)
             (FeeCalculator.parking_fee fd) "PENDING" tr Hc Etr tr' Htr'); [|exact Evid].
    unfold ParkingTransaction.is_open. rewrite Eopen. reflexivity.
Qed.

Lemma processExit_settles_the_stay_witness :
  in_service demo_parked
  /\ fst (ExitService.processExit "KA01AB1234" 1769085300000 demo_parked)
     = Return (ExitService.mk 101 100 1 1769076000000 1769085300000 155
                 "2 hours 35 minutes" (2400 # 100)%Q "USD" "PENDING"
                 "Thank you for using our parking lot")
  /\ ~ holds_open_transaction
         (snd (ExitService.processExit "KA01AB1234" 1769085300000 demo_parked))
         (Vehicle.mk 100 "KA01AB1234" "CAR" None None true).
Proof.
  assert (S : in_service demo_parked).
  { exists demo_store, [Entry demo_entry 1769076000000].
    split; [|reflexivity]. split; [split; reflexivity|].
    simpl. repeat constructor; simpl; intuition discriminate. }
  split; [exact S|]. split; [vm_compute; reflexivity|].
  destruct (@processExit_settles_the_stay "KA01AB1234" 1769085300000 demo_parked _ S eq_refl)
    as (v & tr & rc & fd & Hv & _ & _ & _ & _ & _ & _ & _ & _ & _ & _ & H).
  vm_compute in Hv. destruct Hv as [<-|[]]. exact H.
Defined.

(** ** getExitEstimate, getActiveEntry *)

Lemma getExitEstimate_store (licensePlate : string) (now : Z) (s : Store) :
  snd (ExitService.getExitEstimate licensePlate now s) = s.
Proof.
  unfold ExitService.getExitEstimate.
  destruct (find (fun v => (Vehicle.license_plate v =? toUpperCase licensePlate)%string)
                 (vehicles s)) as [v|] eqn:Ev; [|query_exec].
  destruct (Vehicle.is_currently_parked v) eqn:Eflag; [|query_exec].
  destruct (find (fun tr => (ParkingTransaction.vehicle_id tr =? Vehicle._id v)
                            && ParkingTransaction.is_open tr) (parkingTransactions s))
    as [tr|] eqn:Etr; [|query_exec].
  destruct (find (fun rc => (RateCard.vehicle_type rc =? Vehicle.vehicle_type v)%string)
                 (rateCards s)) as [rc|] eqn:Erc; [|query_exec].
  destruct (FeeCalculationService.calculateFee (Vehicle.vehicle_type v)
              (ParkingTransaction.entry_time tr) now rc) as [fd|e] eqn:Efee; query_exec.
Qed.

(** X18. Whenever [processExit] returns at some instant,
    [getExitEstimate] for the same license plate, database and instant
    returns too, writes nothing, and quotes the same transaction, vehicle,
    entry time, duration and fee as the exit. *)
Theorem getExitEstimate_quotes_the_exit (license_plate : string) (now : Z) (s : Store)
    (r : ExitService.t) :
  fst (ExitService.processExit license_plate now s) = Return r ->
  ExitService.getExitEstimate license_plate now s
  = (Return (ExitService.Estimate.mk (ExitService.transaction_id r) (ExitService.vehicle_id r)
               (ExitService.entry_time r) (ExitService.exit_time r)
               (ExitService.duration_minutes r) (ExitService.duration_formatted r)
               (ExitService.parking_fee r) "USD"), s).
Proof.
  intros Hr.
  destruct (processExit_Return_inv _ _ _ Hr)
    as (v & tr & spot & rc & fd & Ev & Eflag & Etr & Espot & Erc & Efee & Hfee & Hp).
  rewrite Hp in Hr. cbn [fst] in Hr. injection Hr as <-.
  unfold ExitService.getExitEstimate, exit_result. query_exec.
Qed.

Lemma getExitEstimate_quotes_the_exit_witness :
  fst (ExitService.processExit "KA01AB1234" 1769085300000 demo_parked)
  = Return (ExitService.mk 101 100 1 1769076000000 1769085300000 155
              "2 hours 35 minutes" (2400 # 100)%Q "USD" "PENDING"
              "Thank you for using our parking lot")
  /\ ExitService.getExitEstimate "KA01AB1234" 1769085300000 demo_parked
     = (Return (ExitService.Estimate.mk 101 100 1769076000000 1769085300000 155
                  "2 hours 35 minutes" (2400 # 100)%Q "USD"), demo_parked).
Proof.
  split; [vm_compute; reflexivity|].
  apply (@getExitEstimate_quotes_the_exit "KA01AB1234" 1769085300000 demo_parked
           (ExitService.mk 101 100 1 1769076000000 1769085300000 155
              "2 hours 35 minutes" (2400 # 100)%Q "USD" "PENDING"
              "Thank you for using our parking lot")).
  vm_compute. reflexivity.
Defined.

Lemma getExitEstimate_Return_inv (licensePlate : string) (now : Z) (s : Store)
    (est : ExitService.Estimate.t) :
  fst (ExitService.getExitEstimate licensePlate now s) = Return est ->
  exists vehicle tr rateCard feeDetails,
    find (fun v => (Vehicle.license_plate v =? toUpperCase licensePlate)%string)
         (vehicles s) = Some vehicle
    /\ Vehicle.is_currently_parked vehicle = true
    /\ find (fun tr => (ParkingTransaction.vehicle_id tr =? Vehicle._id vehicle)
                       && ParkingTransaction.is_open tr) (parkingTransactions s) = Some tr
    /\ find (fun rc => (RateCard.vehicle_type rc =? Vehicle.vehicle_type vehicle)%string)
            (rateCards s) = Some rateCard
    /\ FeeCalculationService.calculateFee (Vehicle.vehicle_type vehicle)
         (ParkingTransaction.entry_time tr) now rateCard = Return feeDetails
    /\ est = ExitService.Estimate.mk (ParkingTransaction._id tr) (Vehicle._id vehicle)
               (ParkingTransaction.entry_time tr) now
               (FeeCalculator.duration_minutes feeDetails)
               (FeeCalculator.duration_formatted feeDetails)
               (FeeCalculator.parking_fee feeDetails) "USD".
Proof.
  unfold ExitService.getExitEstimate.
  destruct (find (fun v => (Vehicle.license_plate v =? toUpperCase licensePlate)%string)
                 (vehicles s)) as [v|] eqn:Ev; [|query_exec; discriminate].
  destruct (Vehicle.is_currently_parked v) eqn:Eflag; [|query_exec; discriminate].
  destruct (find (fun tr => (ParkingTransaction.vehicle_id tr =? Vehicle._id v)
                            && ParkingTransaction.is_open tr) (parkingTransactions s))
    as [tr|] eqn:Etr; [|query_exec; discriminate].
  destruct (find (fun rc => (RateCard.vehicle_type rc =? Vehicle.vehicle_type v)%string)
                 (rateCards s)) as [rc|] eqn:Erc; [|query_exec; discriminate].
  destruct (FeeCalculationService.calculateFee (Vehicle.vehicle_type v)
              (ParkingTransaction.entry_time tr) now rc) as [fd|e] eqn:Efee;
    query_exec; [|discriminate].
  intros [= <-]. exists v, tr, rc, fd. repeat split; assumption.
Qed.

(** In a lot in service the later steps of [processExit] find their documents. *)
Lemma processExit_from_fee (license_plate : string) (now : Z) (s : Store)
    (vehicle : Vehicle.t) (tr : ParkingTransaction.t) (rateCard : RateCard.t)
    (feeDetails : FeeCalculator.t) :
  lot_ok s ->
  find (fun v => (Vehicle.license_plate v =? toUpperCase license_plate)%string)
       (vehicles s) = Some vehicle ->
  Vehicle.is_currently_parked vehicle = true ->
  find (fun tr => (ParkingTransaction.vehicle_id tr =? Vehicle._id vehicle)
                  && ParkingTransaction.is_open tr) (parkingTransactions s) = Some tr ->
  find (fun rc => (RateCard.vehicle_type rc =? Vehicle.vehicle_type vehicle)%string)
       (rateCards s) = Some rateCard ->
  FeeCalculationService.calculateFee (Vehicle.vehicle_type vehicle)
    (ParkingTransaction.entry_time tr) now rateCard = Return feeDetails ->
  if Qle_bool 0 (FeeCalculator.parking_fee feeDetails) then
    exists spot,
      find (fun sp => ParkingSpot._id sp =? ParkingTransaction.spot_id tr) (parkingSpots s)
      = Some spot
      /\ ExitService.processExit license_plate now s
         = (Return (exit_result vehicle tr tr spot feeDetails now),
            exit_committed s vehicle tr spot feeDetails now)
  else
    ExitService.processExit license_plate now s
    = (Throw (MongooseValidationError "parking_fee"), s).
Proof.
  intros [Hc Ho] Ev Eflag Etr Erc Efee.
  pose proof (processExit_inv license_plate now s) as H.
  rewrite Ev, Eflag in H. cbn [negb] in H. rewrite Etr, Erc, Efee in H.
  unfold exit_from_step5 in H.
  destruct (calculateFee_duration _ _ _ _ Efee) as [Ht Ed].
  assert (Hd : (FeeCalculator.duration_minutes feeDetails <? 0) = false).
  { apply Z.ltb_ge. rewrite Ed. apply Z.div_pos; lia. }
  rewrite Hd in H.
  destruct (Qle_bool 0 (FeeCalculator.parking_fee feeDetails)); cbn [negb] in H;
    [|exact H].
  pose proof (find_some _ _ Etr) as [Htr Ptr]. apply andb_true_iff in Ptr.
  destruct Ptr as [_ Popen].
  destruct Ho as (K1 & K2 & _).
  destruct (K2 tr Htr Popen) as (spot & Hspot & Eid & _).
  assert (Efs : find (fun sp => ParkingSpot._id sp =? ParkingTransaction.spot_id tr)
                     (parkingSpots s) = Some spot).
  { rewrite <- Eid. apply (@find_by_key _ ParkingSpot._id); assumption. }
  rewrite Efs in H.
  assert (Eft : find (fun t => ParkingTransaction._id t =? ParkingTransaction._id tr)
                     (parkingTransactions s) = Some tr).
  { apply (@find_by_key _ ParkingTransaction._id); [apply Hc|exact Htr]. }
  rewrite Eft in H. exists spot. split; [exact Efs|exact H].
Qed.

(** X19. On a lot in service, when [getExitEstimate] returns an
    estimate whose fee is not negative, [processExit] for the same license
    plate at the same instant returns, for the same transaction, vehicle,
    entry time and duration, and charges the estimated fee. *)
Theorem processExit_honours_the_estimate (license_plate : string) (now : Z) (s : Store)
    (est : ExitService.Estimate.t) :
  in_service s ->
  fst (ExitService.getExitEstimate license_plate now s) = Return est ->
  (0 <= ExitService.Estimate.estimated_fee est)%Q ->
  exists r,
    fst (ExitService.processExit license_plate now s) = Return r
    /\ ExitService.transaction_id r = ExitService.Estimate.transaction_id est
    /\ ExitService.vehicle_id r = ExitService.Estimate.vehicle_id est
    /\ ExitService.entry_time r = ExitService.Estimate.entry_time est
    /\ ExitService.exit_time r = now
    /\ ExitService.duration_minutes r = ExitService.Estimate.duration_minutes est
    /\ ExitService.parking_fee r = ExitService.Estimate.estimated_fee est.
Proof.
  intros Hs He Hfee. apply in_service_lot_ok in Hs.
  destruct (getExitEstimate_Return_inv _ _ _ He)
    as (v & tr & rc & fd & Ev & Eflag & Etr & Erc & Efee & ->).
  cbn [ExitService.Estimate.estimated_fee] in Hfee.
  pose proof (processExit_from_fee license_plate now Hs Ev Eflag Etr Erc Efee) as H.
  apply Qle_bool_iff in Hfee. rewrite Hfee in H. destruct H as (spot & _ & H).
  eexists. rewrite H. cbn [fst]. split; [reflexivity|]. repeat split.
Qed.

Lemma processExit_honours_the_estimate_witness :
  in_service demo_parked
  /\ fst (ExitService.getExitEstimate "KA01AB1234" 1769085300000 demo_parked)
     = Return (ExitService.Estimate.mk 101 100 1769076000000 1769085300000 155
                 "2 hours 35 minutes" (2400 # 100)%Q "USD")
  /\ (0 <= 2400 # 100)%Q
  /\ exists r,
       fst (ExitService.processExit "KA01AB1234" 1769085300000 demo_parked) = Return r
       /\ ExitService.parking_fee r = (2400 # 100)%Q.
Proof.
  assert (E : fst (ExitService.getExitEstimate "KA01AB1234" 1769085300000 demo_parked)
              = Return (ExitService.Estimate.mk 101 100 1769076000000 1769085300000 155
                          "2 hours 35 minutes" (2400 # 100)%Q "USD"))
    by (vm_compute; reflexivity).
  assert (F : (0 <= 2400 # 100)%Q) by (vm_compute; discriminate).
  split; [exact demo_parked_in_service|]. split; [exact E|]. split; [exact F|].
  destruct (@processExit_honours_the_estimate "KA01AB1234" 1769085300000 demo_parked _
              demo_parked_in_service E F) as (r & Hr & _ & _ & _ & _ & _ & Hf).
  exists r. split; [exact Hr|exact Hf].
Defined.

(** ** Exits that fail *)

Lemma calculateFee_Throw_inv (vehicleType : string) (entryTime exitTime : Z)
    (rateCard : RateCard.t) (e : exn) :
  FeeCalculationService.calculateFee vehicleType entryTime exitTime rateCard = Throw e ->
  (vehicleType = ""
   /\ e = AppError "Missing required parameters for fee calculation" 400 "BAD_REQUEST")
  \/ (exitTime <= entryTime /\ e = Error "Exit time must be after entry time").
Proof.
  unfold FeeCalculationService.calculateFee.
  destruct (vehicleType =? "")%string eqn:Ev.
  - intros [= <-]. left. apply String.eqb_eq in Ev. split; [exact Ev|reflexivity].
  - intros H. apply String.eqb_neq in Ev.
    destruct (Z_lt_le_dec entryTime exitTime) as [Hlt|Hle].
    + destruct (calculateParkingFee_returns rateCard Ev Hlt) as (r & Hr). congruence.
    + right. split; [exact Hle|].
      unfold FeeCalculator.calculateParkingFee in H.
      apply String.eqb_neq in Ev. rewrite Ev in H.
      apply Z.leb_le in Hle. rewrite Hle in H. congruence.
Qed.

(** X20. On a lot in service, a [processExit] that throws leaves the
    database as it was, and what it throws is never TRANSACTION_NOT_FOUND
    and never the [TypeError] of reading [_id] of [null]: a vehicle flagged
    as parked always has its open transaction, and that transaction its
    spot. *)
Theorem processExit_failure_in_service (license_plate : string) (now : Z) (s : Store)
    (e : exn) :
  in_service s ->
  fst (ExitService.processExit license_plate now s) = Throw e ->
  snd (ExitService.processExit license_plate now s) = s
  /\ errorCode_of e <> Some "TRANSACTION_NOT_FOUND"
  /\ e <> ExitService.TypeError_null "_id".
Proof.
  intros Hs He. apply in_service_lot_ok in Hs.
  pose proof (processExit_inv license_plate now s) as H.
  destruct (find _ (vehicles s)) as [v|] eqn:Ev.
  2:{ rewrite H in He |- *. cbn [fst snd] in He |- *. injection He as <-.
      repeat split; discriminate. }
  destruct (Vehicle.is_currently_parked v) eqn:Eflag; cbn [negb] in H.
  2:{ rewrite H in He |- *. cbn [fst snd] in He |- *. injection He as <-.
      repeat split; discriminate. }
  destruct (find _ (parkingTransactions s)) as [tr|] eqn:Etr.
  2:{ exfalso. destruct Hs as [_ (_ & _ & _ & K5 & _)].
      apply find_some in Ev. destruct Ev as [Hv _].
      destruct (K5 v Hv Eflag) as (tr & Htr & Hopen & Hvid).
      apply (find_none _ _ Etr) in Htr. rewrite Hopen, Hvid, Z.eqb_refl in Htr.
      discriminate. }
  destruct (find _ (rateCards s)) as [rc|] eqn:Erc.
  2:{ rewrite H in He |- *. cbn [fst snd] in He |- *. injection He as <-.
      repeat split; discriminate. }
  destruct (FeeCalculationService.calculateFee _ _ _ _) as [fd|e'] eqn:Efee.
  2:{ rewrite H in He |- *. cbn [fst snd] in He |- *. injection He as <-.
      split; [reflexivity|].
      destruct (calculateFee_Throw_inv _ _ _ _ Efee) as [[_ ->]|[_ ->]]; split; discriminate. }
  pose proof (processExit_from_fee license_plate now Hs Ev Eflag Etr Erc Efee) as Hp.
  destruct (Qle_bool 0 (FeeCalculator.parking_fee fd)).
  - destruct Hp as (spot & _ & Hp). rewrite Hp in He. discriminate.
  - rewrite Hp in He |- *. cbn [fst snd] in He |- *. injection He as <-.
    repeat split; discriminate.
Qed.

Lemma processExit_failure_in_service_witness :
  in_service demo_exited
  /\ ExitService.processExit "KA01AB1234" 1769085400000 demo_exited
     = (Throw (AppError "Vehicle KA01AB1234 is not currently parked" 409 "ALREADY_EXITED"),
        demo_exited).
Proof.
  split; [exact demo_exited_in_service|].
  destruct (@processExit_failure_in_service "KA01AB1234" 1769085400000 demo_exited
              (AppError "Vehicle KA01AB1234 is not currently parked" 409 "ALREADY_EXITED")
              demo_exited_in_service) as (H & _).
  - vm_compute. reflexivity.
  - rewrite <- H at 2.
    assert (E : fst (ExitService.processExit "KA01AB1234" 1769085400000 demo_exited)
                = Throw (AppError "Vehicle KA01AB1234 is not currently parked" 409
                           "ALREADY_EXITED")) by (vm_compute; reflexivity).
    rewrite <- E. destruct (ExitService.processExit _ _ _). reflexivity.
Defined.

(** ** The lot in service *)

Lemma is_open_exit_time (tr : ParkingTransaction.t) :
  ParkingTransaction.is_open tr = true <-> ParkingTransaction.exit_time tr = None.
Proof.
  unfold ParkingTransaction.is_open.
  destruct (ParkingTransaction.exit_time tr); split; congruence.
Qed.

(** X21. On a lot in service, a recorded vehicle is flagged as parked
    exactly when it holds an OPEN transaction. *)
Theorem parked_flag_iff_open_transaction (s : Store) (vehicle : Vehicle.t) :
  in_service s -> In vehicle (vehicles s) ->
  (Vehicle.is_currently_parked vehicle = true <-> holds_open_transaction s vehicle).
Proof.
  intros Hs Hv. apply in_service_lot_ok in Hs.
  destruct Hs as [(_ & _ & _ & _ & _ & H6 & _) (_ & _ & _ & K5 & _)]. split.
  - intros Hflag. destruct (K5 vehicle Hv Hflag) as (tr & Htr & Hopen & Hvid).
    exists tr. apply is_open_exit_time in Hopen. repeat split; assumption.
  - intros (tr & Htr & Hvid & Hexit). apply (H6 tr vehicle Htr Hv); [|exact Hvid].
    apply is_open_exit_time, Hexit.
Qed.

Lemma parked_flag_iff_open_transaction_witness :
  in_service demo_parked
  /\ In (Vehicle.mk 100 "KA01AB1234" "CAR" None None true) (vehicles demo_parked)
  /\ holds_open_transaction demo_parked (Vehicle.mk 100 "KA01AB1234" "CAR" None None true).
Proof.
  assert (I : In (Vehicle.mk 100 "KA01AB1234" "CAR" None None true) (vehicles demo_parked))
    by (vm_compute; left; reflexivity).
  split; [exact demo_parked_in_service|]. split; [exact I|].
  apply (@parked_flag_iff_open_transaction demo_parked _ demo_parked_in_service I).
  reflexivity.
Defined.

(** X22. On a lot in service, the spot of every OPEN transaction is in
    the lot, OCCUPIED, and occupied by the vehicle of the transaction; and no
    other OPEN transaction has the same spot or the same vehicle: no spot is
    booked twice and no vehicle is parked twice. *)
Theorem open_transaction_holds_its_spot (s : Store) (tr : ParkingTransaction.t) :
  in_service s -> In tr (parkingTransactions s) ->
  ParkingTransaction.exit_time tr = None ->
  (exists spot, In spot (parkingSpots s)
                /\ ParkingSpot._id spot = ParkingTransaction.spot_id tr
                /\ ParkingSpot.status spot = "OCCUPIED"
                /\ ParkingSpot.current_vehicle_id spot
                   = Some (ParkingTransaction.vehicle_id tr))
  /\ forall other, In other (parkingTransactions s) ->
       ParkingTransaction.exit_time other = None ->
       ParkingTransaction.spot_id other = ParkingTransaction.spot_id tr
       \/ ParkingTransaction.vehicle_id other = ParkingTransaction.vehicle_id tr ->
       other = tr.
Proof.
  intros Hs Htr Hexit. apply in_service_lot_ok in Hs. apply is_open_exit_time in Hexit.
  destruct Hs as [(_ & _ & _ & _ & _ & _ & H7) (_ & K2 & K3 & _)].
  split; [apply K2; assumption|].
  intros other Ho Hoexit [E|E]; apply is_open_exit_time in Hoexit.
  - apply K3; assumption.
  - apply H7; assumption.
Qed.

Lemma open_transaction_holds_its_spot_witness :
  in_service demo_parked
  /\ In (ParkingTransaction.mk 101 100 1 1769076000000 None None None "PENDING" None)
        (parkingTransactions demo_parked)
  /\ exists spot, In spot (parkingSpots demo_parked)
                  /\ ParkingSpot._id spot = 1
                  /\ ParkingSpot.status spot = "OCCUPIED"
                  /\ ParkingSpot.current_vehicle_id spot = Some 100.
Proof.
  assert (I : In (ParkingTransaction.mk 101 100 1 1769076000000 None None None "PENDING" None)
                 (parkingTransactions demo_parked))
    by (vm_compute; left; reflexivity).
  split; [exact demo_parked_in_service|]. split; [exact I|].
  apply (@open_transaction_holds_its_spot demo_parked _ demo_parked_in_service I eq_refl).
Defined.

(** X23. On a lot in service, every transaction has PENDING payment
    and belongs to a recorded vehicle; an open one has neither duration nor
    fee; a closed one has its exit after its entry, as duration the whole
    minutes between the two, and a fee that is not negative. *)
Theorem recorded_transactions_well_formed (s : Store) (tr : ParkingTransaction.t) :
  in_service s -> In tr (parkingTransactions s) ->
  ParkingTransaction.payment_status tr = "PENDING"
  /\ (exists vehicle, In vehicle (vehicles s)
                      /\ Vehicle._id vehicle = ParkingTransaction.vehicle_id tr)
  /\ match ParkingTransaction.exit_time tr with
     | Some exit_time =>
       ParkingTransaction.entry_time tr < exit_time
       /\ ParkingTransaction.duration_minutes tr
          = Some ((exit_time - ParkingTransaction.entry_time tr) / 60000)
       /\ exists fee, ParkingTransaction.parking_fee tr = Some fee /\ (0 <= fee)%Q
     | None =>
       ParkingTransaction.duration_minutes tr = None
       /\ ParkingTransaction.parking_fee tr = None
     end.
Proof.
  intros Hs Htr. apply in_service_lot_ok in Hs.
  destruct Hs as [_ (_ & _ & _ & _ & K6 & K7)].
  destruct (K7 tr Htr) as [Hp Hw]. split; [exact Hp|]. split; [apply K6, Htr|exact Hw].
Qed.

Lemma recorded_transactions_well_formed_witness :
  in_service demo_exited
  /\ In (ParkingTransaction.mk 101 100 1 1769076000000 (Some 1769085300000) (Some 155)
           (Some (2400 # 100)%Q) "PENDING" None)
        (parkingTransactions demo_exited)
  /\ 1769076000000 < 1769085300000
  /\ Some 155 = Some ((1769085300000 - 1769076000000) / 60000).
Proof.
  assert (I : In (ParkingTransaction.mk 101 100 1 1769076000000 (Some 1769085300000)
                    (Some 155) (Some (2400 # 100)%Q) "PENDING" None)
                 (parkingTransactions demo_exited))
    by (vm_compute; left; reflexivity).
  split; [exact demo_exited_in_service|]. split; [exact I|].
  destruct (@recorded_transactions_well_formed demo_exited _ demo_exited_in_service I)
    as (_ & _ & H1 & H2 & _).
  split; [exact H1|exact H2].
Defined.

(** ** The database after an entry *)

Lemma find_by_plate (vs : list Vehicle.t) (v : Vehicle.t) (plate : string) :
  NoDup (map Vehicle.license_plate vs) -> In v vs -> Vehicle.license_plate v = plate ->
  find (fun x => (Vehicle.license_plate x =? plate)%string) vs = Some v.
Proof.
  intros Hnd Hin Hp.
  destruct (@find_In_some _ (fun x => (Vehicle.license_plate x =? plate)%string) vs v Hin)
    as (y & Hy); [apply String.eqb_eq, Hp|].
  rewrite Hy. f_equal. apply find_some in Hy. destruct Hy as [Hy E].
  apply String.eqb_eq in E.
  apply (@NoDup_map_eq _ _ Vehicle.license_plate vs); [assumption..|congruence].
Qed.

Lemma processEntry_state (entryData : EntryService.entryData_t) (now : Z) (s : Store)
    (r : EntryService.t) :
  lot_ok s ->
  fst (EntryService.processEntry entryData now s) = Return r ->
  exists vehicle spot0,
    lot_ok (snd (EntryService.processEntry entryData now s))
    /\ rateCards (snd (EntryService.processEntry entryData now s)) = rateCards s
    /\ find (fun v => (Vehicle.license_plate v
                       =? toUpperCase (EntryService.license_plate entryData))%string)
            (vehicles (snd (EntryService.processEntry entryData now s)))
       = Some vehicle
    /\ Vehicle.is_currently_parked vehicle = true
    /\ Vehicle._id vehicle = EntryService.vehicle_id r
    /\ find (fun tr => (ParkingTransaction.vehicle_id tr =? Vehicle._id vehicle)
                       && ParkingTransaction.is_open tr)
            (parkingTransactions (snd (EntryService.processEntry entryData now s)))
       = Some (ParkingTransaction.mk (EntryService.transaction_id r)
                 (EntryService.vehicle_id r) (EntryService.spot_id r) now
                 None None None "PENDING" None)
    /\ EntryService.entry_time r = now
    /\ find (fun sp => ParkingSpot._id sp =? EntryService.spot_id r) (parkingSpots s)
       = Some spot0
    /\ ParkingSpot.status spot0 = "AVAILABLE"
    /\ find (fun sp => ParkingSpot._id sp =? EntryService.spot_id r)
            (parkingSpots (snd (EntryService.processEntry entryData now s)))
       = Some (ParkingSpotRepository.applyUpdate "OCCUPIED"
                 (Some (EntryService.vehicle_id r)) spot0).
Proof.
  intros Hs Hr. pose proof (processEntry_lot_ok entryData now Hs) as Hs'.
  destruct (processEntry_Return_inv _ _ _ Hr)
    as (s1 & v & spot & Hcase & Hv & Hplate & Hflag & Hsp & Ha & Hp).
  pose proof (lot_ok_after_step2 Hs Hcase) as [Hc (K1 & _)].
  pose proof (allocateSpot_spec (EntryService.vehicle_type entryData) s1) as Hspec.
  rewrite Ha in Hspec. destruct Hspec as (el & HE & Hin & [Hst _] & _).
  assert (Hfs : find (fun x => ParkingSpot._id x =? ParkingSpot._id spot) (parkingSpots s1)
                = Some spot) by (apply (@find_by_key _ ParkingSpot._id); assumption).
  assert (Hrc : rateCards s1 = rateCards s)
    by (destruct Hcase as [(_ & _ & ->)|(_ & _ & ->)]; reflexivity).
  revert Hs'. rewrite Hp in Hr |- *. cbn [fst snd] in Hr |- *. injection Hr as <-.
  intros Hs'. exists (VehicleRepository.setParked true v), spot.
  unfold entry_result.
  cbn [EntryService.vehicle_id EntryService.spot_id EntryService.transaction_id
       EntryService.entry_time].
  split; [exact Hs'|]. split; [exact Hrc|].
  destruct Hs' as [Hc' (K1' & _)]. unfold consistent in Hc'.
  assert (Hc'' := Hc'). destruct Hc'' as (_ & H2' & _ & _ & _ & _ & H7').
  split.
  { apply find_by_plate; [exact H2'| |rewrite setParked_plate; exact Hplate].
    unfold entry_committed. cbn [vehicles].
    apply In_updateFirst_image, find_by_key; [apply Hc|exact Hv]. }
  split; [reflexivity|]. split; [apply setParked_id|].
  rewrite setParked_id. split.
  { set (new := ParkingTransaction.mk _ _ _ _ _ _ _ _ _).
    assert (Hnew : In new (parkingTransactions
                             (entry_committed s1 (Vehicle._id v) spot now
                                (EntryService.vehicle_type entryData)))).
    { unfold entry_committed. cbn [parkingTransactions]. apply in_or_app. right. left.
      reflexivity. }
    destruct (@find_In_some _
                (fun tr => (ParkingTransaction.vehicle_id tr =? Vehicle._id v)
                           && ParkingTransaction.is_open tr) _ new Hnew) as (y & Hy).
    { unfold new. cbn [ParkingTransaction.vehicle_id]. rewrite Z.eqb_refl. reflexivity. }
    rewrite Hy. f_equal. apply find_some in Hy. destruct Hy as [Hy Py].
    apply andb_true_iff in Py. destruct Py as [Pv Po]. apply Z.eqb_eq in Pv.
    apply H7'; first [assumption|reflexivity]. }
  split; [reflexivity|].
  rewrite <- Hsp. split; [exact Hfs|]. split; [exact Hst|].
  apply (@find_by_key _ ParkingSpot._id _
           (ParkingSpotRepository.applyUpdate "OCCUPIED" (Some (Vehicle._id v)) spot));
    [exact K1'|].
  unfold entry_committed. cbn [parkingSpots]. apply In_updateFirst_image, Hfs.
Qed.

(** X24. On a lot in service, after [processEntry] has returned,
    [getActiveEntry] for the license plate of the request returns, at any
    later instant [now'], the transaction, vehicle, spot and entry time of
    the entry, with the whole minutes elapsed since the entry, and writes
    nothing. *)
Theorem getActiveEntry_after_entry (entryData : EntryService.entryData_t) (now now' : Z)
    (s : Store) (r : EntryService.t) :
  in_service s ->
  fst (EntryService.processEntry entryData now s) = Return r ->
  EntryService.getActiveEntry (EntryService.license_plate entryData) now'
    (snd (EntryService.processEntry entryData now s))
  = (Return (EntryService.ActiveEntry.mk (EntryService.transaction_id r)
               (EntryService.vehicle_id r) (EntryService.spot_id r) now
               ((now' - now) / 60000)),
     snd (EntryService.processEntry entryData now s)).
Proof.
  intros Hs Hr. apply in_service_lot_ok in Hs.
  destruct (processEntry_state entryData now Hs Hr)
    as (v & spot0 & _ & _ & Ev & Eflag & Eid & Etr & _ & E0 & _ & Espot).
  apply find_some in E0. destruct E0 as [_ E0]. apply Z.eqb_eq in E0.
  unfold EntryService.getActiveEntry. rewrite <- Eid in *.
  cbn [ParkingTransaction.spot_id] in *.
  query_exec. cbn [ParkingTransaction.spot_id]. rewrite Espot.
  cbn [ParkingTransaction._id ParkingTransaction.entry_time ParkingSpot._id
       ParkingSpotRepository.applyUpdate].
  rewrite Math_floor_div by lia. rewrite E0. reflexivity.
Qed.

Lemma getActiveEntry_after_entry_witness :
  in_service demo_store
  /\ fst (EntryService.processEntry demo_entry 1769076000000 demo_store)
     = Return (EntryService.mk 101 100 1 (EntryService.mk_spot_details 1 1 "CAR")
                 1769076000000 "Vehicle successfully parked at Floor 1, Spot 1")
  /\ EntryService.getActiveEntry "KA01AB1234" 1769085300000
       (snd (EntryService.processEntry demo_entry 1769076000000 demo_store))
     = (Return (EntryService.ActiveEntry.mk 101 100 1 1769076000000
                  ((1769085300000 - 1769076000000) / 60000)),
        snd (EntryService.processEntry demo_entry 1769076000000 demo_store)).
Proof.
  split; [exact demo_store_in_service|]. split; [vm_compute; reflexivity|].
  apply (@getActiveEntry_after_entry demo_entry 1769076000000 1769085300000 demo_store
           (EntryService.mk 101 100 1 (EntryService.mk_spot_details 1 1 "CAR")
              1769076000000 "Vehicle successfully parked at Floor 1, Spot 1")
           demo_store_in_service).
  vm_compute. reflexivity.
Defined.

Lemma calculateFee_of_parking_fee (vehicleType : string) (entryTime exitTime : Z)
    (rateCard : RateCard.t) (r : FeeCalculator.t) :
  FeeCalculator.calculateParkingFee vehicleType entryTime exitTime rateCard = Return r ->
  FeeCalculationService.calculateFee vehicleType entryTime exitTime rateCard = Return r.
Proof.
  intros H. unfold FeeCalculationService.calculateFee.
  destruct (vehicleType =? "")%string eqn:E; [|exact H].
  unfold FeeCalculator.calculateParkingFee in H. rewrite E in H. discriminate.
Qed.

(** X25. On a lot in service, after [processEntry] has returned at
    [now], a [processExit] for the same license plate at [now'] returns the
    transaction, vehicle and spot of the entry, with the entry time [now],
    and charges the fee of the interval from [now] to [now'] for the
    recorded type of the vehicle, provided the rate card of that type
    exists and that fee is computed and not negative. *)
Theorem processExit_after_entry (entryData : EntryService.entryData_t) (now now' : Z)
    (s : Store) (r : EntryService.t) (vehicle : Vehicle.t) (rateCard : RateCard.t)
    (feeDetails : FeeCalculator.t) :
  in_service s ->
  fst (EntryService.processEntry entryData now s) = Return r ->
  In vehicle (vehicles (snd (EntryService.processEntry entryData now s))) ->
  Vehicle._id vehicle = EntryService.vehicle_id r ->
  fst (RateCardRepository.findByVehicleType (Vehicle.vehicle_type vehicle) s)
  = Return (Some rateCard) ->
  FeeCalculator.calculateParkingFee (Vehicle.vehicle_type vehicle) now now' rateCard
  = Return feeDetails ->
  (0 <= FeeCalculator.parking_fee feeDetails)%Q ->
  fst (ExitService.processExit (EntryService.license_plate entryData) now'
         (snd (EntryService.processEntry entryData now s)))
  = Return (ExitService.mk (EntryService.transaction_id r) (EntryService.vehicle_id r)
              (EntryService.spot_id r) now now'
              (FeeCalculator.duration_minutes feeDetails)
              (FeeCalculator.duration_formatted feeDetails)
              (FeeCalculator.parking_fee feeDetails)
              "USD" "PENDING" "Thank you for using our parking lot").
Proof.
  intros Hs Hr Hv Hid Hrc Hfee Hpos. apply in_service_lot_ok in Hs.
  destruct (processEntry_state entryData now Hs Hr)
    as (v & spot0 & Hs' & Erc & Ev & Eflag & Eid & Etr & _ & E0 & _ & Espot).
  assert (vehicle = v).
  { apply find_some in Ev. destruct Ev as [Hv' _].
    apply (@NoDup_map_eq _ _ Vehicle._id
             (vehicles (snd (EntryService.processEntry entryData now s))));
      [apply Hs'|assumption..|congruence]. }
  subst vehicle.
  unfold RateCardRepository.findByVehicleType, gets in Hrc. cbn [fst] in Hrc.
  injection Hrc as Hrc. rewrite <- Erc in Hrc.
  apply calculateFee_of_parking_fee in Hfee.
  pose proof (@processExit_from_fee (EntryService.license_plate entryData) now' _ v _
                rateCard feeDetails Hs' Ev Eflag Etr Hrc Hfee) as H.
  apply Qle_bool_iff in Hpos. rewrite Hpos in H. destruct H as (spot & Hspot & H).
  rewrite H. cbn [fst ParkingTransaction.spot_id] in Hspot |- *.
  rewrite Espot in Hspot. injection Hspot as <-.
  apply find_some in E0. destruct E0 as [_ E0]. apply Z.eqb_eq in E0.
  unfold exit_result.
  cbn [ParkingTransaction._id ParkingTransaction.entry_time ParkingSpot._id
       ParkingSpotRepository.applyUpdate].
  rewrite E0, Eid. reflexivity.
Qed.

Lemma processExit_after_entry_witness :
  in_service demo_store
  /\ fst (EntryService.processEntry demo_entry 1769076000000 demo_store)
     = Return (EntryService.mk 101 100 1 (EntryService.mk_spot_details 1 1 "CAR")
                 1769076000000 "Vehicle successfully parked at Floor 1, Spot 1")
  /\ fst (ExitService.processExit "KA01AB1234" 1769085300000
            (snd (EntryService.processEntry demo_entry 1769076000000 demo_store)))
     = Return (ExitService.mk 101 100 1 1769076000000 1769085300000 155
                 "2 hours 35 minutes" (2400 # 100)%Q "USD" "PENDING"
                 "Thank you for using our parking lot").
Proof.
  split; [exact demo_store_in_service|]. split; [vm_compute; reflexivity|].
  apply (@processExit_after_entry demo_entry 1769076000000 1769085300000 demo_store
           (EntryService.mk 101 100 1 (EntryService.mk_spot_details 1 1 "CAR")
              1769076000000 "Vehicle successfully parked at Floor 1, Spot 1")
           (Vehicle.mk 100 "KA01AB1234" "CAR" None None true) car_rate_card
           (FeeCalculator.mk "CAR" 1769076000000 1769085300000 155 "2 hours 35 minutes"
              (FeeCalculator.mk_rate_card 8 (Some 50%Q) 15 "CEILING")
              (FeeCalculator.mk_details 15 140 3 (2400 # 100)%Q false (2400 # 100)%Q)
              (2400 # 100)%Q "USD")
           demo_store_in_service).
  - vm_compute. reflexivity.
  - vm_compute. left. reflexivity.
  - reflexivity.
  - vm_compute. reflexivity.
  - vm_compute. reflexivity.
  - vm_compute. discriminate.
Defined.

(** ** isSpotAvailable *)

(** X26. On a lot in service, [isSpotAvailable] answers [true] for the
    spot [processEntry] is about to allocate and [false] for it once the
    entry has returned. *)
Theorem isSpotAvailable_around_entry (entryData : EntryService.entryData_t) (now : Z)
    (s : Store) (r : EntryService.t) :
  in_service s ->
  fst (EntryService.processEntry entryData now s) = Return r ->
  fst (SpotAllocationService.isSpotAvailable (EntryService.spot_id r) s)
  = Return (Some true)
  /\ fst (SpotAllocationService.isSpotAvailable (EntryService.spot_id r)
            (snd (EntryService.processEntry entryData now s)))
     = Return (Some false).
Proof.
  intros Hs Hr. apply in_service_lot_ok in Hs.
  destruct (processEntry_state entryData now Hs Hr)
    as (v & spot0 & _ & _ & _ & _ & _ & _ & _ & E0 & Hst & Espot).
  unfold SpotAllocationService.isSpotAvailable. split; query_exec.
Qed.

Lemma isSpotAvailable_around_entry_witness :
  in_service demo_store
  /\ fst (SpotAllocationService.isSpotAvailable 1 demo_store) = Return (Some true)
  /\ fst (SpotAllocationService.isSpotAvailable 1
            (snd (EntryService.processEntry demo_entry 1769076000000 demo_store)))
     = Return (Some false).
Proof.
  split; [exact demo_store_in_service|].
  apply (@isSpotAvailable_around_entry demo_entry 1769076000000 demo_store
           (EntryService.mk 101 100 1 (EntryService.mk_spot_details 1 1 "CAR")
              1769076000000 "Vehicle successfully parked at Floor 1, Spot 1")
           demo_store_in_service).
  vm_compute. reflexivity.
Defined.

(** X27. On a lot in service, [isSpotAvailable] answers [false] for
    the spot of a vehicle that is about to leave and [true] for it once
    [processExit] has returned. *)
Theorem isSpotAvailable_around_exit (license_plate : string) (now : Z) (s : Store)
    (r : ExitService.t) :
  in_service s ->
  fst (ExitService.processExit license_plate now s) = Return r ->
  fst (SpotAllocationService.isSpotAvailable (ExitService.spot_id r) s)
  = Return (Some false)
  /\ fst (SpotAllocationService.isSpotAvailable (ExitService.spot_id r)
            (snd (ExitService.processExit license_plate now s)))
     = Return (Some true).
Proof.
  intros Hs Hr. apply in_service_lot_ok in Hs.
  pose proof (processExit_lot_ok license_plate now Hs) as Hs'.
  destruct (processExit_Return_inv _ _ _ Hr)
    as (v & tr & spot & rc & fd & Ev & Eflag & Etr & Espot & Erc & Efee & Hfee & Hp).
  revert Hs'. rewrite Hp in Hr |- *. cbn [fst snd] in Hr |- *. injection Hr as <-.
  intros [_ (K1' & _)]. destruct Hs as [_ (K1 & K2 & _)].
  pose proof (find_some _ _ Etr) as [Htr Ptr]. apply andb_true_iff in Ptr.
  destruct Ptr as [_ Popen].
  pose proof (find_some _ _ Espot) as [Hspot Pspot]. apply Z.eqb_eq in Pspot.
  destruct (K2 tr Htr Popen) as (spot' & Hspot' & Eid' & Hocc & _).
  assert (spot' = spot)
    by (apply (@NoDup_map_eq _ _ ParkingSpot._id (parkingSpots s)); congruence).
  subst spot'.
  unfold SpotAllocationService.isSpotAvailable, exit_result.
  cbn [ExitService.spot_id]. split.
  - assert (E : find (fun x => ParkingSpot._id x =? ParkingSpot._id spot) (parkingSpots s)
                = Some spot) by (apply (@find_by_key _ ParkingSpot._id); assumption).
    query_exec.
  - assert (E : find (fun x => ParkingSpot._id x =? ParkingSpot._id spot)
                     (parkingSpots (exit_committed s v tr spot fd now))
                = Some (ParkingSpotRepository.applyUpdate "AVAILABLE" None spot)).
    { apply (@find_by_key _ ParkingSpot._id _
               (ParkingSpotRepository.applyUpdate "AVAILABLE" None spot)); [exact K1'|].
      unfold exit_committed. cbn [parkingSpots]. apply In_updateFirst_image.
      apply (@find_by_key _ ParkingSpot._id); assumption. }
    query_exec.
Qed.

Lemma isSpotAvailable_around_exit_witness :
  in_service demo_parked
  /\ fst (SpotAllocationService.isSpotAvailable 1 demo_parked) = Return (Some false)
  /\ fst (SpotAllocationService.isSpotAvailable 1
            (snd (ExitService.processExit "KA01AB1234" 1769085300000 demo_parked)))
     = Return (Some true).
Proof.
  split; [exact demo_parked_in_service|].
  apply (@isSpotAvailable_around_exit "KA01AB1234" 1769085300000 demo_parked
           (ExitService.mk 101 100 1 1769076000000 1769085300000 155
              "2 hours 35 minutes" (2400 # 100)%Q "USD" "PENDING"
              "Thank you for using our parking lot")
           demo_parked_in_service).
  vm_compute. reflexivity.
Defined.

(** ** The counters of the lot record *)

Lemma lot_capacity_incOccupied (vehicleType : string) (d : Z) (lot : ParkingLot.t) :
  lot_capacity (ParkingLotRepository.incOccupied vehicleType d lot) = lot_capacity lot.
Proof.
  unfold ParkingLotRepository.incOccupied, lot_capacity. destruct lot.
  cbv zeta.
  destruct (toLowerCase vehicleType =? "motorcycle")%string;
    [|destruct (toLowerCase vehicleType =? "car")%string;
      [|destruct (toLowerCase vehicleType =? "bus")%string]];
    cbn [ParkingLot.available_motorcycle_spots ParkingLot.occupied_motorcycle_spots
         ParkingLot.available_car_spots ParkingLot.occupied_car_spots
         ParkingLot.available_bus_spots ParkingLot.occupied_bus_spots];
    repeat match goal with
           | |- (_, _) = (_, _) => apply f_equal2
           end; lia.
Qed.

Lemma default_lot_update (vehicleType : string) (d : Z) (lots : list ParkingLot.t) :
  let lots' :=
    match hd_error lots with
    | Some lot =>
      updateFirst (fun l => ParkingLot._id l =? ParkingLot._id lot)
                  (ParkingLotRepository.incOccupied vehicleType d) lots
    | None => lots
    end in
  map lot_capacity lots' = map lot_capacity lots /\ tl lots' = tl lots.
Proof.
  destruct lots as [|lot rest]; cbn [hd_error]; [split; reflexivity|].
  cbn [updateFirst]. rewrite Z.eqb_refl. cbn [map tl].
  rewrite lot_capacity_incOccupied. split; reflexivity.
Qed.

Lemma handle_parkingLots (r : request) (s : Store) :
  map lot_capacity (parkingLots (handle r s)) = map lot_capacity (parkingLots s)
  /\ tl (parkingLots (handle r s)) = tl (parkingLots s).
Proof.
  destruct r as [entryData now|license_plate now]; cbn [handle].
  - pose proof (processEntry_inv entryData now s) as H.
    assert (Hstep : forall s1 v, parkingLots s1 = parkingLots s ->
              entry_from_step3 entryData now s s1 v ->
              map lot_capacity (parkingLots (snd (EntryService.processEntry entryData now s)))
              = map lot_capacity (parkingLots s)
              /\ tl (parkingLots (snd (EntryService.processEntry entryData now s)))
                 = tl (parkingLots s)).
    { intros s1 v E1 H3. unfold entry_from_step3 in H3. cbv zeta in H3.
      destruct (fst (SpotAllocationService.allocateSpot _ s1)) as [[spot|]|e];
        rewrite H3; cbn [snd]; rewrite <- E1; try (split; reflexivity).
      unfold entry_committed. cbn [parkingLots]. apply default_lot_update. }
    destruct (find _ (vehicles s)) as [v|].
    + destruct (Vehicle.is_currently_parked v);
        [rewrite H; split; reflexivity|apply (Hstep s v eq_refl H)].
    + destruct (Vehicle.validate _);
        [rewrite H; split; reflexivity
        |apply (Hstep (vehicle_recorded entryData s) _ eq_refl H)].
  - pose proof (processExit_inv license_plate now s) as H.
    destruct (find _ (vehicles s)) as [v|]; [|rewrite H; split; reflexivity].
    destruct (negb (Vehicle.is_currently_parked v)); [rewrite H; split; reflexivity|].
    destruct (find _ (parkingTransactions s)) as [tr|]; [|rewrite H; split; reflexivity].
    destruct (find _ (rateCards s)) as [rc|]; [|rewrite H; split; reflexivity].
    destruct (FeeCalculationService.calculateFee _ _ _ _) as [fd|e];
      [|rewrite H; split; reflexivity].
    unfold exit_from_step5 in H.
    destruct (_ <? 0); [rewrite H; split; reflexivity|].
    destruct (negb _); [rewrite H; split; reflexivity|].
    destruct (find _ (parkingSpots s)) as [spot|]; [|rewrite H; split; reflexivity].
    destruct (find _ (parkingTransactions s)); rewrite H; cbn [snd];
      unfold exit_committed; cbn [parkingLots]; apply default_lot_update.
Qed.

(** X28. Whatever entries and exits are requested, on any database,
    every lot record keeps, for each vehicle type, the sum of its available
    and occupied counters, and only the first (default) lot record is ever
    written. *)
Theorem lot_counters_keep_capacity (history : list request) (s : Store) :
  map lot_capacity (parkingLots (run history s)) = map lot_capacity (parkingLots s)
  /\ tl (parkingLots (run history s)) = tl (parkingLots s).
Proof.
  revert s. induction history as [|r h IH]; intros s; [split; reflexivity|].
  change (run (r :: h) s) with (run h (handle r s)).
  destruct (IH (handle r s)) as [E1 E2]. destruct (handle_parkingLots r s) as [F1 F2].
  split; congruence.
Qed.

Lemma incOccupied_undo (vehicleType vehicleType' : string) (lot : ParkingLot.t) :
  toLowerCase vehicleType' = toLowerCase vehicleType ->
  ParkingLotRepository.incOccupied vehicleType' (-1)
    (ParkingLotRepository.incOccupied vehicleType 1 lot) = lot.
Proof.
  intros E. unfold ParkingLotRepository.incOccupied. destruct lot. cbv zeta. rewrite E.
  destruct (toLowerCase vehicleType =? "motorcycle")%string eqn:E1;
    [|destruct (toLowerCase vehicleType =? "car")%string eqn:E2;
      [|destruct (toLowerCase vehicleType =? "bus")%string eqn:E3]];
    rewrite ?E1, ?E2, ?E3; f_equal; lia.
Qed.

(** X29. On a lot in service, after an entry and the exit that follows
    it, the default lot record has counted one vehicle in under the vehicle
    type of the entry request and one vehicle out under the recorded type
    of the vehicle; the counters are back where they were when the two types
    agree up to letter case. *)
Theorem lot_counters_after_a_stay (entryData : EntryService.entryData_t) (now now' : Z)
    (s : Store) (r : EntryService.t) (r' : ExitService.t) (vehicle : Vehicle.t) :
  in_service s ->
  fst (EntryService.processEntry entryData now s) = Return r ->
  fst (ExitService.processExit (EntryService.license_plate entryData) now'
         (snd (EntryService.processEntry entryData now s))) = Return r' ->
  In vehicle (vehicles (snd (EntryService.processEntry entryData now s))) ->
  Vehicle._id vehicle = EntryService.vehicle_id r ->
  let s'' := snd (ExitService.processExit (EntryService.license_plate entryData) now'
                    (snd (EntryService.processEntry entryData now s))) in
  parkingLots s''
  = match parkingLots s with
    | [] => []
    | lot :: rest =>
      ParkingLotRepository.incOccupied (Vehicle.vehicle_type vehicle) (-1)
        (ParkingLotRepository.incOccupied (EntryService.vehicle_type entryData) 1 lot)
        :: rest
    end
  /\ (toLowerCase (Vehicle.vehicle_type vehicle)
      = toLowerCase (EntryService.vehicle_type entryData) ->
      parkingLots s'' = parkingLots s).
Proof.
  intros Hs Hr Hr' Hv Hid. cbv zeta. apply in_service_lot_ok in Hs.
  destruct (processEntry_state entryData now Hs Hr)
    as (v & spot0 & Hs' & _ & Ev & _ & Eid & _).
  assert (vehicle = v).
  { apply find_some in Ev. destruct Ev as [Hv' _].
    apply (@NoDup_map_eq _ _ Vehicle._id
             (vehicles (snd (EntryService.processEntry entryData now s))));
      [apply Hs'|assumption..|congruence]. }
  subst vehicle. clear Hv Hid.
  destruct (processExit_Return_inv _ _ _ Hr')
    as (v' & tr & spot & rc & fd & Ev' & _ & _ & _ & _ & _ & _ & Hp').
  rewrite Ev in Ev'. injection Ev' as <-. rewrite Hp'. cbn [snd].
  unfold exit_committed. cbn [parkingLots]. clear Hp' Hr' Ev Hs'.
  destruct (processEntry_Return_inv _ _ _ Hr)
    as (s1 & v1 & spot1 & Hcase & _ & _ & _ & _ & _ & Hp).
  assert (Hl : parkingLots s1 = parkingLots s)
    by (destruct Hcase as [(_ & _ & ->)|(_ & _ & ->)]; reflexivity).
  rewrite Hp. cbn [snd]. unfold entry_committed. cbn [parkingLots]. rewrite Hl.
  destruct (parkingLots s) as [|lot rest]; cbn [hd_error]; [split; reflexivity|].
  cbn [updateFirst]. rewrite Z.eqb_refl. cbn [hd_error updateFirst].
  rewrite Z.eqb_refl. split; [reflexivity|].
  intros E. rewrite (incOccupied_undo _ _ lot E). reflexivity.
Qed.

(** A vehicle recorded as a CAR that comes back declared as a MOTORCYCLE:
    the entry counts a motorcycle in, the exit counts a car out. *)
Lemma lot_counters_after_a_stay_witness :
  let entryData := EntryService.mk_entryData "KA01AB1234" "MOTORCYCLE" None None in
  let s' := snd (EntryService.processEntry entryData 1769090000000 demo_exited) in
  in_service demo_exited
  /\ parkingLots demo_exited = [ParkingLot.mk 10 "Main" 1 2 0 1 1 0 0 0]
  /\ parkingLots (snd (ExitService.processExit "KA01AB1234" 1769093600000 s'))
     = [ParkingLot.mk 10 "Main" 1 2 (-1) 2 1 1 (-1) 0].
Proof.
  cbv zeta. split; [exact demo_exited_in_service|]. split; [vm_compute; reflexivity|].
  destruct (@lot_counters_after_a_stay
              (EntryService.mk_entryData "KA01AB1234" "MOTORCYCLE" None None)
              1769090000000 1769093600000 demo_exited
              (EntryService.mk 102 100 1 (EntryService.mk_spot_details 1 1 "CAR")
                 1769090000000 "Vehicle successfully parked at Floor 1, Spot 1")
              (ExitService.mk 102 100 1 1769090000000 1769093600000 60 "1 hour"
                 (800 # 100)%Q "USD" "PENDING" "Thank you for using our parking lot")
              (Vehicle.mk 100 "KA01AB1234" "CAR" None None true)
              demo_exited_in_service) as [H _].
  - vm_compute. reflexivity.
  - vm_compute. reflexivity.
  - vm_compute. left. reflexivity.
  - reflexivity.
  - cbn [EntryService.license_plate] in H. rewrite H. vm_compute. reflexivity.
Defined.

(** ** Entries that fail *)

Lemma validate_vehicle_type (v : Vehicle.t) :
  Vehicle.validate v = None -> In (Vehicle.vehicle_type v) ["MOTORCYCLE"; "CAR"; "BUS"].
Proof.
  unfold Vehicle.validate.
  destruct (Vehicle.license_plate v =? "")%string; [discriminate|].
  destruct (20 <? String.length (Vehicle.license_plate v))%nat; [discriminate|].
  destruct (includes Vehicle.vehicleTypeEnum (Vehicle.vehicle_type v)) eqn:E;
    [|discriminate].
  intros _. apply includes_In in E. exact E.
Qed.

(** X30. For a request whose vehicle type names no member of
    [Object.prototype]: a [processEntry] that throws has written no spot, no
    transaction and no lot record, and no vehicle either unless the error is
    NO_SPOT_AVAILABLE. What it throws is VEHICLE_ALREADY_PARKED,
    NO_SPOT_AVAILABLE, the validation error of the schema for a new vehicle,
    or, for a vehicle type outside the enumeration on a license plate
    already on file, the [Error] 'Invalid vehicle type: ...', which carries
    no error code. *)
Theorem processEntry_failure_writes (entryData : EntryService.entryData_t) (now : Z)
    (s : Store) (e : exn) :
  ~ In (EntryService.vehicle_type entryData) Object_prototype_keys ->
  fst (EntryService.processEntry entryData now s) = Throw e ->
  let s' := snd (EntryService.processEntry entryData now s) in
  parkingSpots s' = parkingSpots s
  /\ parkingTransactions s' = parkingTransactions s
  /\ parkingLots s' = parkingLots s
  /\ (errorCode_of e <> Some "NO_SPOT_AVAILABLE" -> vehicles s' = vehicles s)
  /\ (errorCode_of e = Some "VEHICLE_ALREADY_PARKED"
      \/ errorCode_of e = Some "NO_SPOT_AVAILABLE"
      \/ (exists path, e = MongooseValidationError path)
      \/ (e = Error ("Invalid vehicle type: " ++ EntryService.vehicle_type entryData)
          /\ (exists vehicle,
                fst (VehicleRepository.findByLicensePlate
                       (EntryService.license_plate entryData) s) = Return (Some vehicle))
          /\ ~ In (EntryService.vehicle_type entryData) ["MOTORCYCLE"; "CAR"; "BUS"])).
Proof.
  intros _ He. cbv zeta. pose proof (processEntry_inv entryData now s) as H.
  destruct (find _ (vehicles s)) as [v|] eqn:Efind.
  - destruct (Vehicle.is_currently_parked v) eqn:Eflag.
    { rewrite H in He |- *. cbn [fst snd] in He |- *. injection He as <-.
      repeat split. left. reflexivity. }
    unfold entry_from_step3 in H. cbv zeta in H.
    pose proof (allocateSpot_spec (EntryService.vehicle_type entryData) s) as Hspec.
    destruct (fst (SpotAllocationService.allocateSpot _ s)) as [[spot|]|e'];
      rewrite H in He |- *; cbn [fst snd] in He |- *.
    + discriminate.
    + injection He as <-. repeat split. right. left. reflexivity.
    + injection He as <-. destruct Hspec as [Hout ->]. repeat split.
      right. right. right. split; [reflexivity|]. split; [|exact Hout].
      exists v. unfold VehicleRepository.findByLicensePlate, gets. cbn [fst].
      rewrite Efind. reflexivity.
  - destruct (Vehicle.validate _) as [path|] eqn:Ev.
    { rewrite H in He |- *. cbn [fst snd] in He |- *. injection He as <-.
      repeat split. right. right. left. exists path. reflexivity. }
    unfold entry_from_step3 in H. cbv zeta in H.
    pose proof (allocateSpot_spec (EntryService.vehicle_type entryData)
                  (vehicle_recorded entryData s)) as Hspec.
    destruct (fst (SpotAllocationService.allocateSpot _ _)) as [[spot|]|e'];
      rewrite H in He |- *; cbn [fst snd] in He |- *.
    + discriminate.
    + injection He as <-. repeat split; [intros C; contradiction C; reflexivity|].
      right. left. reflexivity.
    + exfalso. destruct Hspec as [Hout _]. apply Hout.
      apply validate_vehicle_type in Ev. exact Ev.
Qed.

Lemma processEntry_failure_writes_witness :
  let entryData := EntryService.mk_entryData "KA01AB1234" "TRUCK" None None in
  fst (EntryService.processEntry entryData 1769090000000 demo_exited)
  = Throw (Error "Invalid vehicle type: TRUCK")
  /\ vehicles (snd (EntryService.processEntry entryData 1769090000000 demo_exited))
     = vehicles demo_exited
  /\ parkingSpots (snd (EntryService.processEntry entryData 1769090000000 demo_exited))
     = parkingSpots demo_exited.
Proof.
  cbv zeta.
  assert (E : fst (EntryService.processEntry
                     (EntryService.mk_entryData "KA01AB1234" "TRUCK" None None)
                     1769090000000 demo_exited)
              = Throw (Error "Invalid vehicle type: TRUCK")) by (vm_compute; reflexivity).
  split; [exact E|].
  destruct (@processEntry_failure_writes
              (EntryService.mk_entryData "KA01AB1234" "TRUCK" None None)
              1769090000000 demo_exited (Error "Invalid vehicle type: TRUCK"))
    as (H1 & _ & _ & H4 & _);
    [simpl; intuition discriminate|exact E|].
  split; [apply H4; discriminate|exact H1].
Defined.
